(** * Gibbs-ringing removal ([dipy/denoise/gibbs.py]): a shallow embedding

    The development follows the Python module function by function:
    [_image_tv], [_gibbs_removal_1d], [_weights], [_gibbs_removal_2d] and
    [gibbs_removal].

    Modelling choices.
    - float64 samples are idealised as real numbers ([R]); complex samples
      are pairs of reals.  No rounding, overflow or NaN is modelled, and
      arrays are taken to hold floats (storing into an integer array
      would truncate).
    - A freshly built 2-D numpy array is a value [arr2]: its shape and its
      row-major data.  The helper functions of the module never write to
      their arguments (they start with [.copy()]), so they are pure
      functions on such values.
    - [gibbs_removal] writes into views of its argument; it is modelled
      over a store of buffers with strided views ([ndarray]), strides
      being counted in elements and non-negative.
    - Exceptions are values of type [exn]; every function that can raise
      returns a [result].
    - [axis], [slice_axis] and [n_points] are natural numbers, as the
      docstrings document them; axes counted from the end are not
      modelled.
    - numpy semantics is that of the 1.x series (1.13 or later) the
      module was written for: a boolean index with a non-empty dimension
      that differs from the indexed array raises [IndexError], and
      [np.any(None)] is [None]. *)

From Stdlib Require Import Reals Lra List Arith ZArith Lia Bool.
Import ListNotations.

Set Implicit Arguments.

(** ** Exceptions and the result monad *)

Inductive exn : Type :=
| SliceAxisError   (* line 283: ValueError, slices not along one of the 3 first dimensions *)
| RankTooHigh      (* line 297: ValueError, "Data have to be a 4D, 3D or 2D matrix" *)
| RankTooLow       (* line 299: ValueError, "Data is not an image" *)
| BroadcastError   (* numpy ValueError: shapes cannot be broadcast together *)
| ConcatError      (* numpy ValueError: concatenate, dimensions must match *)
| BoolIndexError   (* numpy IndexError: boolean index did not match indexed array *)
| IndexError       (* numpy IndexError: index out of bounds *)
| AxisError        (* numpy AxisError: axis out of bounds for the array *)
| FFTSizeError     (* numpy ValueError: invalid number of FFT data points (0) *)
| ReshapeError     (* numpy ValueError: cannot reshape array *)
| NoneTypeError.   (* TypeError: arithmetic on None *)

Inductive result (A : Type) : Type :=
| Ok (a : A)
| Err (e : exn).
Arguments Ok {A} a.
Arguments Err {A} e.

Definition bind {A B : Type} (c : result A) (k : A -> result B) : result B :=
  match c with
  | Ok a => k a
  | Err e => Err e
  end.

Declare Scope res_scope.
Delimit Scope res_scope with res.
Notation "x <- c1 ;; c2" := (bind c1 (fun x => c2))
  (at level 61, c1 at next level, right associativity) : res_scope.
Notation "' pat <- c1 ;; c2" := (bind c1 (fun x => match x with pat => c2 end))
  (at level 61, pat pattern, c1 at next level, right associativity) : res_scope.
Local Open Scope res_scope.

(** A Python [for] loop whose body may raise. *)
Fixpoint foldM {A S : Type} (body : S -> A -> result S) (l : list A) (s : S)
  : result S :=
  match l with
  | [] => Ok s
  | a :: l' => s' <- body s a ;; foldM body l' s'
  end.

(** ** Scalars *)

Class Dflt (A : Type) := dflt : A.
#[global] Instance Dflt_R : Dflt R := 0%R.
#[global] Instance Dflt_bool : Dflt bool := false.

Definition C : Type := (R * R)%type.
#[global] Instance Dflt_C : Dflt C := (0%R, 0%R).

Definition RtoC (x : R) : C := (x, 0%R).
Definition cadd (a b : C) : C := (fst a + fst b, snd a + snd b)%R.
Definition cmul (a b : C) : C :=
  (fst a * fst b - snd a * snd b, fst a * snd b + snd a * fst b)%R.
Definition cneg (a : C) : C := (- fst a, - snd a)%R.
Definition cscale (a : C) (r : R) : C := (fst a * r, snd a * r)%R.
Definition cdivr (a : C) (r : R) : C := (fst a / r, snd a / r)%R.
Definition cexp (a : C) : C :=
  (exp (fst a) * cos (snd a), exp (fst a) * sin (snd a))%R.
Definition cabs (a : C) : R := sqrt (fst a * fst a + snd a * snd a).

Fixpoint csum (f : nat -> C) (n : nat) : C :=
  match n with
  | O => RtoC 0
  | S k => cadd (csum f k) (f k)
  end.

(** [x > y] and [x != 0] as numpy evaluates them, to booleans. *)
Definition Rgtb (x y : R) : bool := if Rlt_dec y x then true else false.
Definition Rnonzero (x : R) : bool := if Req_dec_T x 0 then false else true.

(** ** Python indexing *)

(** A slice bound on an axis of length [len]: a negative bound counts
    from the end, and the result is clamped to [0, len]. *)
Definition slice_bound (len : nat) (i : Z) : nat :=
  Z.to_nat (Z.min (Z.max (if (i <? 0)%Z then i + Z.of_nat len else i) 0)
                  (Z.of_nat len)).

(** [start:stop] on an axis of length [len]; [None] is an omitted bound.
    Returns the first index and the number of selected positions. *)
Definition slice (len : nat) (start stop : option Z) : nat * nat :=
  let s := match start with Some a => slice_bound len a | None => O end in
  let e := match stop with Some b => slice_bound len b | None => len end in
  (s, e - s).

(** An integer index: negative counts from the end; out of range raises. *)
Definition int_index (len : nat) (i : Z) : result nat :=
  let j := if (i <? 0)%Z then (i + Z.of_nat len)%Z else i in
  if ((0 <=? j)%Z && (j <? Z.of_nat len)%Z)%bool then Ok (Z.to_nat j)
  else Err IndexError.

(** Broadcasting of one dimension, and the index read under it. *)
Definition bdim (a b : nat) : option nat :=
  if a =? b then Some a
  else if a =? 1 then Some b
  else if b =? 1 then Some a
  else None.

Definition bix (dim i : nat) : nat := if dim =? 1 then O else i.

(** ** 2-D arrays as values *)

Record arr2 (A : Type) : Type := mk_arr2
  { nrow : nat; ncol : nat; dat : list A }.

Definition wf {A} (m : arr2 A) : Prop := length (dat m) = nrow m * ncol m.

Definition get {A} `{Dflt A} (m : arr2 A) (i j : nat) : A :=
  nth (i * ncol m + j) (dat m) dflt.

(** The array of shape (M, N) whose entry (i, j) is [f i j]. *)
Definition tab {A} (M N : nat) (f : nat -> nat -> A) : arr2 A :=
  mk_arr2 M N (map (fun p => f (p / N) (p mod N)) (seq 0 (M * N))).

Definition shape2 {A} (m : arr2 A) : nat * nat := (nrow m, ncol m).

(** Whether a 2-D boolean index fits the array it indexes: numpy checks
    every dimension of the mask that is not empty against the array; a
    mask with an empty dimension selects nothing. *)
Definition bool_index_ok {A} (a : arr2 A) (mask : arr2 bool) : bool :=
  ((nrow mask =? 0) || (nrow mask =? nrow a))
  && ((ncol mask =? 0) || (ncol mask =? ncol a)).

Section Arr2Ops.
Context {A : Type} `{Dflt A}.

(** [x.copy()] *)
Definition copy (m : arr2 A) : arr2 A := m.

(** [x.T] *)
Definition transpose (m : arr2 A) : arr2 A :=
  tab (ncol m) (nrow m) (fun i j => get m j i).

(** [x[:, start:stop]] *)
Definition cols (m : arr2 A) (start stop : option Z) : arr2 A :=
  let '(s, w) := slice (ncol m) start stop in
  tab (nrow m) w (fun i j => get m i (s + j)).

(** [np.concatenate((a, b, c), axis=1)] *)
Definition concatenate1 (a b c : arr2 A) : result (arr2 A) :=
  if (nrow a =? nrow b) && (nrow b =? nrow c) then
    Ok (tab (nrow a) (ncol a + ncol b + ncol c)
          (fun i j =>
             if j <? ncol a then get a i j
             else if j <? ncol a + ncol b then get b i (j - ncol a)
             else get c i (j - ncol a - ncol b)))
  else Err ConcatError.

(** [np.fft.fftshift(x)]: every axis is rolled by half its length. *)
Definition fftshift (m : arr2 A) : arr2 A :=
  let M := nrow m in
  let N := ncol m in
  tab M N (fun i j => get m ((i + (M - M / 2)) mod M) ((j + (N - N / 2)) mod N)).

(** [a[mask]] on the flat data: the entries where the mask holds. *)
Fixpoint take_mask (l : list A) (m : list bool) : list A :=
  match l, m with
  | x :: l', b :: m' => if b then x :: take_mask l' m' else take_mask l' m'
  | _, _ => []
  end.

(** [a[mask] = v] on the flat data: the entries where the mask holds
    are replaced, in order, by the values of [v]. *)
Fixpoint put_mask (l : list A) (m : list bool) (v : list A) : list A :=
  match l, m with
  | x :: l', b :: m' =>
      if b then
        match v with
        | y :: v' => y :: put_mask l' m' v'
        | [] => x :: put_mask l' m' []
        end
      else x :: put_mask l' m' v
  | _, _ => l
  end.

Definition count_true (m : list bool) : nat := length (filter (fun b => b) m).

(** [a[mask]] for a 2-D boolean [mask]: a 1-D array. *)
Definition getmask (a : arr2 A) (mask : arr2 bool) : result (list A) :=
  if bool_index_ok a mask then Ok (take_mask (dat a) (dat mask))
  else Err BoolIndexError.

(** [a[mask] = v] for a 1-D array [v]. *)
Definition setmask (a : arr2 A) (mask : arr2 bool) (v : list A)
  : result (arr2 A) :=
  if bool_index_ok a mask then
    if length v =? count_true (dat mask) then
      Ok (mk_arr2 (nrow a) (ncol a) (put_mask (dat a) (dat mask) v))
    else Err BroadcastError
  else Err BoolIndexError.

(** [a[mask] = s] on the flat data, for a scalar [s]. *)
Fixpoint fill_mask (l : list A) (m : list bool) (s : A) : list A :=
  match l, m with
  | x :: l', b :: m' => (if b then s else x) :: fill_mask l' m' s
  | _, _ => l
  end.

(** [a[mask] = s] for a scalar [s]. *)
Definition fillmask (a : arr2 A) (mask : arr2 bool) (s : A)
  : result (arr2 A) :=
  if bool_index_ok a mask then
    Ok (mk_arr2 (nrow a) (ncol a) (fill_mask (dat a) (dat mask) s))
  else Err BoolIndexError.

(** [a[idx]] for [idx] a pair of index arrays, here a list of index
    pairs as [np.nonzero] returns them. *)
Definition gather (a : arr2 A) (idx : list (nat * nat)) : result (list A) :=
  if forallb (fun p : nat * nat => (fst p <? nrow a) && (snd p <? ncol a)) idx
  then Ok (map (fun p : nat * nat => get a (fst p) (snd p)) idx)
  else Err IndexError.

Fixpoint upd (l : list A) (k : nat) (v : A) : list A :=
  match l, k with
  | [], _ => []
  | _ :: l', O => v :: l'
  | x :: l', S k' => x :: upd l' k' v
  end.

(** [a[idx] = v] *)
Definition scatter (a : arr2 A) (idx : list (nat * nat)) (v : list A)
  : result (arr2 A) :=
  if forallb (fun p : nat * nat => (fst p <? nrow a) && (snd p <? ncol a)) idx then
    if length v =? length idx then
      Ok (mk_arr2 (nrow a) (ncol a)
            (fold_left (fun d (pv : nat * nat * A) => upd d (fst (fst pv) * ncol a + snd (fst pv)) (snd pv))
                       (combine idx v) (dat a)))
    else Err BroadcastError
  else Err IndexError.
End Arr2Ops.

(** Elementwise binary operation with numpy broadcasting. *)
Definition zip2 {A B D} `{Dflt A} `{Dflt B} (f : A -> B -> D)
  (a : arr2 A) (b : arr2 B) : result (arr2 D) :=
  match bdim (nrow a) (nrow b), bdim (ncol a) (ncol b) with
  | Some M, Some N =>
      Ok (tab M N (fun i j =>
                     f (get a (bix (nrow a) i) (bix (ncol a) j))
                       (get b (bix (nrow b) i) (bix (ncol b) j))))
  | _, _ => Err BroadcastError
  end.

(** Elementwise unary operation. *)
Definition map2d {A B} `{Dflt A} (f : A -> B) (a : arr2 A) : arr2 B :=
  tab (nrow a) (ncol a) (fun i j => f (get a i j)).

(** Elementwise binary operation on 1-D arrays. *)
Definition vzip {A B D} `{Dflt A} `{Dflt B} (f : A -> B -> D)
  (u : list A) (v : list B) : result (list D) :=
  match bdim (length u) (length v) with
  | Some n =>
      Ok (map (fun i => f (nth (bix (length u) i) u dflt)
                          (nth (bix (length v) i) v dflt)) (seq 0 n))
  | None => Err BroadcastError
  end.

(** [np.zeros(shape)] *)
Definition zeros (shape : nat * nat) : arr2 R :=
  tab (fst shape) (snd shape) (fun _ _ => 0%R).

(** [np.nonzero(a)]: the indices of the non-zero entries, row-major. *)
Definition nonzero (a : arr2 R) : list (nat * nat) :=
  filter (fun p : nat * nat => Rnonzero (get a (fst p) (snd p)))
         (map (fun p => (p / ncol a, p mod ncol a)) (seq 0 (nrow a * ncol a))).

(** [np.linspace(start, stop, num)] *)
Definition linspace (start stop : R) (num : nat) : list R :=
  let step := ((stop - start) / INR (num - 1))%R in
  map (fun i => if (1 <? num) && (i =? num - 1) then stop
                else (INR i * step + start)%R)
      (seq 0 num).

(** [v[start:stop]] on a 1-D array. *)
Definition slice1 {A} (v : list A) (start stop : option Z) : list A :=
  let '(s, w) := slice (length v) start stop in firstn w (skipn s v).

(** [np.meshgrid(a, b)]: both results have shape (len b, len a). *)
Definition meshgrid (a b : list R) : arr2 R * arr2 R :=
  (tab (length b) (length a) (fun _ j => nth j a 0%R),
   tab (length b) (length a) (fun i _ => nth i b 0%R)).

(** ** Discrete Fourier transforms *)

Definition cis (t : R) : C := (cos t, sin t).

Definition dft_phase (M N u v m n : nat) : R :=
  (2 * PI * (INR u * INR m / INR M + INR v * INR n / INR N))%R.

(** [np.fft.fft2(x)] for a real 2-D array. *)
Definition fft2 (x : arr2 R) : result (arr2 C) :=
  let M := nrow x in
  let N := ncol x in
  if (M =? 0) || (N =? 0) then Err FFTSizeError
  else Ok (tab M N (fun u v =>
             csum (fun m => csum (fun n =>
               cmul (RtoC (get x m n)) (cis (- dft_phase M N u v m n))) N) M)).

(** [np.fft.ifft2(X)] *)
Definition ifft2 (X : arr2 C) : result (arr2 C) :=
  let M := nrow X in
  let N := ncol X in
  if (M =? 0) || (N =? 0) then Err FFTSizeError
  else Ok (tab M N (fun m n =>
             cdivr (csum (fun u => csum (fun v =>
               cmul (get X u v) (cis (dft_phase M N u v m n))) N) M)
                   (INR (M * N)))).

(** ** [_image_tv] (lines 6-57) *)

Definition rsub := zip2 Rminus.
Definition radd := zip2 Rplus.
Definition absolute := map2d Rabs.

Definition _image_tv (x : arr2 R) (axis n_points : nat)
  : result (arr2 R * arr2 R) :=
  let np := Z.of_nat n_points in
  let xs := if axis =? 0 then copy (transpose x) else copy x in
  xs <- concatenate1 (cols xs (Some (- np - 1)%Z) None) xs
                     (cols xs (Some 0%Z) (Some (np + 1)%Z)) ;;
  d <- rsub (cols xs (Some (np + 1)%Z) (Some (- np - 1)%Z))
            (cols xs (Some (np + 2)%Z) (Some (- np)%Z)) ;;
  let ptv := absolute d in
  d <- rsub (cols xs (Some (np + 1)%Z) (Some (- np - 1)%Z))
            (cols xs (Some np) (Some (- np - 2)%Z)) ;;
  let ntv := absolute d in
  '(ptv, ntv) <-
    foldM (fun '(ptv, ntv) k =>
             let n := Z.of_nat k in
             d <- rsub (cols xs (Some (np + 1 + n)%Z) (Some (- np - 1 + n)%Z))
                       (cols xs (Some (np + 2 + n)%Z) (Some (- np + n)%Z)) ;;
             ptv <- radd ptv (absolute d) ;;
             d <- rsub (cols xs (Some (np + 1 - n)%Z) (Some (- np - 1 - n)%Z))
                       (cols xs (Some (np - n)%Z) (Some (- np - 2 - n)%Z)) ;;
             ntv <- radd ntv (absolute d) ;;
             Ok (ptv, ntv))
          (seq 1 (n_points - 1)) (ptv, ntv) ;;
  if axis =? 0 then Ok (transpose ptv, transpose ntv) else Ok (ptv, ntv).

(** ** [_gibbs_removal_1d] (lines 60-140) *)

Definition minimum := zip2 Rmin.
Definition gt := zip2 Rgtb.

(** [dst[a > b] = src[a > b]] *)
Definition assign_where_gt (dst a b src : arr2 R) : result (arr2 R) :=
  m <- gt a b ;;
  v <- getmask src m ;;
  m' <- gt a b ;;
  setmask dst m' v.

(** [dst[a > b] = s] *)
Definition fill_where_gt (dst a b : arr2 R) (s : R) : result (arr2 R) :=
  m <- gt a b ;;
  fillmask dst m s.

(** [c * e] for a 2-D array [c] and a 1-D array [e] (broadcast over rows). *)
Definition mul_row (c : arr2 C) (e : list C) : result (arr2 C) :=
  match bdim (ncol c) (length e) with
  | Some N =>
      Ok (tab (nrow c) N (fun i j =>
            cmul (get c i (bix (ncol c) j)) (nth (bix (length e) j) e dflt)))
  | None => Err BroadcastError
  end.

(** Line 88: the grid of trial shifts. *)
Definition ssamp : list R := linspace 0.02 0.9 45.

(** Lines 107-108: [k = (2.0j * np.pi * np.linspace(-N/2, N/2-1, num=N)) / N] *)
Definition phase_ramp (N : nat) : list C :=
  map (fun kk => cdivr (cscale (cscale (0%R, 2%R) PI) kk) (INR N))
      (linspace (- INR N / 2) (INR N / 2 - 1) N).

(** [abs(np.fft.ifft2(np.fft.fftshift(c * e)))] *)
Definition shifted_image (c : arr2 C) (e : list C) : result (arr2 R) :=
  m <- mul_row c e ;;
  r <- ifft2 (fftshift m) ;;
  Ok (map2d cabs r).

(** The variables the search loop updates. *)
Record search : Type := mk_search
  { isp : arr2 R; isn : arr2 R; sp : arr2 R; sn : arr2 R;
    tvp : arr2 R; tvn : arr2 R }.

(** Lines 95-108: state before the loop, and the shifted spectrum [c]. *)
Definition search_init (xs : arr2 R) (n_points : nat)
  : result (search * arr2 C) :=
  '(tvr, tvl) <- _image_tv xs 1 n_points ;;
  tvp0 <- minimum tvr tvl ;;
  let tvn0 := copy tvp0 in
  let isp0 := copy xs in
  let isn0 := copy xs in
  let sp0 := zeros (shape2 xs) in
  let sn0 := zeros (shape2 xs) in
  c <- fft2 xs ;;
  Ok (mk_search isp0 isn0 sp0 sn0 tvp0 tvn0, fftshift c).

(** Lines 110-128: one iteration of [for s in ssamp]. *)
Definition search_step (c : arr2 C) (k : list C) (n_points : nat)
  (st : search) (s : R) : result search :=
  img_p <- shifted_image c (map (fun z => cexp (cscale z s)) k) ;;
  '(tvsr, tvsl) <- _image_tv img_p 1 n_points ;;
  tvs_p <- minimum tvsr tvsl ;;
  img_n <- shifted_image c (map (fun z => cexp (cscale (cneg z) s)) k) ;;
  '(tvsr, tvsl) <- _image_tv img_n 1 n_points ;;
  tvs_n <- minimum tvsr tvsl ;;
  isp1 <- assign_where_gt (isp st) (tvp st) tvs_p img_p ;;
  sp1 <- fill_where_gt (sp st) (tvp st) tvs_p s ;;
  tvp1 <- assign_where_gt (tvp st) (tvp st) tvs_p tvs_p ;;
  isn1 <- assign_where_gt (isn st) (tvn st) tvs_n img_n ;;
  sn1 <- fill_where_gt (sn st) (tvn st) tvs_n s ;;
  tvn1 <- assign_where_gt (tvn st) (tvn st) tvs_n tvs_n ;;
  Ok (mk_search isp1 isn1 sp1 sn1 tvp1 tvn1).

(** The loop run over a list of shifts (all of [ssamp], or a prefix). *)
Definition search_loop (xs : arr2 R) (n_points : nat) (shifts : list R)
  : result search :=
  '(st0, c) <- search_init xs n_points ;;
  foldM (search_step c (phase_ramp (ncol xs)) n_points) shifts st0.

(** Line 131: [idx = np.nonzero(sp + sn)] *)
Definition interp_idx (st : search) : result (list (nat * nat)) :=
  s <- radd (sp st) (sn st) ;;
  Ok (nonzero s).

(** Line 135, the divisor [sp[idx] + sn[idx]]. *)
Definition interp_denominators (st : search) (idx : list (nat * nat))
  : result (list R) :=
  a <- gather (sp st) idx ;;
  b <- gather (sn st) idx ;;
  vzip Rplus a b.

(** Lines 131-135 *)
Definition interpolate (xs : arr2 R) (st : search) : result (arr2 R) :=
  idx <- interp_idx st ;;
  a <- gather (isp st) idx ;;
  b <- gather (isn st) idx ;;
  num <- vzip Rminus a b ;;
  den <- interp_denominators st idx ;;
  q <- vzip Rdiv num den ;;
  w <- gather (sn st) idx ;;
  p <- vzip Rmult q w ;;
  b' <- gather (isn st) idx ;;
  v <- vzip Rplus p b' ;;
  scatter xs idx v.

Definition _gibbs_removal_1d (x : arr2 R) (axis n_points : nat)
  : result (arr2 R) :=
  let xs := if axis =? 0 then copy (transpose x) else copy x in
  st <- search_loop xs n_points ssamp ;;
  xs' <- interpolate xs st ;;
  if axis =? 0 then Ok (transpose xs') else Ok xs'.

(** ** [_weights] (lines 143-182) *)

(** Whether a dimension of the assigned value fits the target dimension. *)
Definition fits (src tgt : nat) : bool := (src =? tgt) || (src =? 1).

(** [G[r0:r1, c0:c1] = V] *)
Definition set_block (G : arr2 R) (r0 r1 c0 c1 : option Z) (V : arr2 R)
  : result (arr2 R) :=
  let '(rs, rw) := slice (nrow G) r0 r1 in
  let '(cs, cw) := slice (ncol G) c0 c1 in
  if fits (nrow V) rw && fits (ncol V) cw then
    Ok (tab (nrow G) (ncol G) (fun i j =>
          if (rs <=? i) && (i <? rs + rw) && (cs <=? j) && (j <? cs + cw)
          then get V (bix (nrow V) (i - rs)) (bix (ncol V) (j - cs))
          else get G i j))
  else Err BroadcastError.

(** [G[r0:r1, c] = v] for a scalar [v] *)
Definition set_col (G : arr2 R) (r0 r1 : option Z) (c : Z) (v : R)
  : result (arr2 R) :=
  let '(rs, rw) := slice (nrow G) r0 r1 in
  cj <- int_index (ncol G) c ;;
  Ok (tab (nrow G) (ncol G) (fun i j =>
        if (rs <=? i) && (i <? rs + rw) && (j =? cj) then v else get G i j)).

(** [G[r, c0:c1] = v] for a scalar [v] *)
Definition set_row (G : arr2 R) (r : Z) (c0 c1 : option Z) (v : R)
  : result (arr2 R) :=
  ri <- int_index (nrow G) r ;;
  let '(cs, cw) := slice (ncol G) c0 c1 in
  Ok (tab (nrow G) (ncol G) (fun i j =>
        if (i =? ri) && (cs <=? j) && (j <? cs + cw) then v else get G i j)).

(** [G[r, c] = v] *)
Definition set_at (G : arr2 R) (r c : Z) (v : R) : result (arr2 R) :=
  ri <- int_index (nrow G) r ;;
  cj <- int_index (ncol G) c ;;
  Ok (tab (nrow G) (ncol G) (fun i j =>
        if (i =? ri) && (j =? cj) then v else get G i j)).

Definition rdiv := zip2 Rdiv.

Definition _weights (shape : nat * nat) : result (arr2 R * arr2 R) :=
  let G0 := zeros shape in
  let G1 := zeros shape in
  let k := linspace (- PI) PI (fst shape) in
  let inner := slice1 k (Some 1%Z) (Some (-1)%Z) in
  let '(K1, K0) := meshgrid inner inner in
  let cosk0 := map2d (fun t => (1 + cos t)%R) K0 in
  let cosk1 := map2d (fun t => (1 + cos t)%R) K1 in
  s <- radd cosk0 cosk1 ;;
  v <- rdiv cosk0 s ;;
  G1 <- set_block G1 (Some 1%Z) (Some (-1)%Z) (Some 1%Z) (Some (-1)%Z) v ;;
  s <- radd cosk0 cosk1 ;;
  v <- rdiv cosk1 s ;;
  G0 <- set_block G0 (Some 1%Z) (Some (-1)%Z) (Some 1%Z) (Some (-1)%Z) v ;;
  G1 <- set_col G1 (Some 1%Z) (Some (-1)%Z) 0 1 ;;
  G1 <- set_col G1 (Some 1%Z) (Some (-1)%Z) (-1) 1 ;;
  G1 <- set_at G1 0 0 (1 / 2) ;;
  G1 <- set_at G1 (-1) (-1) (1 / 2) ;;
  G1 <- set_at G1 0 (-1) (1 / 2) ;;
  G1 <- set_at G1 (-1) 0 (1 / 2) ;;
  G0 <- set_row G0 0 (Some 1%Z) (Some (-1)%Z) 1 ;;
  G0 <- set_row G0 (-1) (Some 1%Z) (Some (-1)%Z) 1 ;;
  G0 <- set_at G0 0 0 (1 / 2) ;;
  G0 <- set_at G0 (-1) (-1) (1 / 2) ;;
  G0 <- set_at G0 0 (-1) (1 / 2) ;;
  G0 <- set_at G0 (-1) 0 (1 / 2) ;;
  Ok (G0, G1).

(** ** [_gibbs_removal_2d] (lines 185-240) *)

(** [np.any(G)] for an optional argument: on [None] numpy 1.x returns
    [None] itself; on an array it returns a boolean. *)
Definition np_any (G : option (arr2 R)) : option bool :=
  match G with
  | None => None
  | Some g => Some (existsb Rnonzero (dat g))
  end.

Definition is_None {A} (o : option A) : bool :=
  match o with None => true | Some _ => false end.

(** A spectrum times a weight array; a weight left at [None] cannot be
    multiplied. *)
Definition cmul_weights (X : arr2 C) (G : option (arr2 R))
  : result (arr2 C) :=
  match G with
  | Some g => zip2 cscale X g
  | None => Err NoneTypeError
  end.

Definition _gibbs_removal_2d (image : arr2 R) (n_points : nat)
  (G0 G1 : option (arr2 R)) : result (arr2 R) :=
  '(G0, G1) <-
    (if is_None (np_any G0) || is_None (np_any G1) then
       '(g0, g1) <- _weights (shape2 image) ;; Ok (Some g0, Some g1)
     else Ok (G0, G1)) ;;
  img_c1 <- _gibbs_removal_1d image 1 n_points ;;
  img_c0 <- _gibbs_removal_1d image 0 n_points ;;
  C1 <- fft2 img_c1 ;;
  C0 <- fft2 img_c0 ;;
  a <- cmul_weights (fftshift C1) G1 ;;
  b <- cmul_weights (fftshift C0) G0 ;;
  s <- zip2 cadd a b ;;
  r <- ifft2 s ;;
  Ok (map2d cabs r).

(** ** Arrays in memory: buffers and strided views *)

(** A view of a buffer: the buffer's identity, the position of the first
    element, and per axis the length and the stride (in elements). *)
Record ndarray : Type := mk_nd
  { base : nat; offset : nat; shape : list nat; strides : list nat }.

Definition store : Type := list (list R).

Definition buffer (st : store) (b : nat) : list R := nth b st [].

Definition ndim (v : ndarray) : nat := length (shape v).

Definition dim (v : ndarray) (a : nat) : nat := nth a (shape v) 0.
Definition stride (v : ndarray) (a : nat) : nat := nth a (strides v) 0.

Definition swap_nth (l : list nat) (a b : nat) : list nat :=
  upd (upd l a (nth b l 0)) b (nth a l 0).

(** [np.swapaxes(v, a, b)]: a view with the two axes exchanged. *)
Definition swapaxes (v : ndarray) (a b : nat) : result ndarray :=
  if (a <? ndim v) && (b <? ndim v) then
    Ok (mk_nd (base v) (offset v) (swap_nth (shape v) a b)
              (swap_nth (strides v) a b))
  else Err AxisError.

(** The 2-D image a rank-2 view shows. *)
Definition read2 (st : store) (v : ndarray) : arr2 R :=
  tab (dim v 0) (dim v 1) (fun i j =>
    nth (offset v + i * stride v 0 + j * stride v 1) (buffer st (base v)) 0%R).

(** [v[:, :, vi]] of a rank-3 view, as the image it shows. *)
Definition read_slice (st : store) (v : ndarray) (vi : nat) : arr2 R :=
  tab (dim v 0) (dim v 1) (fun i j =>
    nth (offset v + i * stride v 0 + j * stride v 1 + vi * stride v 2)
        (buffer st (base v)) 0%R).

(** [v[:, :, vi] = m]: the entries of [m] are stored through the view. *)
Definition write_slice (st : store) (v : ndarray) (vi : nat) (m : arr2 R)
  : result store :=
  if fits (nrow m) (dim v 0) && fits (ncol m) (dim v 1) then
    Ok (upd st (base v)
          (fold_left
             (fun buf p =>
                let i := p / dim v 1 in
                let j := p mod dim v 1 in
                upd buf (offset v + i * stride v 0 + j * stride v 1
                         + vi * stride v 2)
                    (get m (bix (nrow m) i) (bix (ncol m) j)))
             (seq 0 (dim v 0 * dim v 1)) (buffer st (base v))))
  else Err BroadcastError.

(** A new array owning a new buffer. *)
Definition alloc (st : store) (m : arr2 R) : store * ndarray :=
  (st ++ [dat m], mk_nd (length st) 0 [nrow m; ncol m] [ncol m; 1]).

(** [v.reshape(newshape)].  Only the two forms [gibbs_removal] uses are
    modelled.
    - (a, b, c, d) to (a, b, c*d): a view when the last two axes can be
      walked with one stride (or the array has at most one element);
      otherwise numpy copies the data, in C order, into a new buffer.
    - (a, b, c*d) back to (a, b, c, d): always a view. *)
Definition reshape (st : store) (v : ndarray) (newshape : list nat)
  : result (store * ndarray) :=
  match shape v, strides v, newshape with
  | [a; b; c; d], [s0; s1; s2; s3], [a'; b'; e'] =>
      if (a =? a') && (b =? b') && (c * d =? e') then
        if (a * b * c * d <=? 1) || (c =? 1) || (d =? 1) || (s2 =? d * s3)
        then Ok (st, mk_nd (base v) (offset v) [a; b; c * d]
                           [s0; s1; if d =? 1 then s2 else s3])
        else
          let buf :=
            map (fun p =>
                   let l := p mod d in
                   let k := (p / d) mod c in
                   let j := (p / (c * d)) mod b in
                   let i := p / (b * c * d) in
                   nth (offset v + i * s0 + j * s1 + k * s2 + l * s3)
                       (buffer st (base v)) 0%R)
                (seq 0 (a * b * c * d)) in
          Ok (st ++ [buf],
              mk_nd (length st) 0 [a; b; c * d] [b * (c * d); c * d; 1])
      else Err ReshapeError
  | [a; b; e], [s0; s1; s2], [a'; b'; c'; d'] =>
      if (a =? a') && (b =? b') && (e =? c' * d') then
        Ok (st, mk_nd (base v) (offset v) [a; b; c'; d'] [s0; s1; d' * s2; s2])
      else Err ReshapeError
  | _, _, _ => Err ReshapeError
  end.

(** ** [gibbs_removal] (lines 243-319) *)

(** Lines 309-311: [for vi in range(shap[2])], each slice of the rank-3
    view is read, corrected and stored back through the view. *)
Definition correct_slices (vol : ndarray) (n_points : nat) (G0 G1 : arr2 R)
  (slices : list nat) (st : store) : result store :=
  foldM (fun st vi =>
           r <- _gibbs_removal_2d (read_slice st vol vi) n_points
                                  (Some G0) (Some G1) ;;
           write_slice st vol vi r)
        slices st.

Definition gibbs_removal (st : store) (vol : ndarray)
  (slice_axis n_points : nat) : result (store * ndarray) :=
  let nd := ndim vol in
  (* lines 282-290 *)
  vol <- (if 2 <? slice_axis then Err SliceAxisError
          else if (slice_axis <? 2) && (2 <? nd) then swapaxes vol slice_axis 2
          else Ok vol) ;;
  (* lines 293-299 *)
  '(st, vol, inishap) <-
    (if nd =? 4 then
       let inishap := shape vol in
       '(st', vol') <- reshape st vol [nth 0 inishap 0; nth 1 inishap 0;
                                       nth 2 inishap 0 * nth 3 inishap 0] ;;
       Ok (st', vol', inishap)
     else if 4 <? nd then Err RankTooHigh
     else if nd <? 2 then Err RankTooLow
     else Ok (st, vol, [])) ;;
  (* lines 302-303 *)
  let shap := shape vol in
  '(G0, G1) <- _weights (nth 0 shap 0, nth 1 shap 0) ;;
  (* lines 306-311 *)
  '(st, vol) <-
    (if nd =? 2 then
       r <- _gibbs_removal_2d (read2 st vol) n_points (Some G0) (Some G1) ;;
       Ok (alloc st r)
     else
       st' <- correct_slices vol n_points G0 G1 (seq 0 (nth 2 shap 0)) st ;;
       Ok (st', vol)) ;;
  (* lines 314-317 *)
  '(st, vol) <- (if nd =? 4 then reshape st vol inishap else Ok (st, vol)) ;;
  vol <- (if slice_axis <? 2 then swapaxes vol slice_axis 2 else Ok vol) ;;
  Ok (st, vol).

(** ** Vocabulary of the statements *)

(** Every entry of the array satisfies [P]. *)
Definition entries {A} (P : A -> Prop) (m : arr2 A) : Prop := Forall P (dat m).

(** Periodic read along axis 1: the column index is taken modulo the
    length of the axis. *)
Definition pget (x : arr2 R) (i : nat) (z : Z) : R :=
  get x i (Z.to_nat (z mod Z.of_nat (ncol x))).

(** [t 0 + t 1 + ... + t k], accumulated in this order. *)
Fixpoint tv_sum (t : nat -> R) (k : nat) : R :=
  match k with
  | O => t O
  | S k' => (tv_sum t k' + t (S k'))%R
  end.

(** The terms [_image_tv] adds at pixel (i, j), along axis 1, for the
    offset [n]: towards the right neighbours and towards the left ones. *)
Definition fwd_term (x : arr2 R) (i j n : nat) : R :=
  Rabs (pget x i (Z.of_nat j + Z.of_nat n)
        - pget x i (Z.of_nat j + Z.of_nat n + 1)).

Definition bwd_term (x : arr2 R) (i j n : nat) : R :=
  Rabs (pget x i (Z.of_nat j - Z.of_nat n)
        - pget x i (Z.of_nat j - Z.of_nat n - 1)).

(** The two scores at pixel (i, j) for a window of [n_points] offsets. *)
Definition ptv_at (x : arr2 R) (n_points i j : nat) : R :=
  tv_sum (fwd_term x i j) (n_points - 1).

Definition ntv_at (x : arr2 R) (n_points i j : nat) : R :=
  tv_sum (bwd_term x i j) (n_points - 1).

(** The positive-direction score as the specification words it:
    [|x[i+1+n] - x[i+2+n]|] for n = 0 .. n_points-1. *)
Definition ptv_claimed (x : arr2 R) (n_points i j : nat) : R :=
  tv_sum (fun n => Rabs (pget x i (Z.of_nat j + 1 + Z.of_nat n)
                         - pget x i (Z.of_nat j + 2 + Z.of_nat n)))
         (n_points - 1).

(** Line 41 of [_image_tv]: each row with its last and first
    [n_points + 1] samples put before and after it. *)
Definition extended (x : arr2 R) (n_points : nat) : arr2 R :=
  tab (nrow x) (ncol x + 2 * n_points + 2)
      (fun i q => pget x i (Z.of_nat q - Z.of_nat n_points - 1)).

(** The array has shape (M, N). *)
Definition has_shape {A} (M N : nat) (a : arr2 A) : Prop :=
  nrow a = M /\ ncol a = N.

(** All the arrays of a search state have shape (M, N). *)
Definition search_shape (M N : nat) (st : search) : Prop :=
  has_shape M N (isp st) /\ has_shape M N (isn st) /\
  has_shape M N (sp st) /\ has_shape M N (sn st) /\
  has_shape M N (tvp st) /\ has_shape M N (tvn st).



(** A spatially constant image: [np.full((M, N), c)]. *)
Definition constant (M N : nat) (c : R) : arr2 R := tab M N (fun _ _ => c).

(** The entries of the two weight arrays for [n] rows and [m] columns:
    corners 1/2, the edges 1 or 0, and inside the cosine taper over the
    angular grid [np.linspace(-pi, pi, n)]. *)
Definition kang (n i : nat) : R := nth i (linspace (- PI) PI n) 0%R.

Definition is_inner (n i : nat) : bool := (1 <=? i) && (i <? n - 1).

Definition is_corner (n m i j : nat) : bool :=
  ((i =? 0) || (i =? n - 1)) && ((j =? 0) || (j =? m - 1)).

Definition taper1 (k0 k1 : R) : R :=
  ((1 + cos k0) / ((1 + cos k0) + (1 + cos k1)))%R.

Definition taper0 (k0 k1 : R) : R :=
  ((1 + cos k1) / ((1 + cos k0) + (1 + cos k1)))%R.

Definition g1_at (n m i j : nat) : R :=
  if is_corner n m i j then (1 / 2)%R
  else if is_inner n i && ((j =? 0) || (j =? m - 1)) then 1%R
  else if is_inner n i && is_inner m j then taper1 (kang n i) (kang n j)
  else 0%R.

Definition g0_at (n m i j : nat) : R :=
  if is_corner n m i j then (1 / 2)%R
  else if ((i =? 0) || (i =? n - 1)) && is_inner m j then 1%R
  else if is_inner n i && is_inner m j then taper0 (kang n i) (kang n j)
  else 0%R.

(** A view carries one stride per axis. *)
Definition wf_nd (v : ndarray) : Prop := length (strides v) = length (shape v).

(** The lengths of the first two axes once [gibbs_removal] has brought
    the slice axis to position 2. *)
Definition plane (vol : ndarray) (slice_axis : nat) : nat * nat :=
  let sh := if (slice_axis <? 2) && (2 <? ndim vol)
            then swap_nth (shape vol) slice_axis 2 else shape vol in
  (nth 0 sh 0, nth 1 sh 0).

(** The view [gibbs_removal] iterates over for a rank-3 input: the
    input itself, or the input with the slice axis exchanged with axis 2. *)
Definition working_view (vol : ndarray) (slice_axis : nat) : ndarray :=
  if slice_axis <? 2 then
    mk_nd (base vol) (offset vol) (swap_nth (shape vol) slice_axis 2)
          (swap_nth (strides vol) slice_axis 2)
  else vol.

(** Whether the last two axes of a rank-4 view can be flattened into one
    without copying (the test [reshape] makes). *)
Definition flattens_in_place (w : ndarray) : bool :=
  match shape w, strides w with
  | [a; b; c; d], [s0; s1; s2; s3] =>
      (a * b * c * d <=? 1) || (c =? 1) || (d =? 1) || (s2 =? d * s3)
  | _, _ => false
  end.

(** The strides of a C-contiguous array of the given shape. *)
Fixpoint c_strides (sh : list nat) : list nat :=
  match sh with
  | [] => []
  | _ :: rest => fold_right Nat.mul 1 rest :: c_strides rest
  end.

(** A freshly created array: it owns buffer [b], in C order. *)
Definition c_contiguous (b : nat) (sh : list nat) : ndarray :=
  mk_nd b 0 sh (c_strides sh).

(** The store and the rank-3 view after line 295,
    [vol.reshape((inishap[0], inishap[1], inishap[2]*inishap[3]))]. *)
Definition flatten (st : store) (w : ndarray) : store * ndarray :=
  match reshape st w [dim w 0; dim w 1; dim w 2 * dim w 3] with
  | Ok p => p
  | Err _ => (st, w)
  end.

(** The rank-4 view after line 315, [vol.reshape(inishap)]. *)
Definition unflatten (w : ndarray) (inishap : list nat) : ndarray :=
  match reshape [] w inishap with
  | Ok p => snd p
  | Err _ => w
  end.

(** The position in the buffer of element (i, j, k) of a rank-3 view. *)
Definition addr3 (w : ndarray) (i j k : nat) : nat :=
  offset w + i * stride w 0 + j * stride w 1 + k * stride w 2.

(** The view addresses its buffer properly: every element lies inside
    the buffer, and two distinct elements never share a position. *)
Definition valid_view (st : store) (w : ndarray) : Prop :=
  base w < length st
  /\ (forall i j k, i < dim w 0 -> j < dim w 1 -> k < dim w 2 ->
       addr3 w i j k < length (buffer st (base w)))
  /\ (forall i j k i' j' k',
        i < dim w 0 -> j < dim w 1 -> k < dim w 2 ->
        i' < dim w 0 -> j' < dim w 1 -> k' < dim w 2 ->
        addr3 w i j k = addr3 w i' j' k' -> i = i' /\ j = j' /\ k = k').

(** ** Sample inputs *)

(** A row with a single step. *)
Definition tv_row : arr2 R := mk_arr2 1 5 [1; 0; 0; 0; 0]%R.

(** Constant images of 3 x 3 and 4 x 4 pixels. *)
Definition image_3x3 : arr2 R := constant 3 3 1.
Definition image_4x4 : arr2 R := constant 4 4 1.

(** A store holding one zeroed buffer of [len] samples. *)
Definition memory (len : nat) : store := [repeat 0%R len].

(** Arrays that own buffer 0, in C order. *)
Definition vol_3x3 : ndarray := c_contiguous 0 [3; 3].
Definition vol_4x4 : ndarray := c_contiguous 0 [4; 4].
Definition vol_4x4x2 : ndarray := c_contiguous 0 [4; 4; 2].
Definition vol_2x4x4x2 : ndarray := c_contiguous 0 [2; 4; 4; 2].
Definition vol_2x4x4 : ndarray := c_contiguous 0 [2; 4; 4].

(** ** Vocabulary of the further statements *)

Definition nonnegative (v : R) : Prop := (0 <= v)%R.

(** The score [_gibbs_removal_1d] judges an image by at pixel (i, j):
    [np.minimum(tvr, tvl)] of lines 96-97 and 112-113. *)
Definition tv_min (x : arr2 R) (n_points i j : nat) : R :=
  Rmin (ptv_at x n_points i j) (ntv_at x n_points i j).

(** Every array of a search state holds as many samples as its shape
    says. *)
Definition search_wf (st : search) : Prop :=
  wf (isp st) /\ wf (isn st) /\ wf (sp st) /\ wf (sn st)
  /\ wf (tvp st) /\ wf (tvn st).

(** What the search holds for one direction at pixel (i, j), given the
    shift field, the image field and the score field of that direction:
    either nothing was recorded (shift 0, the sample and the score of
    the input), or a shift satisfying [P] was, with a score strictly
    below the score of the input. *)
Definition recorded (P : R -> Prop) (xs : arr2 R) (n_points : nat)
  (s_f is_f tv_f : arr2 R) (i j : nat) : Prop :=
  (get s_f i j = 0%R /\ get is_f i j = get xs i j
   /\ get tv_f i j = tv_min xs n_points i j)
  \/ (P (get s_f i j)
      /\ (0 <= get tv_f i j < tv_min xs n_points i j)%R).

(** The value line 135 stores at a pixel of [idx]. *)
Definition interpolated (st : search) (i j : nat) : R :=
  ((get (isp st) i j - get (isn st) i j)
   / (get (sp st) i j + get (sn st) i j) * get (sn st) i j
   + get (isn st) i j)%R.

(** The invariant of the search loop on an image [xs] of shape (M, N). *)
Definition search_recorded (M N n_points : nat) (xs : arr2 R)
  (P : R -> Prop) (st : search) : Prop :=
  search_shape M N st /\ search_wf st
  /\ forall i j, i < M -> j < N ->
       recorded P xs n_points (sp st) (isp st) (tvp st) i j
       /\ recorded P xs n_points (sn st) (isn st) (tvn st) i j.

(** The image tried for the shift [s]: line 111 ([positive]) or
    line 116, from the shifted spectrum of line 106. *)
Definition trial_image (xs : arr2 R) (positive : bool) (s : R)
  : result (arr2 R) :=
  c <- fft2 xs ;;
  shifted_image (fftshift c)
    (map (fun z => cexp (cscale (if positive then z else cneg z) s))
         (phase_ramp (ncol xs))).

(** For one direction at pixel (i, j), the search over [shifts] has kept
    the first best trial: either no trial has a score below the score of
    the input, and nothing is recorded; or the recorded shift is the
    first of [shifts] whose trial image has the lowest score, that score
    is below the score of the input, and the stored sample and score are
    those of that trial image. *)
Definition kept_best (xs : arr2 R) (n_points : nat) (positive : bool)
  (shifts : list R) (s_f is_f tv_f : arr2 R) (i j : nat) : Prop :=
  (get s_f i j = 0%R /\ get is_f i j = get xs i j
   /\ get tv_f i j = tv_min xs n_points i j
   /\ forall s img, In s shifts -> trial_image xs positive s = Ok img ->
        (tv_min xs n_points i j <= tv_min img n_points i j)%R)
  \/ (exists l1 s l2 img,
        shifts = l1 ++ s :: l2
        /\ trial_image xs positive s = Ok img
        /\ get s_f i j = s /\ get is_f i j = get img i j
        /\ get tv_f i j = tv_min img n_points i j
        /\ (tv_min img n_points i j < tv_min xs n_points i j)%R
        /\ (forall s' img', In s' l1 ->
              trial_image xs positive s' = Ok img' ->
              (tv_min img n_points i j < tv_min img' n_points i j)%R)
        /\ (forall s' img', In s' l2 ->
              trial_image xs positive s' = Ok img' ->
              (tv_min img n_points i j <= tv_min img' n_points i j)%R)).

(** The state of the search after the shifts [shifts], on an image of
    shape (M, N). *)
Definition search_kept (M N n_points : nat) (xs : arr2 R)
  (shifts : list R) (st : search) : Prop :=
  search_shape M N st /\ search_wf st
  /\ forall i j, i < M -> j < N ->
       kept_best xs n_points true shifts (sp st) (isp st) (tvp st) i j
       /\ kept_best xs n_points false shifts (sn st) (isn st) (tvn st) i j.


(** [f 0 + ... + f (n-1)] over the reals: the two components of [csum]. *)
Fixpoint rsum (f : nat -> R) (n : nat) : R :=
  match n with
  | O => 0%R
  | S k => (rsum f k + f k)%R
  end.

(** [v[:, :, z, g]] of a rank-4 view, as the image it shows. *)
Definition read_plane (st : store) (v : ndarray) (z g : nat) : arr2 R :=
  tab (dim v 0) (dim v 1) (fun i j =>
    nth (offset v + i * stride v 0 + j * stride v 1
         + z * stride v 2 + g * stride v 3)
        (buffer st (base v)) 0%R).

(** Further sample inputs: a 4 x 4 ramp, and arrays that own buffer 0. *)
Definition ramp_4x4 : arr2 R := tab 4 4 (fun i j => INR (i + j)).
Definition vol_4x6 : ndarray := c_contiguous 0 [4; 6].
Definition vol_4x4x0 : ndarray := c_contiguous 0 [4; 4; 0].
Definition vol_3x3x2 : ndarray := c_contiguous 0 [3; 3; 2].
Definition vol_4x4x2x2 : ndarray := c_contiguous 0 [4; 4; 2; 2].

(** * Properties *)

(** ** The result monad and loops *)

Lemma foldM_app {A S : Type} (body : S -> A -> result S) (l1 l2 : list A)
  (s : S) :
  foldM body (l1 ++ l2) s = (s' <- foldM body l1 s ;; foldM body l2 s').
Proof.
  revert s; induction l1 as [|a l1 IH]; intros s; simpl; [reflexivity|].
  destruct (body s a) as [s'|e]; simpl; [apply IH|reflexivity].
Qed.

Lemma bind_Ok_r {A : Type} (c : result A) : (a <- c ;; Ok a) = c.
Proof. destruct c; reflexivity. Qed.

(** An invariant of the body that holds initially holds at the end. *)
Lemma foldM_invariant {A S : Type} (P : S -> Prop) (Q : A -> Prop)
  (body : S -> A -> result S) :
  (forall s a s', P s -> Q a -> body s a = Ok s' -> P s') ->
  forall l s s', Forall Q l -> P s -> foldM body l s = Ok s' -> P s'.
Proof.
  intros Hstep l; induction l as [|a l IH]; intros s s' HQ HP Hrun; simpl in Hrun.
  - injection Hrun as <-; exact HP.
  - inversion HQ as [|? ? Ha Hl]; subst.
    destruct (body s a) as [s1|e] eqn:E; simpl in Hrun; [|discriminate].
    apply (IH s1 s' Hl); [eapply Hstep; eauto | exact Hrun].
Qed.

(** A body that succeeds under the invariant makes the loop succeed. *)
Lemma foldM_total {A S : Type} (P : S -> Prop) (Q : A -> Prop)
  (body : S -> A -> result S) :
  (forall s a, P s -> Q a -> exists s', body s a = Ok s' /\ P s') ->
  forall l s, Forall Q l -> P s -> exists s', foldM body l s = Ok s' /\ P s'.
Proof.
  intros Hstep l; induction l as [|a l IH]; intros s HQ HP; simpl.
  - exists s; split; [reflexivity|exact HP].
  - inversion HQ as [|? ? Ha Hl]; subst.
    destruct (Hstep s a HP Ha) as (s1 & E & HP1).
    rewrite E; simpl. apply IH; assumption.
Qed.

(** ** Tabulated arrays *)

Lemma nth_map_seq {A} (g : nat -> A) (n p : nat) (d : A) :
  p < n -> nth p (map g (seq 0 n)) d = g p.
Proof.
  intros Hp.
  rewrite (nth_indep _ d (g 0)) by (rewrite length_map, length_seq; exact Hp).
  rewrite (map_nth g (seq 0 n) 0 p), seq_nth by exact Hp.
  reflexivity.
Qed.

Lemma flat_index_lt (M N i j : nat) : i < M -> j < N -> i * N + j < M * N.
Proof. intros Hi Hj. nia. Qed.

Lemma flat_index_div (N i j : nat) : j < N -> (i * N + j) / N = i.
Proof.
  intros Hj. rewrite Nat.add_comm, Nat.div_add by lia.
  rewrite Nat.div_small by exact Hj. reflexivity.
Qed.

Lemma flat_index_mod (N i j : nat) : j < N -> (i * N + j) mod N = j.
Proof.
  intros Hj. rewrite Nat.add_comm, Nat.Div0.mod_add.
  apply Nat.mod_small; exact Hj.
Qed.

Lemma flat_div_lt (M N p : nat) : p < M * N -> p / N < M.
Proof.
  intros Hp. destruct N as [|N]; [lia|].
  apply Nat.Div0.div_lt_upper_bound. lia.
Qed.

Lemma flat_mod_lt (M N p : nat) : p < M * N -> p mod N < N.
Proof.
  intros Hp. destruct N as [|N]; [lia|].
  apply Nat.mod_upper_bound. lia.
Qed.

Lemma nrow_tab {A} M N (f : nat -> nat -> A) : nrow (tab M N f) = M.
Proof. reflexivity. Qed.

Lemma ncol_tab {A} M N (f : nat -> nat -> A) : ncol (tab M N f) = N.
Proof. reflexivity. Qed.

Lemma wf_tab {A} M N (f : nat -> nat -> A) : wf (tab M N f).
Proof. unfold wf, tab; simpl. rewrite length_map, length_seq. reflexivity. Qed.

Lemma get_tab {A} `{Dflt A} M N (f : nat -> nat -> A) i j :
  i < M -> j < N -> get (tab M N f) i j = f i j.
Proof.
  intros Hi Hj. unfold get, tab; simpl.
  rewrite nth_map_seq by (apply flat_index_lt; assumption).
  rewrite flat_index_div, flat_index_mod by exact Hj. reflexivity.
Qed.

Lemma tab_ext {A} M N (f g : nat -> nat -> A) :
  (forall i j, i < M -> j < N -> f i j = g i j) -> tab M N f = tab M N g.
Proof.
  intros Hfg. unfold tab. f_equal.
  apply map_ext_in. intros p Hp. apply in_seq in Hp.
  apply Hfg; [apply flat_div_lt | apply flat_mod_lt with (M := M)]; lia.
Qed.

Lemma tab_get {A} `{Dflt A} (m : arr2 A) :
  wf m -> tab (nrow m) (ncol m) (get m) = m.
Proof.
  destruct m as [M N d]; unfold wf, tab, get; simpl. intros Hwf. f_equal.
  apply (nth_ext _ _ dflt dflt).
  - rewrite length_map, length_seq. symmetry; exact Hwf.
  - intros p Hp. rewrite length_map, length_seq in Hp.
    rewrite nth_map_seq by exact Hp.
    f_equal. destruct N as [|N]; [lia|].
    rewrite (Nat.div_mod_eq p (S N)) at 3. lia.
Qed.


Lemma entries_tab {A} (P : A -> Prop) M N (f : nat -> nat -> A) :
  (forall i j, i < M -> j < N -> P (f i j)) -> entries P (tab M N f).
Proof.
  intros Hf. unfold entries, tab; simpl.
  apply Forall_forall. intros x Hx. apply in_map_iff in Hx.
  destruct Hx as (p & <- & Hp). apply in_seq in Hp.
  apply Hf; [apply flat_div_lt | apply flat_mod_lt with (M := M)]; lia.
Qed.

Lemma entries_get {A} `{Dflt A} (P : A -> Prop) (m : arr2 A) i j :
  wf m -> entries P m -> i < nrow m -> j < ncol m -> P (get m i j).
Proof.
  intros Hwf HP Hi Hj. unfold get.
  eapply Forall_forall; [exact HP|].
  apply nth_In. rewrite Hwf. apply flat_index_lt; assumption.
Qed.


Lemma transpose_get {A} `{Dflt A} (m : arr2 A) i j :
  i < ncol m -> j < nrow m -> get (transpose m) i j = get m j i.
Proof.
  intros Hi Hj. unfold transpose. rewrite get_tab by assumption. reflexivity.
Qed.

Lemma transpose_involutive {A} `{Dflt A} (m : arr2 A) :
  wf m -> transpose (transpose m) = m.
Proof.
  intros Hwf.
  change (transpose (transpose m))
    with (tab (nrow m) (ncol m) (fun i j => get (transpose m) j i)).
  transitivity (tab (nrow m) (ncol m) (get m)).
  - apply tab_ext. intros i j Hi Hj. apply transpose_get; assumption.
  - apply tab_get; assumption.
Qed.

(** ** Elementwise operations on arrays of one shape *)

Lemma bdim_same n : bdim n n = Some n.
Proof. unfold bdim. rewrite Nat.eqb_refl. reflexivity. Qed.

Lemma bix_lt dim i : i < dim -> bix dim i = i.
Proof.
  unfold bix. intros Hi. destruct (Nat.eqb_spec dim 1); [lia|reflexivity].
Qed.

Lemma zip2_same {A B D} `{Dflt A} `{Dflt B} (f : A -> B -> D)
  (a : arr2 A) (b : arr2 B) :
  nrow a = nrow b -> ncol a = ncol b ->
  zip2 f a b = Ok (tab (nrow a) (ncol a) (fun i j => f (get a i j) (get b i j))).
Proof.
  intros Hr Hc. unfold zip2. rewrite <- Hr, <- Hc, !bdim_same.
  f_equal. apply tab_ext. intros i j Hi Hj.
  rewrite !bix_lt by assumption. reflexivity.
Qed.

Lemma zip2_tab {A B D} `{Dflt A} `{Dflt B} (f : A -> B -> D) M N
  (g : nat -> nat -> A) (h : nat -> nat -> B) :
  zip2 f (tab M N g) (tab M N h) = Ok (tab M N (fun i j => f (g i j) (h i j))).
Proof.
  rewrite zip2_same by reflexivity. rewrite nrow_tab, ncol_tab.
  f_equal. apply tab_ext. intros i j Hi Hj.
  rewrite !get_tab by assumption. reflexivity.
Qed.

Lemma map2d_tab {A B} `{Dflt A} (f : A -> B) M N (g : nat -> nat -> A) :
  map2d f (tab M N g) = tab M N (fun i j => f (g i j)).
Proof.
  unfold map2d. rewrite nrow_tab, ncol_tab.
  apply tab_ext. intros i j Hi Hj. rewrite get_tab by assumption. reflexivity.
Qed.

(** ** Slices *)

Lemma slice_from_end (len : nat) (a : Z) :
  (a < 0)%Z -> (0 <= a + Z.of_nat len)%Z ->
  slice len (Some a) None = (Z.to_nat (a + Z.of_nat len), Z.to_nat (- a)).
Proof.
  intros Ha Hl. unfold slice, slice_bound.
  destruct (Z.ltb_spec a 0); [|lia]. f_equal; lia.
Qed.

Lemma slice_prefix (len : nat) (b : Z) :
  (0 <= b <= Z.of_nat len)%Z -> slice len (Some 0%Z) (Some b) = (0, Z.to_nat b).
Proof.
  intros Hb. unfold slice, slice_bound.
  destruct (Z.ltb_spec b 0); [lia|]. simpl. f_equal; lia.
Qed.

Lemma slice_window (len : nat) (a b : Z) :
  (0 <= a)%Z -> (b < 0)%Z -> (a <= Z.of_nat len + b)%Z ->
  slice len (Some a) (Some b) = (Z.to_nat a, Z.to_nat (Z.of_nat len + b - a)).
Proof.
  intros Ha Hb Hab. unfold slice, slice_bound.
  destruct (Z.ltb_spec a 0); [lia|].
  destruct (Z.ltb_spec b 0); [|lia]. f_equal; lia.
Qed.

(** ** Periodic reads *)

Lemma wrap_shift (N : nat) (z k : Z) :
  (0 <= z + k * Z.of_nat N < Z.of_nat N)%Z ->
  Z.to_nat (z mod Z.of_nat N) = Z.to_nat (z + k * Z.of_nat N).
Proof.
  intros Hz. rewrite <- (Z_mod_plus_full z k (Z.of_nat N)).
  rewrite Z.mod_small by exact Hz. reflexivity.
Qed.

Lemma wrap_lt (N : nat) (z : Z) : 0 < N -> Z.to_nat (z mod Z.of_nat N) < N.
Proof.
  intros HN. pose proof (Z.mod_pos_bound z (Z.of_nat N)). lia.
Qed.

Lemma absolute_tab M N (g : nat -> nat -> R) :
  absolute (tab M N g) = tab M N (fun i j => Rabs (g i j)).
Proof. apply map2d_tab. Qed.

Lemma abs_diff_pget (x : arr2 R) (i : nat) (z1 z2 z1' z2' : Z) :
  z1 = z1' -> z2 = z2' ->
  Rabs (pget x i z1 - pget x i z2) = Rabs (pget x i z1' - pget x i z2').
Proof. intros -> ->. reflexivity. Qed.

(** ** [_image_tv]: the periodic extension and its windows *)

Section ImageTV.
Variable x : arr2 R.
Variable n_points : nat.
Hypothesis Hwide : n_points + 1 <= ncol x.
Local Notation "'np'" := (Z.of_nat n_points).

Lemma concatenate_extended :
  concatenate1 (cols x (Some (- np - 1)%Z) None) x
               (cols x (Some 0%Z) (Some (np + 1)%Z)) = Ok (extended x n_points).
Proof.
  unfold cols.
  rewrite slice_from_end by lia.
  rewrite slice_prefix by lia.
  unfold concatenate1. rewrite !nrow_tab, !ncol_tab.
  rewrite !Nat.eqb_refl. simpl andb. cbv iota. f_equal.
  unfold extended.
  replace (Z.to_nat (- (- np - 1)) + ncol x + Z.to_nat (np + 1))
    with (ncol x + 2 * n_points + 2) by lia.
  apply tab_ext. intros i q Hi Hq. unfold pget.
  destruct (Nat.ltb_spec q (Z.to_nat (- (- np - 1)))) as [H1|H1].
  - rewrite get_tab by lia.
    f_equal. rewrite (wrap_shift (ncol x) _ 1) by lia. lia.
  - destruct (Nat.ltb_spec q (Z.to_nat (- (- np - 1)) + ncol x)) as [H2|H2].
    + f_equal. rewrite (wrap_shift (ncol x) _ 0) by lia. lia.
    + rewrite get_tab by lia.
      f_equal. rewrite (wrap_shift (ncol x) _ (-1)) by lia. lia.
Qed.

(** Every slice the function takes of the extension is a window as wide
    as the row that starts [a] columns in. *)
Lemma extended_window (a b : Z) :
  (0 <= a <= 2 * np + 1)%Z -> (b = a - 2 * np - 2)%Z ->
  cols (extended x n_points) (Some a) (Some b)
  = tab (nrow x) (ncol x) (fun i j => pget x i (Z.of_nat j + a - np - 1)).
Proof.
  intros Ha ->. unfold cols, extended. rewrite nrow_tab, ncol_tab.
  rewrite slice_window by lia.
  replace (Z.to_nat (Z.of_nat (ncol x + 2 * n_points + 2) + (a - 2 * np - 2) - a))
    with (ncol x) by lia.
  apply tab_ext. intros i j Hi Hj.
  rewrite get_tab by lia.
  f_equal. lia.
Qed.

(** The difference of two windows of the extension. *)
Lemma window_difference (a1 b1 a2 b2 : Z) :
  (0 <= a1 <= 2 * np + 1)%Z -> (b1 = a1 - 2 * np - 2)%Z ->
  (0 <= a2 <= 2 * np + 1)%Z -> (b2 = a2 - 2 * np - 2)%Z ->
  rsub (cols (extended x n_points) (Some a1) (Some b1))
       (cols (extended x n_points) (Some a2) (Some b2))
  = Ok (tab (nrow x) (ncol x)
          (fun i j => (pget x i (Z.of_nat j + a1 - np - 1)
                       - pget x i (Z.of_nat j + a2 - np - 1))%R)).
Proof.
  intros Ha1 Hb1 Ha2 Hb2.
  rewrite (extended_window Ha1 Hb1), (extended_window Ha2 Hb2).
  unfold rsub. apply zip2_tab.
Qed.

(** Lines 48-52: one pass of the loop adds the next term to both scores. *)
Lemma image_tv_body (k : nat) :
  S k <= n_points - 1 ->
  (let n := Z.of_nat (S k) in
   d <- rsub (cols (extended x n_points) (Some (np + 1 + n)%Z) (Some (- np - 1 + n)%Z))
             (cols (extended x n_points) (Some (np + 2 + n)%Z) (Some (- np + n)%Z)) ;;
   ptv <- radd (tab (nrow x) (ncol x) (fun i j => tv_sum (fwd_term x i j) k)) (absolute d) ;;
   d <- rsub (cols (extended x n_points) (Some (np + 1 - n)%Z) (Some (- np - 1 - n)%Z))
             (cols (extended x n_points) (Some (np - n)%Z) (Some (- np - 2 - n)%Z)) ;;
   ntv <- radd (tab (nrow x) (ncol x) (fun i j => tv_sum (bwd_term x i j) k)) (absolute d) ;;
   Ok (ptv, ntv))
  = Ok (tab (nrow x) (ncol x) (fun i j => tv_sum (fwd_term x i j) (S k)),
        tab (nrow x) (ncol x) (fun i j => tv_sum (bwd_term x i j) (S k))).
Proof.
  intros Hk. cbv zeta.
  rewrite !window_difference by lia. cbn [bind].
  unfold absolute, radd. rewrite !map2d_tab, !zip2_tab. cbn [bind].
  f_equal. f_equal.
  - apply tab_ext. intros i j _ _. cbn [tv_sum]. unfold fwd_term.
    f_equal. apply abs_diff_pget; lia.
  - apply tab_ext. intros i j _ _. cbn [tv_sum]. unfold bwd_term.
    f_equal. apply abs_diff_pget; lia.
Qed.

Lemma image_tv_loop (k : nat) :
  k <= n_points - 1 ->
  foldM (fun '(ptv, ntv) k =>
           let n := Z.of_nat k in
           d <- rsub (cols (extended x n_points) (Some (np + 1 + n)%Z) (Some (- np - 1 + n)%Z))
                     (cols (extended x n_points) (Some (np + 2 + n)%Z) (Some (- np + n)%Z)) ;;
           ptv <- radd ptv (absolute d) ;;
           d <- rsub (cols (extended x n_points) (Some (np + 1 - n)%Z) (Some (- np - 1 - n)%Z))
                     (cols (extended x n_points) (Some (np - n)%Z) (Some (- np - 2 - n)%Z)) ;;
           ntv <- radd ntv (absolute d) ;;
           Ok (ptv, ntv))
        (seq 1 k)
        (tab (nrow x) (ncol x) (fun i j => tv_sum (fwd_term x i j) 0),
         tab (nrow x) (ncol x) (fun i j => tv_sum (bwd_term x i j) 0))
  = Ok (tab (nrow x) (ncol x) (fun i j => tv_sum (fwd_term x i j) k),
        tab (nrow x) (ncol x) (fun i j => tv_sum (bwd_term x i j) k)).
Proof.
  induction k as [|k IH]; intros Hk; [reflexivity|].
  rewrite seq_S, foldM_app, IH by lia.
  cbn [bind foldM]. rewrite bind_Ok_r.
  exact (image_tv_body Hk).
Qed.

(** With at least [n_points + 1] samples per row, [_image_tv] along
    axis 1 returns the two windowed, periodic scores. *)
Lemma image_tv_axis1 (axis : nat) :
  axis <> 0 -> 1 <= n_points ->
  _image_tv x axis n_points
  = Ok (tab (nrow x) (ncol x) (ptv_at x n_points),
        tab (nrow x) (ncol x) (ntv_at x n_points)).
Proof.
  intros Hax Hnp. unfold _image_tv.
  destruct (Nat.eqb_spec axis 0) as [|_]; [contradiction|].
  unfold copy. rewrite concatenate_extended. cbn [bind].
  rewrite !window_difference by lia. cbn [bind]. cbv zeta.
  rewrite !absolute_tab.
  replace (tab (nrow x) (ncol x)
             (fun i j => Rabs (pget x i (Z.of_nat j + (np + 1) - np - 1)
                               - pget x i (Z.of_nat j + (np + 2) - np - 1))))
    with (tab (nrow x) (ncol x) (fun i j => tv_sum (fwd_term x i j) 0)).
  2:{ apply tab_ext. intros i j _ _. cbn [tv_sum]. unfold fwd_term.
      apply abs_diff_pget; lia. }
  replace (tab (nrow x) (ncol x)
             (fun i j => Rabs (pget x i (Z.of_nat j + (np + 1) - np - 1)
                               - pget x i (Z.of_nat j + np - np - 1))))
    with (tab (nrow x) (ncol x) (fun i j => tv_sum (bwd_term x i j) 0)).
  2:{ apply tab_ext. intros i j _ _. cbn [tv_sum]. unfold bwd_term.
      apply abs_diff_pget; lia. }
  rewrite image_tv_loop by lia. reflexivity.
Qed.
End ImageTV.

(** ** Boolean masks *)

Lemma length_take_mask {A} (l : list A) (m : list bool) :
  length m <= length l -> length (take_mask l m) = count_true m.
Proof.
  revert m; induction l as [|x l IH]; intros [|b m] Hlen; simpl in *;
    try reflexivity; try lia.
  destruct b; unfold count_true in *; simpl; rewrite IH by lia; reflexivity.
Qed.

Lemma length_put_mask {A} (l : list A) (m : list bool) (v : list A) :
  length (put_mask l m v) = length l.
Proof.
  revert m v; induction l as [|x l IH]; intros [|b m] v; simpl; try reflexivity.
  destruct b; [destruct v|]; simpl; rewrite IH; reflexivity.
Qed.

Lemma take_mask_none {A} (l : list A) (m : list bool) :
  Forall (fun b => b = false) m -> take_mask l m = [].
Proof.
  intros Hm; revert l; induction Hm as [|b m Hb Hm IH]; intros [|x l];
    simpl; try reflexivity.
  subst b. apply IH.
Qed.

Lemma put_mask_none {A} (l : list A) (m : list bool) (v : list A) :
  Forall (fun b => b = false) m -> put_mask l m v = l.
Proof.
  intros Hm; revert l; induction Hm as [|b m Hb Hm IH]; intros [|x l];
    simpl; try reflexivity.
  subst b. rewrite IH. reflexivity.
Qed.

Lemma count_true_none (m : list bool) :
  Forall (fun b => b = false) m -> count_true m = 0.
Proof.
  unfold count_true. induction 1 as [|b m Hb Hm IH]; simpl; [reflexivity|].
  subst b. exact IH.
Qed.

Lemma fill_none {A} (l : list A) (m : list bool) (s : A) :
  Forall (fun b => b = false) m -> fill_mask l m s = l.
Proof.
  intros Hm; revert l; induction Hm as [|b m Hb Hm IH]; intros [|x l];
    simpl; try reflexivity.
  subst b. rewrite IH. reflexivity.
Qed.


Lemma bool_index_ok_same {A} (a : arr2 A) (mask : arr2 bool) :
  nrow a = nrow mask -> ncol a = ncol mask -> bool_index_ok a mask = true.
Proof.
  intros Hr Hc. unfold bool_index_ok.
  rewrite Hr, Hc, !Nat.eqb_refl, !orb_true_r. reflexivity.
Qed.

(** ** The pieces of the shift search succeed on arrays of one shape *)

Lemma gt_same (a b : arr2 R) M N :
  has_shape M N a -> has_shape M N b ->
  gt a b = Ok (tab M N (fun i j => Rgtb (get a i j) (get b i j))).
Proof.
  intros [Ha1 Ha2] [Hb1 Hb2]. unfold gt.
  rewrite zip2_same by congruence. rewrite Ha1, Ha2. reflexivity.
Qed.

Lemma assign_where_gt_ok (dst a b src : arr2 R) M N :
  has_shape M N dst -> has_shape M N a -> has_shape M N b ->
  has_shape M N src -> wf src ->
  exists r, assign_where_gt dst a b src = Ok r /\ has_shape M N r.
Proof.
  intros [Hd1 Hd2] Ha Hb [Hs1 Hs2] Hwf. unfold assign_where_gt.
  rewrite (gt_same Ha Hb). cbn [bind].
  unfold getmask. rewrite bool_index_ok_same by (rewrite ?nrow_tab, ?ncol_tab; assumption).
  cbn [bind]. unfold setmask.
  rewrite bool_index_ok_same by (rewrite ?nrow_tab, ?ncol_tab; assumption).
  rewrite length_take_mask.
  - rewrite Nat.eqb_refl. eexists; split; [reflexivity|].
    split; simpl; assumption.
  - rewrite Hwf, Hs1, Hs2. pose proof (wf_tab M N (fun i j => Rgtb (get a i j) (get b i j))) as Hw.
    unfold wf in Hw. rewrite Hw, nrow_tab, ncol_tab. lia.
Qed.

Lemma fill_where_gt_ok (dst a b : arr2 R) (s : R) M N :
  has_shape M N dst -> has_shape M N a -> has_shape M N b ->
  exists r, fill_where_gt dst a b s = Ok r /\ has_shape M N r.
Proof.
  intros [Hd1 Hd2] Ha Hb. unfold fill_where_gt.
  rewrite (gt_same Ha Hb). cbn [bind]. unfold fillmask.
  rewrite bool_index_ok_same by (rewrite ?nrow_tab, ?ncol_tab; assumption).
  eexists; split; [reflexivity|]. split; simpl; assumption.
Qed.


Lemma length_linspace (a b : R) (num : nat) : length (linspace a b num) = num.
Proof. unfold linspace. rewrite length_map, length_seq. reflexivity. Qed.

Lemma length_phase_ramp (N : nat) : length (phase_ramp N) = N.
Proof. unfold phase_ramp. rewrite length_map. apply length_linspace. Qed.

Lemma nonzero_dim_eqb (M N : nat) :
  1 <= M -> 1 <= N -> (M =? 0) || (N =? 0) = false.
Proof.
  intros HM HN.
  destruct (Nat.eqb_spec M 0); [lia|]. destruct (Nat.eqb_spec N 0); [lia|].
  reflexivity.
Qed.

Lemma fft2_ok (x : arr2 R) M N :
  has_shape M N x -> 1 <= M -> 1 <= N ->
  exists g, fft2 x = Ok (tab M N g).
Proof.
  intros [H1 H2] HM HN. unfold fft2. rewrite H1, H2.
  rewrite nonzero_dim_eqb by assumption. eexists; reflexivity.
Qed.

Lemma ifft2_ok (X : arr2 C) M N :
  has_shape M N X -> 1 <= M -> 1 <= N ->
  exists g, ifft2 X = Ok (tab M N g).
Proof.
  intros [H1 H2] HM HN. unfold ifft2. rewrite H1, H2.
  rewrite nonzero_dim_eqb by assumption. eexists; reflexivity.
Qed.

Lemma has_shape_tab {A} M N (f : nat -> nat -> A) : has_shape M N (tab M N f).
Proof. split; reflexivity. Qed.

Lemma has_shape_fftshift {A} `{Dflt A} (a : arr2 A) M N :
  has_shape M N a -> has_shape M N (fftshift a).
Proof. intros [H1 H2]. unfold fftshift. split; simpl; assumption. Qed.

Lemma shifted_image_ok (c : arr2 C) (e : list C) M N :
  has_shape M N c -> length e = N -> 1 <= M -> 1 <= N ->
  exists g, shifted_image c e = Ok (tab M N g).
Proof.
  intros [H1 H2] He HM HN. unfold shifted_image, mul_row.
  rewrite H2, He, bdim_same. cbn [bind].
  destruct (@ifft2_ok (fftshift (tab (nrow c) N (fun i j =>
              cmul (get c i (bix N j)) (nth (bix N j) e dflt)))) M N) as [g Hg];
    try assumption.
  { apply has_shape_fftshift. rewrite H1. apply has_shape_tab. }
  rewrite Hg. cbn [bind]. rewrite map2d_tab. eexists; reflexivity.
Qed.

(** The score a candidate image is judged by: [np.minimum(tvsr, tvsl)]. *)
Lemma candidate_tv (img : arr2 R) (n_points : nat) :
  1 <= n_points -> n_points + 1 <= ncol img ->
  ('(tvsr, tvsl) <- _image_tv img 1 n_points ;; minimum tvsr tvsl)
  = Ok (tab (nrow img) (ncol img)
          (fun i j => Rmin (ptv_at img n_points i j) (ntv_at img n_points i j))).
Proof.
  intros Hnp Hw. rewrite image_tv_axis1 by (assumption || discriminate).
  cbn [bind]. unfold minimum. apply zip2_tab.
Qed.

Section SearchShape.
Variables M N n_points : nat.
Hypothesis HM : 1 <= M.
Hypothesis Hnp : 1 <= n_points.
Hypothesis HN : n_points + 1 <= N.

Lemma search_step_ok (c : arr2 C) (st : search) (s : R) :
  has_shape M N c -> search_shape M N st ->
  exists st', search_step c (phase_ramp N) n_points st s = Ok st'
              /\ search_shape M N st'.
Proof.
  intros Hc (Hisp & Hisn & Hsp & Hsn & Htvp & Htvn). unfold search_step.
  destruct (@shifted_image_ok c (map (fun z => cexp (cscale z s)) (phase_ramp N)) M N)
    as [gp Hgp]; try assumption; try lia.
  { rewrite length_map. apply length_phase_ramp. }
  destruct (@shifted_image_ok c (map (fun z => cexp (cscale (cneg z) s)) (phase_ramp N)) M N)
    as [gn Hgn]; try assumption; try lia.
  { rewrite length_map. apply length_phase_ramp. }
  rewrite Hgp. cbn [bind].
  rewrite image_tv_axis1 by (try discriminate; rewrite ?ncol_tab; lia).
  cbn [bind]. unfold minimum. rewrite zip2_tab. cbn [bind].
  rewrite Hgn. cbn [bind].
  rewrite image_tv_axis1 by (try discriminate; rewrite ?ncol_tab; lia).
  cbn [bind]. rewrite zip2_tab. cbn [bind].
  rewrite !nrow_tab, !ncol_tab.
  set (tvs_p := tab M N (fun i j => Rmin (ptv_at (tab M N gp) n_points i j)
                                         (ntv_at (tab M N gp) n_points i j))).
  set (tvs_n := tab M N (fun i j => Rmin (ptv_at (tab M N gn) n_points i j)
                                         (ntv_at (tab M N gn) n_points i j))).
  assert (Hp : has_shape M N tvs_p) by apply has_shape_tab.
  assert (Hn : has_shape M N tvs_n) by apply has_shape_tab.
  assert (Wp : wf tvs_p) by apply wf_tab.
  assert (Wn : wf tvs_n) by apply wf_tab.
  destruct (@assign_where_gt_ok (isp st) (tvp st) tvs_p (tab M N gp) M N)
    as (isp1 & E1 & H1); auto using has_shape_tab, wf_tab.
  destruct (@fill_where_gt_ok (sp st) (tvp st) tvs_p s M N)
    as (sp1 & E2 & H2); auto using has_shape_tab.
  destruct (@assign_where_gt_ok (tvp st) (tvp st) tvs_p tvs_p M N)
    as (tvp1 & E3 & H3); auto using has_shape_tab, wf_tab.
  destruct (@assign_where_gt_ok (isn st) (tvn st) tvs_n (tab M N gn) M N)
    as (isn1 & E4 & H4); auto using has_shape_tab, wf_tab.
  destruct (@fill_where_gt_ok (sn st) (tvn st) tvs_n s M N)
    as (sn1 & E5 & H5); auto using has_shape_tab.
  destruct (@assign_where_gt_ok (tvn st) (tvn st) tvs_n tvs_n M N)
    as (tvn1 & E6 & H6); auto using has_shape_tab, wf_tab.
  rewrite E1, E2, E3, E4, E5, E6. cbn [bind].
  eexists; split; [reflexivity|].
  repeat split; simpl; first [apply H1|apply H2|apply H3|apply H4|apply H5|apply H6].
Qed.

Lemma search_init_ok (xs : arr2 R) :
  has_shape M N xs ->
  exists c, has_shape M N c /\
    search_init xs n_points
    = Ok (mk_search xs xs (zeros (M, N)) (zeros (M, N))
            (tab M N (fun i j => Rmin (ptv_at xs n_points i j) (ntv_at xs n_points i j)))
            (tab M N (fun i j => Rmin (ptv_at xs n_points i j) (ntv_at xs n_points i j))),
          c).
Proof.
  intros [H1 H2]. unfold search_init.
  rewrite image_tv_axis1 by (try discriminate; lia).
  cbn [bind]. unfold minimum. rewrite zip2_tab. cbn [bind].
  destruct (@fft2_ok xs M N) as [g Hg]; [split; assumption|lia|lia|].
  rewrite Hg. cbn [bind]. unfold copy, shape2. rewrite H1, H2.
  exists (fftshift (tab M N g)). split; [|reflexivity].
  apply has_shape_fftshift, has_shape_tab.
Qed.

Lemma search_init_shape (xs : arr2 R) st c :
  has_shape M N xs -> search_init xs n_points = Ok (st, c) ->
  search_shape M N st /\ has_shape M N c.
Proof.
  intros Hxs Hrun. destruct (search_init_ok Hxs) as (c' & Hc' & E).
  rewrite E in Hrun. injection Hrun as E1 E2. subst st c.
  destruct Hxs as [H1 H2].
  split; [|exact Hc'].
  repeat split; simpl; assumption.
Qed.

(** The search loop runs to its end on any list of shifts. *)
Lemma search_loop_ok (xs : arr2 R) (shifts : list R) :
  has_shape M N xs ->
  exists st, search_loop xs n_points shifts = Ok st /\ search_shape M N st.
Proof.
  intros Hxs. unfold search_loop.
  destruct (search_init_ok Hxs) as (c & Hc & E). rewrite E. cbn [bind].
  destruct Hxs as [Hrow Hcol]. rewrite Hcol.
  apply (@foldM_total R search (search_shape M N) (fun _ => True)).
  - intros st s Hst _. apply search_step_ok; assumption.
  - apply Forall_forall. trivial.
  - repeat split; simpl; try reflexivity; assumption.
Qed.
End SearchShape.

(** ** The shift fields only hold grid values *)

Ltac bind_inv H :=
  repeat match type of H with
    | bind ?c _ = Ok _ =>
        let E := fresh "E" in
        destruct c eqn:E; cbn [bind] in H; [|discriminate H]
    | match ?p with pair _ _ => _ end = Ok _ => destruct p
    end.

Lemma ssamp_range (s : R) : In s ssamp -> (0.02 <= s <= 0.9)%R.
Proof.
  unfold ssamp, linspace. intros Hs. apply in_map_iff in Hs.
  destruct Hs as (i & <- & Hi). apply in_seq in Hi.
  destruct ((1 <? 45) && (i =? 45 - 1)); [lra|].
  assert (H0 : (0 <= INR i)%R) by apply pos_INR.
  assert (H44 : (INR i <= 44)%R).
  { replace 44%R with (INR 44) by (simpl; lra). apply le_INR. lia. }
  replace (INR (45 - 1)) with 44%R by (simpl; lra).
  lra.
Qed.






(** ** The interpolation step (lines 130-135) *)

Lemma vzip_map {A B D E} `{Dflt B} `{Dflt D} (f : B -> D -> E)
  (g : A -> B) (h : A -> D) (l : list A) :
  vzip f (map g l) (map h l) = Ok (map (fun p => f (g p) (h p)) l).
Proof.
  unfold vzip. rewrite !length_map, bdim_same. f_equal.
  destruct l as [|p0 l0] eqn:El; [reflexivity|]. rewrite <- El.
  apply (nth_ext _ _ (f (g p0) (h p0)) (f (g p0) (h p0))).
  - rewrite !length_map, length_seq. reflexivity.
  - intros i Hi. rewrite length_map, length_seq in Hi.
    rewrite nth_map_seq by exact Hi.
    rewrite !bix_lt by exact Hi.
    rewrite (nth_indep (map g l) dflt (g p0)) by (rewrite length_map; exact Hi).
    rewrite (nth_indep (map h l) dflt (h p0)) by (rewrite length_map; exact Hi).
    rewrite (map_nth g l p0 i), (map_nth h l p0 i).
    rewrite (map_nth (fun p => f (g p) (h p)) l p0 i). reflexivity.
Qed.

Lemma nonzero_in_bounds (a : arr2 R) :
  Forall (fun p => fst p < nrow a /\ snd p < ncol a) (nonzero a).
Proof.
  unfold nonzero. apply Forall_forall. intros p Hp.
  apply filter_In in Hp. destruct Hp as [Hp _].
  apply in_map_iff in Hp. destruct Hp as (q & <- & Hq). apply in_seq in Hq.
  simpl. split; [apply flat_div_lt | apply flat_mod_lt with (M := nrow a)]; lia.
Qed.

Lemma nonzero_spec (a : arr2 R) (i j : nat) :
  In (i, j) (nonzero a) -> get a i j <> 0%R.
Proof.
  unfold nonzero. intros Hp. apply filter_In in Hp. destruct Hp as [_ Hnz].
  simpl in Hnz. unfold Rnonzero in Hnz.
  destruct (Req_dec_T (get a i j) 0); [discriminate|assumption].
Qed.

Lemma nonzero_complete (a : arr2 R) (i j : nat) :
  i < nrow a -> j < ncol a -> get a i j <> 0%R -> In (i, j) (nonzero a).
Proof.
  intros Hi Hj Hnz. unfold nonzero. apply filter_In. split.
  - apply in_map_iff. exists (i * ncol a + j). split.
    + rewrite flat_index_div, flat_index_mod by exact Hj. reflexivity.
    + apply in_seq. pose proof (flat_index_lt Hi Hj). lia.
  - simpl. unfold Rnonzero.
    destruct (Req_dec_T (get a i j) 0); [contradiction|reflexivity].
Qed.

Lemma gather_ok {A} `{Dflt A} (a : arr2 A) (idx : list (nat * nat)) M N :
  has_shape M N a -> Forall (fun p => fst p < M /\ snd p < N) idx ->
  gather a idx = Ok (map (fun p => get a (fst p) (snd p)) idx).
Proof.
  intros [H1 H2] Hidx. unfold gather.
  replace (forallb _ idx) with true; [reflexivity|].
  symmetry. apply forallb_forall. intros p Hp.
  rewrite Forall_forall in Hidx. destruct (Hidx p Hp) as [Hi Hj].
  rewrite H1, H2.
  destruct (Nat.ltb_spec (fst p) M); [|lia].
  destruct (Nat.ltb_spec (snd p) N); [|lia]. reflexivity.
Qed.

Lemma scatter_ok {A} `{Dflt A} (a : arr2 A) (idx : list (nat * nat))
  (v : list A) M N :
  has_shape M N a -> Forall (fun p => fst p < M /\ snd p < N) idx ->
  length v = length idx ->
  exists r, scatter a idx v = Ok r /\ has_shape M N r.
Proof.
  intros [H1 H2] Hidx Hlen. unfold scatter.
  replace (forallb _ idx) with true.
  - rewrite Hlen, Nat.eqb_refl. eexists; split; [reflexivity|].
    split; simpl; assumption.
  - symmetry. apply forallb_forall. intros p Hp.
    rewrite Forall_forall in Hidx. destruct (Hidx p Hp) as [Hi Hj].
    rewrite H1, H2.
    destruct (Nat.ltb_spec (fst p) M); [|lia].
    destruct (Nat.ltb_spec (snd p) N); [|lia]. reflexivity.
Qed.

Section Interpolate.
Variables M N : nat.
Variable st : search.
Hypothesis Hisp : has_shape M N (isp st).
Hypothesis Hisn : has_shape M N (isn st).
Hypothesis Hsp : has_shape M N (sp st).
Hypothesis Hsn : has_shape M N (sn st).

Lemma interp_idx_eq :
  interp_idx st
  = Ok (nonzero (tab M N (fun i j => (get (sp st) i j + get (sn st) i j)%R))).
Proof.
  destruct Hsp as [Hp1 Hp2]. destruct Hsn as [Hn1 Hn2].
  unfold interp_idx, radd. rewrite zip2_same by congruence.
  rewrite Hp1, Hp2. reflexivity.
Qed.

Lemma interp_denominators_eq (idx : list (nat * nat)) :
  Forall (fun p => fst p < M /\ snd p < N) idx ->
  interp_denominators st idx
  = Ok (map (fun p => (get (sp st) (fst p) (snd p)
                       + get (sn st) (fst p) (snd p))%R) idx).
Proof.
  intros Hidx.
  unfold interp_denominators.
  rewrite (gather_ok Hsp Hidx), (gather_ok Hsn Hidx). cbn [bind].
  apply vzip_map.
Qed.

(** The new value of a pixel selected for interpolation. *)
Lemma interpolate_eq (xs : arr2 R) :
  interpolate xs st
  = (let idx := nonzero (tab M N (fun i j => (get (sp st) i j + get (sn st) i j)%R)) in
     scatter xs idx
       (map (fun p =>
               ((get (isp st) (fst p) (snd p) - get (isn st) (fst p) (snd p))
                / (get (sp st) (fst p) (snd p) + get (sn st) (fst p) (snd p))
                * get (sn st) (fst p) (snd p)
                + get (isn st) (fst p) (snd p))%R) idx)).
Proof.
  unfold interpolate. rewrite interp_idx_eq. cbn [bind]. cbv zeta.
  set (idx := nonzero _).
  assert (Hidx : Forall (fun p => fst p < M /\ snd p < N) idx).
  { pose proof (nonzero_in_bounds (tab M N (fun i j => (get (sp st) i j + get (sn st) i j)%R))) as Hb.
    exact Hb. }
  rewrite (interp_denominators_eq Hidx).
  rewrite (gather_ok Hisp Hidx), (gather_ok Hisn Hidx), (gather_ok Hsn Hidx).
  cbn [bind]. rewrite vzip_map. cbn [bind].
  rewrite vzip_map. cbn [bind]. rewrite vzip_map. cbn [bind].
  rewrite vzip_map. cbn [bind]. reflexivity.
Qed.

Lemma interpolate_ok (xs : arr2 R) :
  has_shape M N xs ->
  exists r, interpolate xs st = Ok r /\ has_shape M N r.
Proof.
  intros Hxs. rewrite interpolate_eq. cbv zeta.
  apply scatter_ok.
  - exact Hxs.
  - exact (nonzero_in_bounds (tab M N (fun i j => (get (sp st) i j + get (sn st) i j)%R))).
  - apply length_map.
Qed.
End Interpolate.

(** ** [_gibbs_removal_1d] returns an array of the shape of its input *)

Lemma has_shape_transpose {A} `{Dflt A} (a : arr2 A) M N :
  has_shape M N a -> has_shape N M (transpose a).
Proof. intros [H1 H2]. unfold transpose. split; simpl; assumption. Qed.

Lemma gibbs_removal_1d_axis1_ok (x : arr2 R) (axis n_points : nat) M N :
  axis <> 0 -> has_shape M N x ->
  1 <= n_points -> 1 <= M -> n_points + 1 <= N ->
  exists r, _gibbs_removal_1d x axis n_points = Ok r /\ has_shape M N r.
Proof.
  intros Hax Hx Hnp HM HN. unfold _gibbs_removal_1d.
  destruct (Nat.eqb_spec axis 0) as [|_]; [contradiction|]. unfold copy.
  destruct (@search_loop_ok M N n_points HM Hnp HN x ssamp Hx) as (st & E & Hst).
  rewrite E. cbn [bind].
  destruct Hst as (Hisp & Hisn & Hsp & Hsn & _).
  destruct (@interpolate_ok M N st Hisp Hisn Hsp Hsn x Hx) as (r & Er & Hr).
  rewrite Er. cbn [bind]. exists r. split; [reflexivity|exact Hr].
Qed.

Lemma gibbs_removal_1d_axis0_ok (x : arr2 R) (n_points : nat) M N :
  has_shape M N x ->
  1 <= n_points -> 1 <= N -> n_points + 1 <= M ->
  exists r, _gibbs_removal_1d x 0 n_points = Ok r /\ has_shape M N r.
Proof.
  intros Hx Hnp HN HM. unfold _gibbs_removal_1d.
  cbn [Nat.eqb]. unfold copy.
  pose proof (has_shape_transpose Hx) as Hxt.
  destruct (@search_loop_ok N M n_points HN Hnp HM (transpose x) ssamp Hxt)
    as (st & E & Hst).
  rewrite E. cbn [bind].
  destruct Hst as (Hisp & Hisn & Hsp & Hsn & _).
  destruct (@interpolate_ok N M st Hisp Hisn Hsp Hsn (transpose x) Hxt)
    as (r & Er & Hr).
  rewrite Er. cbn [bind]. exists (transpose r).
  split; [reflexivity|apply has_shape_transpose; exact Hr].
Qed.

(** ** Total variation is never negative, and vanishes on constants *)

Lemma tv_sum_nonneg (t : nat -> R) (k : nat) :
  (forall n, 0 <= t n)%R -> (0 <= tv_sum t k)%R.
Proof.
  intros Ht. induction k as [|k IH]; simpl; [apply Ht|].
  pose proof (Ht (S k)). lra.
Qed.

Lemma tv_sum_zero (t : nat -> R) (k : nat) :
  (forall n, t n = 0%R) -> tv_sum t k = 0%R.
Proof.
  intros Ht. induction k as [|k IH]; simpl; [apply Ht|].
  rewrite IH, Ht. lra.
Qed.

Lemma ptv_at_nonneg x n_points i j : (0 <= ptv_at x n_points i j)%R.
Proof. apply tv_sum_nonneg. intros n. apply Rabs_pos. Qed.

Lemma ntv_at_nonneg x n_points i j : (0 <= ntv_at x n_points i j)%R.
Proof. apply tv_sum_nonneg. intros n. apply Rabs_pos. Qed.

Lemma pget_constant M N c i z :
  i < M -> 0 < N -> pget (constant M N c) i z = c.
Proof.
  intros Hi HN. unfold pget, constant. rewrite ncol_tab.
  rewrite get_tab; [reflexivity|exact Hi|apply wrap_lt; exact HN].
Qed.

Lemma ptv_at_constant M N c n_points i j :
  i < M -> 0 < N -> ptv_at (constant M N c) n_points i j = 0%R.
Proof.
  intros Hi HN. apply tv_sum_zero. intros n. unfold fwd_term.
  rewrite !pget_constant by assumption.
  rewrite Rminus_diag. apply Rabs_R0.
Qed.

Lemma ntv_at_constant M N c n_points i j :
  i < M -> 0 < N -> ntv_at (constant M N c) n_points i j = 0%R.
Proof.
  intros Hi HN. apply tv_sum_zero. intros n. unfold bwd_term.
  rewrite !pget_constant by assumption.
  rewrite Rminus_diag. apply Rabs_R0.
Qed.

Lemma Rgtb_zero_nonneg (y : R) : (0 <= y)%R -> Rgtb 0 y = false.
Proof.
  intros Hy. unfold Rgtb. destruct (Rlt_dec y 0); [lra|reflexivity].
Qed.

(** ** Masked updates with an empty mask *)

Lemma all_false_tab M N (f : nat -> nat -> bool) :
  (forall i j, i < M -> j < N -> f i j = false) ->
  Forall (fun b => b = false) (dat (tab M N f)).
Proof. intros Hf. apply (entries_tab (fun b => b = false)). exact Hf. Qed.

Lemma assign_where_gt_noop (dst a b src : arr2 R) M N :
  has_shape M N dst -> has_shape M N a -> has_shape M N b ->
  has_shape M N src ->
  (forall i j, i < M -> j < N -> Rgtb (get a i j) (get b i j) = false) ->
  assign_where_gt dst a b src = Ok dst.
Proof.
  intros [Hd1 Hd2] Ha Hb [Hs1 Hs2] Hno. unfold assign_where_gt.
  rewrite (gt_same Ha Hb). cbn [bind].
  pose proof (all_false_tab _ Hno) as Hm.
  unfold getmask. rewrite bool_index_ok_same by (rewrite ?nrow_tab, ?ncol_tab; assumption).
  cbn [bind]. unfold setmask.
  rewrite bool_index_ok_same by (rewrite ?nrow_tab, ?ncol_tab; assumption).
  rewrite take_mask_none, count_true_none by exact Hm.
  cbn [length Nat.eqb]. rewrite put_mask_none by exact Hm.
  destruct dst; reflexivity.
Qed.

Lemma fill_where_gt_noop (dst a b : arr2 R) (s : R) M N :
  has_shape M N dst -> wf dst -> has_shape M N a -> has_shape M N b ->
  (forall i j, i < M -> j < N -> Rgtb (get a i j) (get b i j) = false) ->
  fill_where_gt dst a b s = Ok dst.
Proof.
  intros [Hd1 Hd2] Hwf Ha Hb Hno. unfold fill_where_gt.
  rewrite (gt_same Ha Hb). cbn [bind].
  pose proof (all_false_tab _ Hno) as Hm.
  unfold fillmask.
  rewrite bool_index_ok_same by (rewrite ?nrow_tab, ?ncol_tab; assumption).
  rewrite fill_none by exact Hm. destruct dst; reflexivity.
Qed.

Lemma filter_none {A} (f : A -> bool) (l : list A) :
  (forall x, In x l -> f x = false) -> filter f l = [].
Proof.
  induction l as [|x l IH]; intros Hf; simpl; [reflexivity|].
  rewrite (Hf x) by (left; reflexivity).
  apply IH. intros y Hy. apply Hf. right; exact Hy.
Qed.

Lemma nonzero_of_zero M N (f : nat -> nat -> R) :
  (forall i j, i < M -> j < N -> f i j = 0%R) -> nonzero (tab M N f) = [].
Proof.
  intros Hf. unfold nonzero.
  change (nrow (tab M N f)) with M. change (ncol (tab M N f)) with N.
  apply filter_none. intros p Hp.
  apply in_map_iff in Hp. destruct Hp as (q & <- & Hq). apply in_seq in Hq.
  cbn [fst snd].
  assert (Hi : q / N < M) by (apply flat_div_lt; lia).
  assert (Hj : q mod N < N) by (apply flat_mod_lt with (M := M); lia).
  rewrite get_tab, Hf by assumption.
  unfold Rnonzero. destruct (Req_dec_T 0 0); [reflexivity|contradiction].
Qed.

(** ** A constant image goes through the search untouched *)

Section ConstantImage.
Variables M N n_points : nat.
Variable c : R.
Hypothesis HM : 1 <= M.
Hypothesis Hnp : 1 <= n_points.
Hypothesis HN : n_points + 1 <= N.

Lemma baseline_constant :
  tab M N (fun i j => Rmin (ptv_at (constant M N c) n_points i j)
                           (ntv_at (constant M N c) n_points i j))
  = zeros (M, N).
Proof.
  unfold zeros. cbn [fst snd]. apply tab_ext. intros i j Hi Hj.
  rewrite ptv_at_constant, ntv_at_constant by lia.
  apply Rmin_left. lra.
Qed.

Lemma search_init_constant :
  exists cc, has_shape M N cc /\
    search_init (constant M N c) n_points
    = Ok (mk_search (constant M N c) (constant M N c)
            (zeros (M, N)) (zeros (M, N)) (zeros (M, N)) (zeros (M, N)), cc).
Proof.
  destruct (@search_init_ok M N n_points HM Hnp HN (constant M N c))
    as (cc & Hcc & E); [apply has_shape_tab|].
  exists cc. split; [exact Hcc|]. rewrite E, baseline_constant. reflexivity.
Qed.

Lemma search_step_constant (cc : arr2 C) (s : R) :
  has_shape M N cc ->
  search_step cc (phase_ramp N) n_points
    (mk_search (constant M N c) (constant M N c)
       (zeros (M, N)) (zeros (M, N)) (zeros (M, N)) (zeros (M, N))) s
  = Ok (mk_search (constant M N c) (constant M N c)
          (zeros (M, N)) (zeros (M, N)) (zeros (M, N)) (zeros (M, N))).
Proof.
  intros Hc. unfold search_step.
  destruct (@shifted_image_ok cc (map (fun z => cexp (cscale z s)) (phase_ramp N)) M N)
    as [gp Hgp]; try assumption; try lia.
  { rewrite length_map. apply length_phase_ramp. }
  destruct (@shifted_image_ok cc (map (fun z => cexp (cscale (cneg z) s)) (phase_ramp N)) M N)
    as [gn Hgn]; try assumption; try lia.
  { rewrite length_map. apply length_phase_ramp. }
  rewrite Hgp. cbn [bind].
  rewrite image_tv_axis1 by (try discriminate; rewrite ?ncol_tab; lia).
  cbn [bind]. unfold minimum. rewrite zip2_tab. cbn [bind].
  rewrite Hgn. cbn [bind].
  rewrite image_tv_axis1 by (try discriminate; rewrite ?ncol_tab; lia).
  cbn [bind]. rewrite zip2_tab. cbn [bind].
  rewrite !nrow_tab, !ncol_tab. cbn [isp isn sp sn tvp tvn].
  assert (Hz : has_shape M N (zeros (M, N))) by apply has_shape_tab.
  assert (Hk : has_shape M N (constant M N c)) by apply has_shape_tab.
  assert (Hnone : forall g i j, i < M -> j < N ->
            Rgtb (get (zeros (M, N)) i j)
                 (get (tab M N (fun i j => Rmin (ptv_at (tab M N g) n_points i j)
                                                (ntv_at (tab M N g) n_points i j))) i j)
            = false).
  { intros g i j Hi Hj. unfold zeros. cbn [fst snd].
    rewrite !get_tab by assumption. apply Rgtb_zero_nonneg.
    apply Rmin_glb; [apply ptv_at_nonneg|apply ntv_at_nonneg]. }
  rewrite !(@assign_where_gt_noop _ _ _ _ M N);
    auto using has_shape_tab.
  cbn [bind].
  rewrite !(@fill_where_gt_noop _ _ _ _ M N);
    auto using has_shape_tab, wf_tab.
  - unfold zeros. apply wf_tab.
  - unfold zeros. apply wf_tab.
Qed.

Lemma search_loop_constant (shifts : list R) :
  search_loop (constant M N c) n_points shifts
  = Ok (mk_search (constant M N c) (constant M N c)
          (zeros (M, N)) (zeros (M, N)) (zeros (M, N)) (zeros (M, N))).
Proof.
  unfold search_loop.
  destruct search_init_constant as (cc & Hcc & E). rewrite E. cbn [bind].
  change (ncol (constant M N c)) with N.
  induction shifts as [|s l IH]; [reflexivity|].
  cbn [foldM]. rewrite (search_step_constant s Hcc). cbn [bind]. exact IH.
Qed.

Lemma interpolate_constant :
  interpolate (constant M N c)
    (mk_search (constant M N c) (constant M N c)
       (zeros (M, N)) (zeros (M, N)) (zeros (M, N)) (zeros (M, N)))
  = Ok (constant M N c).
Proof.
  rewrite (@interpolate_eq M N); try apply has_shape_tab.
  cbn [sp sn]. rewrite nonzero_of_zero.
  - reflexivity.
  - intros i j Hi Hj. unfold zeros. cbn [fst snd].
    rewrite !get_tab by assumption. lra.
Qed.

Lemma gibbs_removal_1d_constant_rows (axis : nat) :
  axis <> 0 ->
  _gibbs_removal_1d (constant M N c) axis n_points = Ok (constant M N c).
Proof.
  intros Hax. unfold _gibbs_removal_1d.
  destruct (Nat.eqb_spec axis 0) as [|_]; [contradiction|]. unfold copy.
  rewrite search_loop_constant. cbn [bind].
  rewrite interpolate_constant. reflexivity.
Qed.
End ConstantImage.

Lemma transpose_constant M N c : transpose (constant M N c) = constant N M c.
Proof.
  unfold transpose, constant. rewrite nrow_tab, ncol_tab.
  apply tab_ext. intros i j Hi Hj. apply get_tab; assumption.
Qed.

Lemma gibbs_removal_1d_constant_columns M N n_points c :
  1 <= N -> 1 <= n_points -> n_points + 1 <= M ->
  _gibbs_removal_1d (constant M N c) 0 n_points = Ok (constant M N c).
Proof.
  intros HN Hnp HM. unfold _gibbs_removal_1d. cbn [Nat.eqb]. unfold copy.
  rewrite transpose_constant.
  rewrite search_loop_constant by assumption. cbn [bind].
  rewrite interpolate_constant. cbn [bind].
  rewrite transpose_constant. reflexivity.
Qed.

(** ** Rows shorter than [n_points + 1] *)

Lemma has_shape_cols {A} `{Dflt A} (a : arr2 A) (s e : option Z) :
  has_shape (nrow a) (snd (slice (ncol a) s e)) (cols a s e).
Proof.
  unfold cols. destruct (slice (ncol a) s e) as [s0 w]. apply has_shape_tab.
Qed.

Lemma slice_width_window (L : nat) (a b k : Z) :
  (0 <= a)%Z -> (b = a - 2 * k - 2)%Z -> (b < 0)%Z ->
  snd (slice L (Some a) (Some b)) = Z.to_nat (Z.of_nat L - 2 * k - 2).
Proof.
  intros Ha -> Hb. unfold slice, slice_bound. cbn [snd].
  destruct (Z.ltb_spec a 0); [lia|].
  destruct (Z.ltb_spec (a - 2 * k - 2) 0); [|lia]. lia.
Qed.

Lemma zip2_shape {A B D} `{Dflt A} `{Dflt B} (f : A -> B -> D)
  (a : arr2 A) (b : arr2 B) M N :
  has_shape M N a -> has_shape M N b ->
  exists r, zip2 f a b = Ok r /\ has_shape M N r /\ wf r.
Proof.
  intros [Ha1 Ha2] [Hb1 Hb2]. rewrite zip2_same by congruence.
  eexists; split; [reflexivity|]. rewrite Ha1, Ha2.
  split; [apply has_shape_tab|apply wf_tab].
Qed.

Lemma has_shape_absolute (a : arr2 R) M N :
  has_shape M N a -> has_shape M N (absolute a).
Proof. intros [H1 H2]. unfold absolute, map2d. split; simpl; assumption. Qed.

Section ShortRows.
Variables M N n_points : nat.
Hypothesis HN : N <= n_points.
Local Notation "'np'" := (Z.of_nat n_points).
Local Notation "'w'" := (3 * N - 2 * n_points - 2).

Lemma short_window (ext : arr2 R) (a b : Z) :
  has_shape M (N + N + N) ext ->
  (0 <= a)%Z -> (b = a - 2 * np - 2)%Z -> (b < 0)%Z ->
  has_shape M w (cols ext (Some a) (Some b)).
Proof.
  intros [H1 H2] Ha Hb Hb0.
  pose proof (has_shape_cols ext (Some a) (Some b)) as Hc.
  rewrite (@slice_width_window (ncol ext) a b np Ha Hb Hb0), H1, H2 in Hc.
  replace w with (Z.to_nat (Z.of_nat (N + N + N) - 2 * np - 2)) by lia.
  exact Hc.
Qed.

Lemma short_difference (ext : arr2 R) (a1 b1 a2 b2 : Z) :
  has_shape M (N + N + N) ext ->
  (0 <= a1)%Z -> (b1 = a1 - 2 * np - 2)%Z -> (b1 < 0)%Z ->
  (0 <= a2)%Z -> (b2 = a2 - 2 * np - 2)%Z -> (b2 < 0)%Z ->
  exists d, rsub (cols ext (Some a1) (Some b1)) (cols ext (Some a2) (Some b2)) = Ok d
            /\ has_shape M w (absolute d).
Proof.
  intros Hext Ha1 Hb1 Hc1 Ha2 Hb2 Hc2.
  destruct (@zip2_shape _ _ _ _ _ Rminus _ _ M w
              (short_window Hext Ha1 Hb1 Hc1) (short_window Hext Ha2 Hb2 Hc2))
    as (d & E & Hd & _).
  exists d. split; [exact E|apply has_shape_absolute; exact Hd].
Qed.

(** On short rows the two scores come out narrower than the image. *)
Lemma image_tv_short (x : arr2 R) (axis : nat) :
  axis <> 0 -> has_shape M N x -> 1 <= n_points ->
  exists p n, _image_tv x axis n_points = Ok (p, n)
              /\ has_shape M w p /\ has_shape M w n.
Proof.
  intros Hax [H1 H2] Hnp. unfold _image_tv.
  destruct (Nat.eqb_spec axis 0) as [|_]; [contradiction|]. unfold copy.
  assert (Hext : exists ext,
             concatenate1 (cols x (Some (- np - 1)%Z) None) x
                          (cols x (Some 0%Z) (Some (np + 1)%Z)) = Ok ext
             /\ has_shape M (N + N + N) ext).
  { unfold concatenate1, cols. rewrite H2.
    replace (slice N (Some (- np - 1)%Z) None) with (0, N).
    2:{ unfold slice, slice_bound. destruct (Z.ltb_spec (- np - 1) 0); [|lia].
        f_equal; lia. }
    replace (slice N (Some 0%Z) (Some (np + 1)%Z)) with (0, N).
    2:{ unfold slice, slice_bound. destruct (Z.ltb_spec (np + 1) 0); [lia|].
        change (0 <? 0)%Z with false. cbv iota. f_equal; lia. }
    rewrite !nrow_tab, !ncol_tab, ?H1, ?H2, !Nat.eqb_refl. cbn [andb].
    eexists; split; [reflexivity|apply has_shape_tab]. }
  destruct Hext as (ext & E & Hext). rewrite E. cbn [bind].
  destruct (@short_difference ext (np + 1) (- np - 1) (np + 2) (- np) Hext)
    as (d1 & E1 & Hd1); try lia.
  destruct (@short_difference ext (np + 1) (- np - 1) np (- np - 2) Hext)
    as (d2 & E2 & Hd2); try lia.
  rewrite E1. cbn [bind]. cbv zeta. rewrite E2. cbn [bind]. cbv zeta.
  destruct (@foldM_total nat (arr2 R * arr2 R)
              (fun s => has_shape M w (fst s) /\ has_shape M w (snd s))
              (fun k => 1 <= k <= n_points - 1)
              (fun '(ptv, ntv) k =>
                 let n := Z.of_nat k in
                 d <- rsub (cols ext (Some (np + 1 + n)%Z) (Some (- np - 1 + n)%Z))
                           (cols ext (Some (np + 2 + n)%Z) (Some (- np + n)%Z)) ;;
                 ptv <- radd ptv (absolute d) ;;
                 d <- rsub (cols ext (Some (np + 1 - n)%Z) (Some (- np - 1 - n)%Z))
                           (cols ext (Some (np - n)%Z) (Some (- np - 2 - n)%Z)) ;;
                 ntv <- radd ntv (absolute d) ;;
                 Ok (ptv, ntv)))
    with (l := seq 1 (n_points - 1)) (s := (absolute d1, absolute d2))
    as ([p n] & Eloop & Hp & Hn).
  - intros [p n] k [Hp Hn] Hk. cbn [fst snd] in Hp, Hn. cbv zeta.
    destruct (@short_difference ext (np + 1 + Z.of_nat k) (- np - 1 + Z.of_nat k)
                (np + 2 + Z.of_nat k) (- np + Z.of_nat k) Hext)
      as (e1 & F1 & He1); try lia.
    destruct (@short_difference ext (np + 1 - Z.of_nat k) (- np - 1 - Z.of_nat k)
                (np - Z.of_nat k) (- np - 2 - Z.of_nat k) Hext)
      as (e2 & F2 & He2); try lia.
    rewrite F1. cbn [bind].
    destruct (@zip2_shape _ _ _ _ _ Rplus p (absolute e1) M w Hp He1) as (p' & G1 & Hp' & _).
    unfold radd. rewrite G1. cbn [bind]. rewrite F2. cbn [bind].
    destruct (@zip2_shape _ _ _ _ _ Rplus n (absolute e2) M w Hn He2) as (n' & G2 & Hn' & _).
    rewrite G2. cbn [bind]. exists (p', n'). split; [reflexivity|].
    split; assumption.
  - apply Forall_forall. intros k Hk. apply in_seq in Hk. lia.
  - split; assumption.
  - cbv zeta in Eloop. rewrite Eloop. cbn [bind]. exists p, n. cbn [fst snd] in Hp, Hn.
    split; [reflexivity|split; assumption].
Qed.
End ShortRows.

Lemma ssamp_cons : exists s l, ssamp = s :: l.
Proof. unfold ssamp, linspace. cbn [seq map]. eexists; eexists; reflexivity. Qed.

(** With rows of at most [n_points] samples (but enough of them for the
    scores not to come out empty), the first masked update of the search
    indexes the candidate image with a narrower mask. *)
Lemma gibbs_removal_1d_short_rows (x : arr2 R) (axis n_points : nat) M N :
  axis <> 0 -> has_shape M N x -> 1 <= M -> 1 <= N -> N <= n_points ->
  2 * n_points + 3 <= 3 * N ->
  _gibbs_removal_1d x axis n_points = Err BoolIndexError.
Proof.
  intros Hax Hx HM HN Hshort Hwide.
  assert (Hnp : 1 <= n_points) by lia.
  unfold _gibbs_removal_1d.
  destruct (Nat.eqb_spec axis 0) as [|_]; [contradiction|]. unfold copy.
  unfold search_loop, search_init.
  destruct (@image_tv_short M N n_points Hshort x 1) as (p & n & E & Hp & Hn);
    try assumption; try discriminate.
  rewrite E. cbn [bind].
  destruct (@zip2_shape _ _ _ _ _ Rmin p n M _ Hp Hn) as (t0 & Et0 & Ht0 & _).
  unfold minimum at 1. rewrite Et0. cbn [bind].
  destruct (@fft2_ok x M N Hx HM HN) as [g Hg]. rewrite Hg. cbn [bind].
  destruct ssamp_cons as (s & l & ->). cbn [foldM].
  destruct Hx as [Hx1 Hx2]. rewrite Hx2.
  unfold search_step at 1.
  set (cc := fftshift (tab M N g)).
  assert (Hcc : has_shape M N cc) by (apply has_shape_fftshift, has_shape_tab).
  destruct (@shifted_image_ok cc (map (fun z => cexp (cscale z s)) (phase_ramp N)) M N)
    as [gp Hgp]; try assumption.
  { rewrite length_map. apply length_phase_ramp. }
  destruct (@shifted_image_ok cc (map (fun z => cexp (cscale (cneg z) s)) (phase_ramp N)) M N)
    as [gn Hgn]; try assumption.
  { rewrite length_map. apply length_phase_ramp. }
  rewrite Hgp. cbn [bind].
  destruct (@image_tv_short M N n_points Hshort (tab M N gp) 1)
    as (p1 & n1 & E1 & Hp1 & Hn1); try apply has_shape_tab; try assumption;
    try discriminate.
  rewrite E1. cbn [bind].
  destruct (@zip2_shape _ _ _ _ _ Rmin p1 n1 M _ Hp1 Hn1) as (t1 & Et1 & Ht1 & _).
  unfold minimum at 1. rewrite Et1. cbn [bind].
  rewrite Hgn. cbn [bind].
  destruct (@image_tv_short M N n_points Hshort (tab M N gn) 1)
    as (p2 & n2 & E2 & Hp2 & Hn2); try apply has_shape_tab; try assumption;
    try discriminate.
  rewrite E2. cbn [bind].
  destruct (@zip2_shape _ _ _ _ _ Rmin p2 n2 M _ Hp2 Hn2) as (t2 & Et2 & Ht2 & _).
  unfold minimum at 1. rewrite Et2. cbn [bind].
  unfold assign_where_gt at 1. cbn [tvp isp].
  rewrite (gt_same Ht0 Ht1). cbn [bind].
  unfold getmask, bool_index_ok. rewrite !nrow_tab, !ncol_tab.
  destruct (Nat.eqb_spec (3 * N - 2 * n_points - 2) 0) as [Heq|_]; [lia|].
  destruct (Nat.eqb_spec (3 * N - 2 * n_points - 2) N) as [Heq|_]; [lia|].
  rewrite andb_false_r. reflexivity.
Qed.

(** ** [_weights] *)

Lemma slice_inner (n : nat) :
  slice n (Some 1%Z) (Some (-1)%Z) = (Nat.min 1 n, n - 2).
Proof.
  unfold slice, slice_bound.
  change (1 <? 0)%Z with false. change (-1 <? 0)%Z with true. cbv iota.
  f_equal; lia.
Qed.

Lemma int_index_first (n : nat) : 1 <= n -> int_index n 0 = Ok 0.
Proof.
  intros Hn. unfold int_index. change (0 <? 0)%Z with false. cbv iota.
  destruct (Z.leb_spec 0 0); [|lia].
  destruct (Z.ltb_spec 0 (Z.of_nat n)); [|lia]. reflexivity.
Qed.

Lemma int_index_last (n : nat) : 1 <= n -> int_index n (-1) = Ok (n - 1).
Proof.
  intros Hn. unfold int_index. change (-1 <? 0)%Z with true. cbv iota.
  destruct (Z.leb_spec 0 (-1 + Z.of_nat n)); [|lia].
  destruct (Z.ltb_spec (-1 + Z.of_nat n) (Z.of_nat n)); [|lia].
  cbn [andb]. f_equal. lia.
Qed.

Lemma int_index_empty (i : Z) : int_index 0 i = Err IndexError.
Proof.
  unfold int_index. cbn [Z.of_nat].
  destruct (Z.ltb_spec i 0).
  - destruct (Z.leb_spec 0 (i + 0)); [lia|reflexivity].
  - destruct (Z.leb_spec 0 i); [|lia].
    destruct (Z.ltb_spec i 0); [lia|reflexivity].
Qed.

Section Setters.
Variables M N : nat.
Variable F : nat -> nat -> R.

Lemma set_block_tab (V : arr2 R) :
  fits (nrow V) (M - 2) = true -> fits (ncol V) (N - 2) = true ->
  set_block (tab M N F) (Some 1%Z) (Some (-1)%Z) (Some 1%Z) (Some (-1)%Z) V
  = Ok (tab M N (fun i j =>
          if (1 <=? i) && (i <? M - 1) && (1 <=? j) && (j <? N - 1)
          then get V (bix (nrow V) (i - 1)) (bix (ncol V) (j - 1))
          else F i j)).
Proof.
  intros Hr Hc. unfold set_block. rewrite nrow_tab, ncol_tab, !slice_inner.
  rewrite Hr, Hc. cbn [andb]. f_equal. apply tab_ext. intros i j Hi Hj.
  rewrite get_tab by assumption.
  destruct (Nat.leb_spec (Nat.min 1 M) i), (Nat.leb_spec 1 i),
    (Nat.ltb_spec i (Nat.min 1 M + (M - 2))), (Nat.ltb_spec i (M - 1));
    try lia; cbn [andb]; try reflexivity.
  destruct (Nat.leb_spec (Nat.min 1 N) j), (Nat.leb_spec 1 j),
    (Nat.ltb_spec j (Nat.min 1 N + (N - 2))), (Nat.ltb_spec j (N - 1));
    try lia; cbn [andb]; try reflexivity.
  replace (Nat.min 1 M) with 1 by lia. replace (Nat.min 1 N) with 1 by lia.
  reflexivity.
Qed.

Lemma set_block_misfit (V : arr2 R) :
  fits (nrow V) (M - 2) && fits (ncol V) (N - 2) = false ->
  set_block (tab M N F) (Some 1%Z) (Some (-1)%Z) (Some 1%Z) (Some (-1)%Z) V
  = Err BroadcastError.
Proof.
  intros Hf. unfold set_block. rewrite nrow_tab, ncol_tab, !slice_inner.
  rewrite Hf. reflexivity.
Qed.

Lemma set_col_tab (c : Z) (cj : nat) (v : R) :
  int_index N c = Ok cj ->
  set_col (tab M N F) (Some 1%Z) (Some (-1)%Z) c v
  = Ok (tab M N (fun i j =>
          if (1 <=? i) && (i <? M - 1) && (j =? cj) then v else F i j)).
Proof.
  intros Hc. unfold set_col. rewrite nrow_tab, ncol_tab, slice_inner, Hc.
  cbn [bind]. f_equal. apply tab_ext. intros i j Hi Hj.
  rewrite get_tab by assumption.
  destruct (Nat.leb_spec (Nat.min 1 M) i), (Nat.leb_spec 1 i),
    (Nat.ltb_spec i (Nat.min 1 M + (M - 2))), (Nat.ltb_spec i (M - 1));
    try lia; reflexivity.
Qed.

Lemma set_row_tab (r : Z) (ri : nat) (v : R) :
  int_index M r = Ok ri ->
  set_row (tab M N F) r (Some 1%Z) (Some (-1)%Z) v
  = Ok (tab M N (fun i j =>
          if (i =? ri) && (1 <=? j) && (j <? N - 1) then v else F i j)).
Proof.
  intros Hr. unfold set_row. rewrite nrow_tab, ncol_tab, slice_inner, Hr.
  cbn [bind]. f_equal. apply tab_ext. intros i j Hi Hj.
  rewrite get_tab by assumption.
  destruct (Nat.eqb_spec i ri); cbn [andb]; [|reflexivity].
  destruct (Nat.leb_spec (Nat.min 1 N) j), (Nat.leb_spec 1 j),
    (Nat.ltb_spec j (Nat.min 1 N + (N - 2))), (Nat.ltb_spec j (N - 1));
    try lia; reflexivity.
Qed.

Lemma set_at_tab (r c : Z) (ri cj : nat) (v : R) :
  int_index M r = Ok ri -> int_index N c = Ok cj ->
  set_at (tab M N F) r c v
  = Ok (tab M N (fun i j => if (i =? ri) && (j =? cj) then v else F i j)).
Proof.
  intros Hr Hc. unfold set_at. rewrite nrow_tab, ncol_tab, Hr, Hc.
  cbn [bind]. f_equal. apply tab_ext. intros i j Hi Hj.
  rewrite get_tab by assumption. reflexivity.
Qed.
End Setters.

Lemma length_slice1_inner {A} (v : list A) :
  length (slice1 v (Some 1%Z) (Some (-1)%Z)) = length v - 2.
Proof.
  unfold slice1. rewrite slice_inner.
  rewrite length_firstn, length_skipn. lia.
Qed.

Lemma nth_slice1_inner {A} (v : list A) (d : A) (i : nat) :
  i < length v - 2 ->
  nth i (slice1 v (Some 1%Z) (Some (-1)%Z)) d = nth (S i) v d.
Proof.
  intros Hi. unfold slice1. rewrite slice_inner.
  rewrite nth_firstn. destruct (Nat.ltb_spec i (length v - 2)); [|lia].
  rewrite nth_skipn. f_equal. lia.
Qed.

(** The broadcast of the inner block fails whenever the two dimensions
    differ (unless there is a single inner row). *)
Lemma weights_misfit (M N : nat) :
  M - 2 <> N - 2 -> M <> 3 -> _weights (M, N) = Err BroadcastError.
Proof.
  intros Hne H3. unfold _weights. cbn [fst snd]. unfold meshgrid.
  cbv beta iota zeta.
  rewrite !length_slice1_inner, !length_linspace.
  rewrite !map2d_tab. unfold radd, rdiv.
  rewrite zip2_tab. cbn [bind]. rewrite zip2_tab. cbn [bind].
  unfold zeros. cbn [fst snd].
  rewrite set_block_misfit; [reflexivity|].
  rewrite nrow_tab, ncol_tab. unfold fits.
  rewrite Nat.eqb_refl. cbn [orb andb].
  destruct (Nat.eqb_spec (M - 2) (N - 2)); [contradiction|].
  destruct (Nat.eqb_spec (M - 2) 1); [lia|]. reflexivity.
Qed.

(** For a square shape the two weight arrays are built without error. *)
Lemma weights_square (n : nat) :
  1 <= n ->
  _weights (n, n) = Ok (tab n n (g0_at n n), tab n n (g1_at n n)).
Proof.
  intros Hn. unfold _weights. cbn [fst snd]. unfold meshgrid.
  cbv beta iota zeta.
  rewrite !length_slice1_inner, !length_linspace.
  rewrite !map2d_tab. unfold radd, rdiv.
  rewrite zip2_tab. cbn [bind]. rewrite zip2_tab. cbn [bind].
  unfold zeros. cbn [fst snd].
  rewrite set_block_tab
    by (rewrite ?nrow_tab, ?ncol_tab; unfold fits; rewrite Nat.eqb_refl; reflexivity).
  cbn [bind]. rewrite zip2_tab. cbn [bind].
  rewrite set_block_tab
    by (rewrite ?nrow_tab, ?ncol_tab; unfold fits; rewrite Nat.eqb_refl; reflexivity).
  cbn [bind].
  rewrite (@set_col_tab n n _ _ _ _ (int_index_first Hn)). cbn [bind].
  rewrite (@set_col_tab n n _ _ _ _ (int_index_last Hn)). cbn [bind].
  rewrite (@set_at_tab n n _ _ _ _ _ _ (int_index_first Hn) (int_index_first Hn)). cbn [bind].
  rewrite (@set_at_tab n n _ _ _ _ _ _ (int_index_last Hn) (int_index_last Hn)). cbn [bind].
  rewrite (@set_at_tab n n _ _ _ _ _ _ (int_index_first Hn) (int_index_last Hn)). cbn [bind].
  rewrite (@set_at_tab n n _ _ _ _ _ _ (int_index_last Hn) (int_index_first Hn)). cbn [bind].
  rewrite (@set_row_tab n n _ _ _ _ (int_index_first Hn)). cbn [bind].
  rewrite (@set_row_tab n n _ _ _ _ (int_index_last Hn)). cbn [bind].
  rewrite (@set_at_tab n n _ _ _ _ _ _ (int_index_first Hn) (int_index_first Hn)). cbn [bind].
  rewrite (@set_at_tab n n _ _ _ _ _ _ (int_index_last Hn) (int_index_last Hn)). cbn [bind].
  rewrite (@set_at_tab n n _ _ _ _ _ _ (int_index_first Hn) (int_index_last Hn)). cbn [bind].
  rewrite (@set_at_tab n n _ _ _ _ _ _ (int_index_last Hn) (int_index_first Hn)). cbn [bind].
  rewrite !nrow_tab, !ncol_tab.
  f_equal. f_equal.
  - apply tab_ext. intros i j Hi Hj.
    unfold g0_at, is_corner, is_inner.
    destruct (Nat.eqb_spec i 0), (Nat.eqb_spec i (n - 1)),
      (Nat.eqb_spec j 0), (Nat.eqb_spec j (n - 1));
      cbn [andb orb]; try reflexivity; try lia;
      destruct (Nat.leb_spec 1 i), (Nat.ltb_spec i (n - 1)),
        (Nat.leb_spec 1 j), (Nat.ltb_spec j (n - 1));
      cbn [andb orb]; try reflexivity; try lia.
    rewrite !bix_lt by lia. rewrite get_tab by lia.
    unfold taper0, taper1, kang. rewrite !nth_slice1_inner by (rewrite length_linspace; lia).
    replace (S (i - 1)) with i by lia. replace (S (j - 1)) with j by lia.
    reflexivity.
  - apply tab_ext. intros i j Hi Hj.
    unfold g1_at, is_corner, is_inner.
    destruct (Nat.eqb_spec i 0), (Nat.eqb_spec i (n - 1)),
      (Nat.eqb_spec j 0), (Nat.eqb_spec j (n - 1));
      cbn [andb orb]; try reflexivity; try lia;
      destruct (Nat.leb_spec 1 i), (Nat.ltb_spec i (n - 1)),
        (Nat.leb_spec 1 j), (Nat.ltb_spec j (n - 1));
      cbn [andb orb]; try reflexivity; try lia.
    rewrite !bix_lt by lia. rewrite get_tab by lia.
    unfold taper0, taper1, kang. rewrite !nth_slice1_inner by (rewrite length_linspace; lia).
    replace (S (i - 1)) with i by lia. replace (S (j - 1)) with j by lia.
    reflexivity.
Qed.

Lemma cos_gt_m1 (x : R) : (- PI < x < PI)%R -> (-1 < cos x)%R.
Proof.
  intros [Hlo Hhi].
  assert (Hhalf : (0 < cos (x / 2))%R) by (apply cos_gt_0; lra).
  replace x with (2 * (x / 2))%R by lra.
  rewrite cos_2a_cos. nra.
Qed.

Lemma kang_inner (n i : nat) :
  1 <= i -> i < n - 1 -> (- PI < kang n i < PI)%R.
Proof.
  intros H1 H2. unfold kang, linspace.
  rewrite nth_map_seq by lia.
  destruct (Nat.eqb_spec i (n - 1)) as [|_]; [lia|].
  rewrite andb_false_r.
  assert (Hi : (0 < INR i)%R) by (apply lt_0_INR; lia).
  assert (Hd : (INR i < INR (n - 1))%R) by (apply lt_INR; lia).
  assert (Hpi : (0 < PI)%R) by apply PI_RGT_0.
  set (d := INR (n - 1)) in *. set (a := INR i) in *.
  assert (Hq : (0 < a / d < 1)%R).
  { split.
    - apply Rdiv_lt_0_compat; lra.
    - apply (Rmult_lt_reg_r d); [lra|]. unfold Rdiv.
      rewrite Rmult_assoc, Rinv_l by lra. lra. }
  replace (a * ((PI - - PI) / d) + - PI)%R
    with (PI * (2 * (a / d) - 1))%R by (field; lra).
  nra.
Qed.

Lemma taper_bounds (k0 k1 : R) :
  (- PI < k0 < PI)%R -> (- PI < k1 < PI)%R ->
  (taper0 k0 k1 + taper1 k0 k1 = 1
   /\ 0 <= taper0 k0 k1 <= 1 /\ 0 <= taper1 k0 k1 <= 1)%R.
Proof.
  intros H0 H1. apply cos_gt_m1 in H0. apply cos_gt_m1 in H1.
  unfold taper0, taper1.
  set (a := (1 + cos k0)%R) in *. set (b := (1 + cos k1)%R) in *.
  assert (Ha : (0 < a)%R) by (subst a; lra).
  assert (Hb : (0 < b)%R) by (subst b; lra).
  assert (Hs : (b / (a + b) + a / (a + b) = 1)%R) by (field; lra).
  assert (Hpa : (0 < a / (a + b))%R) by (apply Rdiv_lt_0_compat; lra).
  assert (Hpb : (0 < b / (a + b))%R) by (apply Rdiv_lt_0_compat; lra).
  lra.
Qed.

(** On a square shape the two weights of every pixel are in [0, 1] and
    add up to 1. *)
Lemma weights_complementary (n i j : nat) :
  1 <= n -> i < n -> j < n ->
  (g0_at n n i j + g1_at n n i j = 1
   /\ 0 <= g0_at n n i j <= 1 /\ 0 <= g1_at n n i j <= 1)%R.
Proof.
  intros Hn Hi Hj. unfold g0_at, g1_at, is_corner, is_inner.
  destruct (Nat.eqb_spec i 0), (Nat.eqb_spec i (n - 1)),
    (Nat.eqb_spec j 0), (Nat.eqb_spec j (n - 1));
    cbn [andb orb]; try lra; try lia;
    destruct (Nat.leb_spec 1 i), (Nat.ltb_spec i (n - 1)),
      (Nat.leb_spec 1 j), (Nat.ltb_spec j (n - 1));
    cbn [andb orb]; try lra; try lia.
  apply taper_bounds; apply kang_inner; lia.
Qed.

(** ** [_gibbs_removal_2d] *)

Lemma cmul_weights_ok (X : arr2 C) (G : arr2 R) M N :
  has_shape M N X -> has_shape M N G ->
  exists r, cmul_weights X (Some G) = Ok r /\ has_shape M N r.
Proof.
  intros HX HG. unfold cmul_weights.
  destruct (@zip2_shape _ _ _ _ _ cscale X G M N HX HG) as (r & E & Hr & _).
  exists r. split; assumption.
Qed.

Lemma gibbs_removal_2d_ok (image G0 G1 : arr2 R) (n_points : nat) M N :
  has_shape M N image -> has_shape M N G0 -> has_shape M N G1 ->
  1 <= n_points -> n_points + 1 <= M -> n_points + 1 <= N ->
  exists r, _gibbs_removal_2d image n_points (Some G0) (Some G1) = Ok r
            /\ has_shape M N r /\ wf r.
Proof.
  intros Him HG0 HG1 Hnp HM HN. unfold _gibbs_removal_2d.
  cbn [np_any is_None orb bind].
  destruct (@gibbs_removal_1d_axis1_ok image 1 n_points M N)
    as (c1 & E1 & Hc1); try assumption; try discriminate; try lia.
  destruct (@gibbs_removal_1d_axis0_ok image n_points M N)
    as (c0 & E0 & Hc0); try assumption; try lia.
  rewrite E1. cbn [bind]. rewrite E0. cbn [bind].
  destruct (@fft2_ok c1 M N Hc1) as [f1 F1]; try lia.
  destruct (@fft2_ok c0 M N Hc0) as [f0 F0]; try lia.
  rewrite F1. cbn [bind]. rewrite F0. cbn [bind].
  destruct (@cmul_weights_ok (fftshift (tab M N f1)) G1 M N)
    as (a & Ea & Ha); [apply has_shape_fftshift, has_shape_tab|exact HG1|].
  destruct (@cmul_weights_ok (fftshift (tab M N f0)) G0 M N)
    as (b & Eb & Hb); [apply has_shape_fftshift, has_shape_tab|exact HG0|].
  rewrite Ea. cbn [bind]. rewrite Eb. cbn [bind].
  destruct (@zip2_shape _ _ _ _ _ cadd a b M N Ha Hb) as (s & Es & Hs & _).
  rewrite Es. cbn [bind].
  destruct (@ifft2_ok s M N Hs) as [g Eg]; try lia.
  rewrite Eg. cbn [bind]. rewrite map2d_tab.
  eexists; split; [reflexivity|split; [apply has_shape_tab|apply wf_tab]].
Qed.

Lemma gibbs_removal_2d_short (image : arr2 R) (n_points : nat)
  (G0 G1 : arr2 R) M N :
  has_shape M N image -> 1 <= M -> 1 <= N -> N <= n_points ->
  2 * n_points + 3 <= 3 * N ->
  _gibbs_removal_2d image n_points (Some G0) (Some G1) = Err BoolIndexError.
Proof.
  intros Him HM HN Hshort Hwide. unfold _gibbs_removal_2d.
  cbn [np_any is_None orb bind].
  rewrite (@gibbs_removal_1d_short_rows image 1 n_points M N);
    try assumption; try discriminate. reflexivity.
Qed.

(** Without weights the function builds them from the shape of the image
    and goes on as if they had been passed. *)
Lemma gibbs_removal_2d_default_weights (image : arr2 R) (n_points : nat) :
  _gibbs_removal_2d image n_points None None
  = ('(g0, g1) <- _weights (shape2 image) ;;
     _gibbs_removal_2d image n_points (Some g0) (Some g1)).
Proof.
  unfold _gibbs_removal_2d at 1. cbn [np_any is_None orb].
  destruct (_weights (shape2 image)) as [[g0 g1]|e]; [|reflexivity].
  cbn [bind]. unfold _gibbs_removal_2d. cbn [np_any is_None orb bind].
  reflexivity.
Qed.

Lemma gibbs_removal_2d_one_missing (image : arr2 R) (n_points : nat)
  (G0 G1 : option (arr2 R)) :
  G0 = None \/ G1 = None ->
  _gibbs_removal_2d image n_points G0 G1
  = _gibbs_removal_2d image n_points None None.
Proof.
  intros [-> | ->]; unfold _gibbs_removal_2d; cbn [np_any is_None orb].
  - reflexivity.
  - rewrite orb_true_r. reflexivity.
Qed.

(** ** Buffers and views *)

Lemma length_upd {A} (l : list A) (k : nat) (v : A) :
  length (upd l k v) = length l.
Proof.
  revert k; induction l as [|x l IH]; intros [|k]; simpl; try reflexivity.
  rewrite IH. reflexivity.
Qed.

Lemma nth_upd_same {A} (l : list A) (k : nat) (v d : A) :
  k < length l -> nth k (upd l k v) d = v.
Proof.
  revert k; induction l as [|x l IH]; intros [|k] Hk; simpl in *;
    try lia; try reflexivity.
  apply IH. lia.
Qed.

Lemma nth_upd_other {A} (l : list A) (k k' : nat) (v d : A) :
  k' <> k -> nth k' (upd l k v) d = nth k' l d.
Proof.
  revert k k'; induction l as [|x l IH]; intros [|k] [|k'] Hk; simpl;
    try reflexivity; try lia.
  apply IH. lia.
Qed.

Lemma length_swap_nth (l : list nat) (a b : nat) :
  length (swap_nth l a b) = length l.
Proof. unfold swap_nth. rewrite !length_upd. reflexivity. Qed.

Lemma swapaxes_ok (v : ndarray) (a b : nat) :
  a < ndim v -> b < ndim v ->
  swapaxes v a b
  = Ok (mk_nd (base v) (offset v) (swap_nth (shape v) a b)
              (swap_nth (strides v) a b)).
Proof.
  intros Ha Hb. unfold swapaxes.
  destruct (Nat.ltb_spec a (ndim v)); [|lia].
  destruct (Nat.ltb_spec b (ndim v)); [|lia]. reflexivity.
Qed.

Lemma swapaxes_out_of_range (v : ndarray) (a b : nat) :
  ndim v <= b -> swapaxes v a b = Err AxisError.
Proof.
  intros Hb. unfold swapaxes.
  destruct (Nat.ltb_spec b (ndim v)); [lia|]. rewrite andb_false_r. reflexivity.
Qed.

Lemma fits_same (n : nat) : fits n n = true.
Proof. unfold fits. rewrite Nat.eqb_refl. reflexivity. Qed.

Lemma write_slice_ok (st : store) (v : ndarray) (vi : nat) (m : arr2 R) :
  has_shape (dim v 0) (dim v 1) m ->
  exists st', write_slice st v vi m = Ok st' /\ length st' = length st
              /\ forall b, b <> base v -> buffer st' b = buffer st b.
Proof.
  intros [H1 H2]. unfold write_slice. rewrite H1, H2, !fits_same. cbn [andb].
  eexists; split; [reflexivity|]. split.
  - apply length_upd.
  - intros b Hb. unfold buffer. apply nth_upd_other. exact Hb.
Qed.

(** ** The per-slice pass *)

Section Slices.
Variable vol : ndarray.
Variables n n_points : nat.
Variables G0 G1 : arr2 R.
Hypothesis Hd0 : dim vol 0 = n.
Hypothesis Hd1 : dim vol 1 = n.
Hypothesis HG0 : has_shape n n G0.
Hypothesis HG1 : has_shape n n G1.
Hypothesis Hnp : 1 <= n_points.
Hypothesis Hn : n_points + 1 <= n.

Lemma correct_slices_ok (slices : list nat) (st : store) :
  exists st', correct_slices vol n_points G0 G1 slices st = Ok st'
              /\ length st' = length st
              /\ forall b, b <> base vol -> buffer st' b = buffer st b.
Proof.
  unfold correct_slices.
  revert st; induction slices as [|vi l IH]; intros st; cbn [foldM].
  - exists st. repeat split; reflexivity.
  - destruct (@gibbs_removal_2d_ok (read_slice st vol vi) G0 G1 n_points n n)
      as (r & Er & Hr & _); try assumption.
    { unfold read_slice. rewrite Hd0, Hd1. apply has_shape_tab. }
    rewrite Er. cbn [bind].
    destruct (@write_slice_ok st vol vi r) as (st1 & E1 & Hlen1 & Hoth1).
    { rewrite Hd0, Hd1. exact Hr. }
    rewrite E1. cbn [bind].
    destruct (IH st1) as (st2 & E2 & Hlen2 & Hoth2).
    exists st2. split; [exact E2|]. split; [congruence|].
    intros b Hb. rewrite Hoth2, Hoth1 by exact Hb. reflexivity.
Qed.
End Slices.

(** ** [gibbs_removal]: input validation *)

Lemma gibbs_removal_bad_axis st vol slice_axis n_points :
  2 < slice_axis ->
  gibbs_removal st vol slice_axis n_points = Err SliceAxisError.
Proof.
  intros H. unfold gibbs_removal.
  destruct (Nat.ltb_spec 2 slice_axis); [reflexivity|lia].
Qed.

Lemma gibbs_removal_rank_high st vol slice_axis n_points :
  slice_axis <= 2 -> 4 < ndim vol ->
  gibbs_removal st vol slice_axis n_points = Err RankTooHigh.
Proof.
  intros Hax Hnd. unfold gibbs_removal.
  destruct (Nat.ltb_spec 2 slice_axis); [lia|].
  destruct (Nat.ltb_spec 2 (ndim vol)); [|lia].
  destruct (Nat.eqb_spec (ndim vol) 4); [lia|].
  destruct (Nat.ltb_spec 4 (ndim vol)); [|lia].
  destruct (Nat.ltb_spec slice_axis 2); cbn [andb].
  - rewrite swapaxes_ok by lia. reflexivity.
  - reflexivity.
Qed.

Lemma gibbs_removal_rank_low st vol slice_axis n_points :
  slice_axis <= 2 -> ndim vol < 2 ->
  gibbs_removal st vol slice_axis n_points = Err RankTooLow.
Proof.
  intros Hax Hnd. unfold gibbs_removal.
  destruct (Nat.ltb_spec 2 slice_axis); [lia|].
  destruct (Nat.ltb_spec 2 (ndim vol)); [lia|].
  rewrite andb_false_r. cbn [bind].
  destruct (Nat.eqb_spec (ndim vol) 4); [lia|].
  destruct (Nat.ltb_spec 4 (ndim vol)); [lia|].
  destruct (Nat.ltb_spec (ndim vol) 2); [|lia]. reflexivity.
Qed.

(** ** [gibbs_removal] on a single image (rank 2) *)

Section Rank2.
Variable st : store.
Variable vol : ndarray.
Variables n n_points : nat.
Hypothesis Hnd : ndim vol = 2.
Hypothesis Hd0 : dim vol 0 = n.
Hypothesis Hd1 : dim vol 1 = n.
Hypothesis Hnp : 1 <= n_points.
Hypothesis Hn : n_points + 1 <= n.

Lemma rank2_corrected :
  exists r, _gibbs_removal_2d (read2 st vol) n_points
              (Some (tab n n (g0_at n n))) (Some (tab n n (g1_at n n))) = Ok r
            /\ has_shape n n r.
Proof.
  destruct (@gibbs_removal_2d_ok (read2 st vol) (tab n n (g0_at n n))
              (tab n n (g1_at n n)) n_points n n) as (r & Er & Hr & _);
    try assumption; try apply has_shape_tab.
  - unfold read2. rewrite Hd0, Hd1. apply has_shape_tab.
  - exists r. split; assumption.
Qed.

(** With [slice_axis = 2] the corrected image is returned in a new buffer. *)
Lemma gibbs_removal_rank2 :
  exists r, has_shape n n r /\
    gibbs_removal st vol 2 n_points
    = Ok (st ++ [dat r], mk_nd (length st) 0 [n; n] [n; 1]).
Proof.
  destruct rank2_corrected as (r & Er & Hr). exists r. split; [exact Hr|].
  unfold gibbs_removal. rewrite Hnd.
  cbn [Nat.ltb Nat.leb Nat.eqb andb bind].
  change (nth 0 (shape vol) 0) with (dim vol 0).
  change (nth 1 (shape vol) 0) with (dim vol 1).
  rewrite Hd0, Hd1, weights_square by lia. cbn [bind].
  rewrite Er. cbn [bind]. unfold alloc.
  destruct Hr as [-> ->]. reflexivity.
Qed.

(** With [slice_axis] 0 or 1 the image is corrected, and then the final
    [np.swapaxes(vol, slice_axis, 2)] of line 317 is applied to it. *)
Lemma gibbs_removal_rank2_swapped (slice_axis : nat) :
  slice_axis < 2 ->
  gibbs_removal st vol slice_axis n_points = Err AxisError.
Proof.
  intros Hax. destruct rank2_corrected as (r & Er & Hr).
  unfold gibbs_removal. rewrite Hnd.
  destruct (Nat.ltb_spec 2 slice_axis); [lia|].
  destruct (Nat.ltb_spec slice_axis 2); [|lia].
  cbn [Nat.ltb Nat.leb Nat.eqb andb bind].
  change (nth 0 (shape vol) 0) with (dim vol 0).
  change (nth 1 (shape vol) 0) with (dim vol 1).
  rewrite Hd0, Hd1, weights_square by lia. cbn [bind].
  rewrite Er. cbn [bind]. unfold alloc. cbn [bind].
  rewrite swapaxes_out_of_range; [reflexivity|].
  unfold ndim. cbn. lia.
Qed.
End Rank2.

(** ** [gibbs_removal] on a stack of images (rank 3) *)

Lemma gibbs_removal_rank3 st vol slice_axis n_points n :
  ndim vol = 3 -> wf_nd vol -> slice_axis <= 2 ->
  plane vol slice_axis = (n, n) -> 1 <= n_points -> n_points + 1 <= n ->
  gibbs_removal st vol slice_axis n_points
  = (st' <- correct_slices (working_view vol slice_axis) n_points
              (tab n n (g0_at n n)) (tab n n (g1_at n n))
              (seq 0 (dim (working_view vol slice_axis) 2)) st ;;
     Ok (st', vol)).
Proof.
  intros Hnd Hwf Hax Hpl Hnp Hn.
  destruct vol as [b o sh str]. unfold ndim, wf_nd, plane in *.
  cbn [shape strides] in *.
  destruct sh as [|d0 [|d1 [|d2 [|? ?]]]]; try discriminate Hnd.
  destruct str as [|s0 [|s1 [|s2 [|? ?]]]]; try discriminate Hwf.
  unfold gibbs_removal, working_view, swapaxes, ndim, dim.
  cbn [shape strides base offset length].
  destruct slice_axis as [|[|[|k]]]; try lia;
    cbn [Nat.ltb Nat.leb Nat.eqb andb bind swap_nth upd nth shape strides
         base offset length] in *;
    injection Hpl as -> ->;
    rewrite weights_square by lia; cbn [bind];
    (destruct (correct_slices _ _ _ _ _ _) as [st'|e]; cbn [bind];
     [reflexivity|reflexivity]).
Qed.


(** ** [gibbs_removal] on a stack of stacks (rank 4) *)

Lemma bind_assoc {A B D} (c : result A) (f : A -> result B) (g : B -> result D) :
  bind (bind c f) g = bind c (fun a => bind (f a) g).
Proof. destruct c; reflexivity. Qed.

Lemma reshape_flatten st b o a b' c d s0 s1 s2 s3 :
  reshape st (mk_nd b o [a; b'; c; d] [s0; s1; s2; s3]) [a; b'; c * d]
  = Ok (flatten st (mk_nd b o [a; b'; c; d] [s0; s1; s2; s3])).
Proof.
  unfold flatten, dim. cbn [shape nth].
  unfold reshape. cbn [shape strides]. rewrite !Nat.eqb_refl. cbn [andb].
  destruct ((a * b' * c * d <=? 1) || (c =? 1) || (d =? 1) || (s2 =? d * s3));
    reflexivity.
Qed.

Lemma reshape_unflatten st b o a b' c d s0 s1 s2 :
  reshape st (mk_nd b o [a; b'; c * d] [s0; s1; s2]) [a; b'; c; d]
  = Ok (st, unflatten (mk_nd b o [a; b'; c * d] [s0; s1; s2]) [a; b'; c; d]).
Proof.
  unfold unflatten, reshape. cbn [shape strides].
  rewrite !Nat.eqb_refl. reflexivity.
Qed.

Lemma unflatten_eq b o a b' c d s0 s1 s2 :
  unflatten (mk_nd b o [a; b'; c * d] [s0; s1; s2]) [a; b'; c; d]
  = mk_nd b o [a; b'; c; d] [s0; s1; d * s2; s2].
Proof.
  unfold unflatten, reshape. cbn [shape strides].
  rewrite !Nat.eqb_refl. reflexivity.
Qed.

Lemma flatten_cases st b o a b' c d s0 s1 s2 s3 :
  let w := mk_nd b o [a; b'; c; d] [s0; s1; s2; s3] in
  exists st1 t0 t1 t2 o',
    flatten st w = (st1, mk_nd (base (snd (flatten st w))) o' [a; b'; c * d] [t0; t1; t2])
    /\ (flattens_in_place w = true ->
        st1 = st /\ base (snd (flatten st w)) = b)
    /\ (flattens_in_place w = false ->
        (exists buf, st1 = st ++ [buf]) /\ base (snd (flatten st w)) = length st).
Proof.
  intros w. unfold flatten, flattens_in_place, dim. subst w. cbn [shape strides nth].
  unfold reshape. cbn [shape strides]. rewrite !Nat.eqb_refl. cbn [andb].
  destruct ((a * b' * c * d <=? 1) || (c =? 1) || (d =? 1) || (s2 =? d * s3)).
  - do 5 eexists. cbn [snd base offset]. split; [reflexivity|].
    split; [intros _; split; reflexivity|discriminate].
  - do 5 eexists. cbn [snd base offset]. split; [reflexivity|].
    split; [discriminate|intros _; split; [eexists; reflexivity|reflexivity]].
Qed.

Lemma gibbs_removal_rank4 st vol slice_axis n_points n :
  ndim vol = 4 -> wf_nd vol -> slice_axis <= 2 ->
  plane vol slice_axis = (n, n) -> 1 <= n_points -> n_points + 1 <= n ->
  let w4 := working_view vol slice_axis in
  let st1 := fst (flatten st w4) in
  let w3 := snd (flatten st w4) in
  gibbs_removal st vol slice_axis n_points
  = (st' <- correct_slices w3 n_points
              (tab n n (g0_at n n)) (tab n n (g1_at n n))
              (seq 0 (dim w3 2)) st1 ;;
     Ok (st', working_view (unflatten w3 (shape w4)) slice_axis))
  /\ dim w3 0 = n /\ dim w3 1 = n
  /\ shape (working_view (unflatten w3 (shape w4)) slice_axis) = shape vol
  /\ base (working_view (unflatten w3 (shape w4)) slice_axis) = base w3.
Proof.
  intros Hnd Hwf Hax Hpl Hnp Hn.
  destruct vol as [b o sh str]. unfold ndim, wf_nd, plane in *.
  cbn [shape strides] in *.
  destruct sh as [|d0 [|d1 [|d2 [|d3 [|? ?]]]]]; try discriminate Hnd.
  destruct str as [|s0 [|s1 [|s2 [|s3 [|? ?]]]]]; try discriminate Hwf.
  unfold gibbs_removal, working_view, swapaxes, ndim.
  cbn [shape strides base offset length].
  destruct slice_axis as [|[|[|k]]]; try lia;
    cbn [Nat.ltb Nat.leb Nat.eqb andb bind swap_nth upd nth shape strides
         base offset length] in *;
    injection Hpl as -> ->;
    cbv zeta;
    rewrite reshape_flatten;
    match goal with
    | |- context [flatten st ?w] =>
        destruct (@flatten_cases st b o _ _ _ _ _ _ _ _
                    : let w' := w in _) as (st1 & t0 & t1 & t2 & o' & Ef & _ & _);
        cbv zeta in Ef;
        set (bb := base (snd (flatten st w))) in *;
        rewrite Ef
    end;
    cbn [bind fst snd shape strides base offset nth];
    rewrite weights_square by lia; cbn [bind];
    rewrite bind_assoc;
    unfold dim; cbn [shape nth];
    rewrite !unflatten_eq;
    (split; [destruct (correct_slices _ _ _ _ _ _) as [st'|e]; cbn [bind];
             [rewrite reshape_unflatten, unflatten_eq; cbn [bind];
              cbn [Nat.ltb Nat.leb Nat.eqb andb bind swap_nth upd nth shape
                   strides base offset length];
              reflexivity
             |reflexivity]
            |]);
    cbn [shape nth base swap_nth upd];
    repeat split; reflexivity.
Qed.

(** ** Writing through a view *)

Lemma length_fold_upd {A B} (addr : B -> nat) (val : B -> A) (l : list B)
  (buf : list A) :
  length (fold_left (fun b p => upd b (addr p) (val p)) l buf) = length buf.
Proof.
  revert buf; induction l as [|p l IH]; intros buf; simpl; [reflexivity|].
  rewrite IH. apply length_upd.
Qed.

Lemma fold_upd_miss {A B} (addr : B -> nat) (val : B -> A) (l : list B)
  (buf : list A) (q : nat) (d : A) :
  (forall p, In p l -> addr p <> q) ->
  nth q (fold_left (fun b p => upd b (addr p) (val p)) l buf) d = nth q buf d.
Proof.
  revert buf; induction l as [|p l IH]; intros buf Hmiss; simpl; [reflexivity|].
  rewrite IH by (intros p' Hp'; apply Hmiss; right; exact Hp').
  apply nth_upd_other. intros Heq. apply (Hmiss p); [left; reflexivity|].
  symmetry; exact Heq.
Qed.

Lemma fold_upd_hit {A B} (addr : B -> nat) (val : B -> A) (l : list B)
  (buf : list A) (p : B) (d : A) :
  In p l -> (forall p', In p' l -> addr p' = addr p -> p' = p) ->
  NoDup l -> addr p < length buf ->
  nth (addr p) (fold_left (fun b p => upd b (addr p) (val p)) l buf) d = val p.
Proof.
  revert buf; induction l as [|p0 l IH]; intros buf Hin Hinj Hnd Hlt;
    simpl; [contradiction|].
  inversion Hnd as [|? ? Hnotin Hnd']; subst.
  destruct Hin as [-> | Hin].
  - rewrite fold_upd_miss.
    + apply nth_upd_same. exact Hlt.
    + intros p' Hp' Heq. apply Hnotin.
      rewrite <- (Hinj p'); [exact Hp'|right; exact Hp'|exact Heq].
  - apply IH; try assumption.
    + intros p' Hp' Heq. apply Hinj; [right; exact Hp'|exact Heq].
    + rewrite length_upd. exact Hlt.
Qed.

Section WriteSlice.
Variable st : store.
Variable w : ndarray.
Variable vi : nat.
Variable r : arr2 R.
Variable st1 : store.
Hypothesis Hvalid : valid_view st w.
Hypothesis Hvi : vi < dim w 2.
Hypothesis Hshape : has_shape (dim w 0) (dim w 1) r.
Hypothesis Hwrite : write_slice st w vi r = Ok st1.

Lemma written_buffer :
  buffer st1 (base w)
  = fold_left
      (fun buf p => upd buf (addr3 w (p / dim w 1) (p mod dim w 1) vi)
                        (get r (bix (nrow r) (p / dim w 1))
                               (bix (ncol r) (p mod dim w 1))))
      (seq 0 (dim w 0 * dim w 1)) (buffer st (base w)).
Proof.
  destruct Hshape as [H1 H2]. destruct Hvalid as (Hb & _ & _).
  unfold write_slice in Hwrite. rewrite H1, H2, !fits_same in Hwrite.
  cbn [andb] in Hwrite. injection Hwrite as <-.
  unfold buffer at 1. rewrite nth_upd_same by exact Hb.
  rewrite <- H1, <- H2. reflexivity.
Qed.

Lemma untouched_buffers (b : nat) :
  b <> base w -> buffer st1 b = buffer st b.
Proof.
  intros Hb. destruct Hshape as [H1 H2].
  unfold write_slice in Hwrite. rewrite H1, H2, !fits_same in Hwrite.
  cbn [andb] in Hwrite. injection Hwrite as <-.
  unfold buffer. apply nth_upd_other. exact Hb.
Qed.

Lemma valid_view_written : valid_view st1 w.
Proof.
  destruct Hvalid as (Hb & Hin & Hinj). split; [|split].
  - destruct Hshape as [H1 H2].
    unfold write_slice in Hwrite. rewrite H1, H2, !fits_same in Hwrite.
    cbn [andb] in Hwrite. injection Hwrite as <-.
    rewrite length_upd. exact Hb.
  - intros i j k Hi Hj Hk. rewrite written_buffer, length_fold_upd.
    apply Hin; assumption.
  - exact Hinj.
Qed.

Lemma read_written_slice : wf r -> read_slice st1 w vi = r.
Proof.
  intros Hwf. destruct Hvalid as (Hb & Hin & Hinj).
  destruct Hshape as [H1 H2].
  rewrite <- (tab_get Hwf), H1, H2. unfold read_slice.
  apply tab_ext. intros i j Hi Hj.
  rewrite written_buffer.
  change (offset w + i * stride w 0 + j * stride w 1 + vi * stride w 2)
    with (addr3 w i j vi).
  assert (Hp : addr3 w i j vi
               = (fun p => addr3 w (p / dim w 1) (p mod dim w 1) vi)
                   (i * dim w 1 + j)).
  { cbv beta. rewrite flat_index_div, flat_index_mod by exact Hj. reflexivity. }
  rewrite Hp.
  rewrite (@fold_upd_hit R nat
             (fun p => addr3 w (p / dim w 1) (p mod dim w 1) vi)
             (fun p => get r (bix (nrow r) (p / dim w 1))
                             (bix (ncol r) (p mod dim w 1)))).
  - cbv beta. rewrite flat_index_div, flat_index_mod by exact Hj.
    rewrite !bix_lt by lia. reflexivity.
  - apply in_seq. pose proof (flat_index_lt Hi Hj). lia.
  - intros p' Hp' Heq. apply in_seq in Hp'. cbv beta in Heq.
    rewrite flat_index_div, flat_index_mod in Heq by exact Hj.
    assert (Hi' : p' / dim w 1 < dim w 0) by (apply flat_div_lt; lia).
    assert (Hj' : p' mod dim w 1 < dim w 1)
      by (apply flat_mod_lt with (M := dim w 0); lia).
    destruct (Hinj _ _ _ _ _ _ Hi' Hj' Hvi Hi Hj Hvi Heq) as (Ei & Ej & _).
    rewrite (Nat.div_mod_eq p' (dim w 1)), Ei, Ej. lia.
  - apply seq_NoDup.
  - cbv beta. rewrite flat_index_div, flat_index_mod by exact Hj.
    apply Hin; assumption.
Qed.

Lemma read_other_slice (v : nat) :
  v < dim w 2 -> v <> vi -> read_slice st1 w v = read_slice st w v.
Proof.
  intros Hv Hne. destruct Hvalid as (Hb & Hin & Hinj).
  unfold read_slice. apply tab_ext. intros i j Hi Hj.
  rewrite written_buffer.
  apply fold_upd_miss. intros p Hp Heq. apply in_seq in Hp.
  assert (Hi' : p / dim w 1 < dim w 0) by (apply flat_div_lt; lia).
  assert (Hj' : p mod dim w 1 < dim w 1)
    by (apply flat_mod_lt with (M := dim w 0); lia).
  change (offset w + i * stride w 0 + j * stride w 1 + v * stride w 2)
    with (addr3 w i j v) in Heq.
  destruct (Hinj _ _ _ _ _ _ Hi' Hj' Hvi Hi Hj Hv Heq) as (_ & _ & Ek).
  apply Hne. symmetry. exact Ek.
Qed.
End WriteSlice.

(** ** The per-slice pass stores every corrected slice in the buffer *)

Section InPlace.
Variable w : ndarray.
Variables n n_points : nat.
Variables G0 G1 : arr2 R.
Hypothesis Hd0 : dim w 0 = n.
Hypothesis Hd1 : dim w 1 = n.
Hypothesis HG0 : has_shape n n G0.
Hypothesis HG1 : has_shape n n G1.
Hypothesis Hnp : 1 <= n_points.
Hypothesis Hn : n_points + 1 <= n.

Lemma correct_slices_in_place (slices : list nat) (st st' : store) :
  valid_view st w -> NoDup slices -> Forall (fun v => v < dim w 2) slices ->
  correct_slices w n_points G0 G1 slices st = Ok st' ->
  valid_view st' w
  /\ (forall v, In v slices ->
        _gibbs_removal_2d (read_slice st w v) n_points (Some G0) (Some G1)
        = Ok (read_slice st' w v))
  /\ (forall v, v < dim w 2 -> ~ In v slices ->
        read_slice st' w v = read_slice st w v).
Proof.
  unfold correct_slices.
  revert st; induction slices as [|vi l IH]; intros st Hvalid Hnd Hlt Hrun;
    cbn [foldM] in Hrun.
  - injection Hrun as <-. split; [exact Hvalid|].
    split; [intros v []|reflexivity].
  - apply NoDup_cons_iff in Hnd. destruct Hnd as [Hnotin Hnd'].
    apply Forall_cons_iff in Hlt. destruct Hlt as [Hvi Hlt'].
    destruct (@gibbs_removal_2d_ok (read_slice st w vi) G0 G1 n_points n n)
      as (r & Er & Hr & Hwf); try assumption.
    { unfold read_slice. rewrite Hd0, Hd1. apply has_shape_tab. }
    rewrite Er in Hrun. cbn [bind] in Hrun.
    assert (Hr' : has_shape (dim w 0) (dim w 1) r) by (rewrite Hd0, Hd1; exact Hr).
    destruct (write_slice st w vi r) as [st1|e] eqn:Ew; cbn [bind] in Hrun;
      [|discriminate].
    pose proof (@valid_view_written st w vi r st1 Hvalid Hr' Ew) as Hvalid1.
    destruct (IH st1 Hvalid1 Hnd' Hlt' Hrun) as (Hv' & Hdone & Hrest).
    split; [exact Hv'|]. split.
    + intros v [<- | Hin].
      * rewrite (Hrest vi Hvi Hnotin).
        rewrite (read_written_slice Hvalid Hvi Hr' Ew Hwf). exact Er.
      * rewrite <- (Hdone v Hin).
        rewrite (read_other_slice Hvalid Hvi Hr' Ew); [reflexivity| |].
        -- rewrite Forall_forall in Hlt'. apply Hlt'. exact Hin.
        -- intros ->. contradiction.
    + intros v Hv Hnot.
      rewrite Hrest by (try assumption; intros Hin; apply Hnot; right; exact Hin).
      apply (read_other_slice Hvalid Hvi Hr' Ew); [exact Hv|].
      intros ->. apply Hnot. left; reflexivity.
Qed.
End InPlace.

(** ** C-contiguous arrays are addressed properly *)

Lemma radix2_inj (d x y x' y' : nat) :
  y < d -> y' < d -> x * d + y = x' * d + y' -> x = x' /\ y = y'.
Proof.
  intros Hy Hy' E.
  assert (Hx : x = x').
  { rewrite <- (flat_index_div x Hy), <- (flat_index_div x' Hy'), E.
    reflexivity. }
  subst x'. split; [reflexivity|lia].
Qed.

Lemma radix3_inj (d1 d2 a b c a' b' c' : nat) :
  b < d1 -> c < d2 -> b' < d1 -> c' < d2 ->
  a * (d1 * d2) + b * d2 + c = a' * (d1 * d2) + b' * d2 + c' ->
  a = a' /\ b = b' /\ c = c'.
Proof.
  intros Hb Hc Hb' Hc' E.
  destruct (@radix2_inj d2 (a * d1 + b) c (a' * d1 + b') c' Hc Hc') as [E1 E2];
    [lia|].
  destruct (@radix2_inj d1 a b a' b' Hb Hb' E1) as [Ea Eb].
  repeat split; assumption.
Qed.

Lemma radix3_lt (d0 d1 d2 a b c : nat) :
  a < d0 -> b < d1 -> c < d2 -> a * (d1 * d2) + b * d2 + c < d0 * d1 * d2.
Proof.
  intros Ha Hb Hc.
  assert (H1 : b * d2 + c < d1 * d2) by (apply flat_index_lt; assumption).
  assert (H2 : a * (d1 * d2) + (b * d2 + c) < d0 * (d1 * d2))
    by (apply flat_index_lt; assumption).
  lia.
Qed.

(** A rank-3 array in C order, seen with its slice axis brought to
    position 2. *)
Lemma valid_view_c3 (st : store) (b d0 d1 d2 slice_axis : nat) :
  b < length st -> length (buffer st b) = d0 * d1 * d2 -> slice_axis <= 2 ->
  valid_view st (working_view (c_contiguous b [d0; d1; d2]) slice_axis).
Proof.
  intros Hb Hlen Hax.
  destruct slice_axis as [|[|[|k]]]; try lia;
    unfold valid_view, working_view, c_contiguous, addr3, dim, stride;
    cbn [Nat.ltb Nat.leb base offset shape strides c_strides fold_right
         swap_nth upd nth];
    (split; [exact Hb|]); rewrite Hlen; split.
  - intros i j k Hi Hj Hk.
    pose proof (@radix3_lt d0 d1 d2 k j i Hk Hj Hi). lia.
  - intros i j k i' j' k' Hi Hj Hk Hi' Hj' Hk' E.
    destruct (@radix3_inj d1 d2 k j i k' j' i' Hj Hi Hj' Hi') as (? & ? & ?);
      [lia|]. repeat split; assumption.
  - intros i j k Hi Hj Hk.
    pose proof (@radix3_lt d0 d1 d2 i k j Hi Hk Hj). lia.
  - intros i j k i' j' k' Hi Hj Hk Hi' Hj' Hk' E.
    destruct (@radix3_inj d1 d2 i k j i' k' j' Hk Hj Hk' Hj') as (? & ? & ?);
      [lia|]. repeat split; assumption.
  - intros i j k Hi Hj Hk.
    pose proof (@radix3_lt d0 d1 d2 i j k Hi Hj Hk). lia.
  - intros i j k i' j' k' Hi Hj Hk Hi' Hj' Hk' E.
    destruct (@radix3_inj d1 d2 i j k i' j' k' Hj Hk Hj' Hk') as (? & ? & ?);
      [lia|]. repeat split; assumption.
Qed.

(** ** [gibbs_removal]: images too small for the window *)

Lemma gibbs_removal_rank2_short st vol n n_points :
  ndim vol = 2 -> dim vol 0 = n -> dim vol 1 = n ->
  1 <= n -> n <= n_points -> 2 * n_points + 3 <= 3 * n ->
  gibbs_removal st vol 2 n_points = Err BoolIndexError.
Proof.
  intros Hnd Hd0 Hd1 Hn Hshort Hwide. unfold gibbs_removal. rewrite Hnd.
  cbn [Nat.ltb Nat.leb Nat.eqb andb bind].
  change (nth 0 (shape vol) 0) with (dim vol 0).
  change (nth 1 (shape vol) 0) with (dim vol 1).
  rewrite Hd0, Hd1, weights_square by lia. cbn [bind].
  rewrite (@gibbs_removal_2d_short (read2 st vol) n_points _ _ n n);
    try assumption; [reflexivity|].
  unfold read2. rewrite Hd0, Hd1. apply has_shape_tab.
Qed.

(** ** [gibbs_removal]: success on ranks 3 and 4 *)

Lemma plane_working_view vol slice_axis n :
  2 < ndim vol -> slice_axis <= 2 -> plane vol slice_axis = (n, n) ->
  dim (working_view vol slice_axis) 0 = n
  /\ dim (working_view vol slice_axis) 1 = n.
Proof.
  intros Hnd Hax Hpl. unfold plane, working_view, dim in *.
  destruct (Nat.ltb_spec 2 (ndim vol)); [|lia].
  destruct (Nat.ltb_spec slice_axis 2); cbn [andb shape] in *;
    injection Hpl as -> ->; split; reflexivity.
Qed.

Lemma gibbs_removal_rank3_ok st vol slice_axis n_points n :
  ndim vol = 3 -> wf_nd vol -> slice_axis <= 2 ->
  plane vol slice_axis = (n, n) -> 1 <= n_points -> n_points + 1 <= n ->
  exists st', gibbs_removal st vol slice_axis n_points = Ok (st', vol)
              /\ length st' = length st
              /\ (forall b, b <> base vol -> buffer st' b = buffer st b).
Proof.
  intros Hnd Hwf Hax Hpl Hnp Hn.
  rewrite (gibbs_removal_rank3 st Hnd Hwf Hax Hpl Hnp Hn).
  destruct (@plane_working_view vol slice_axis n) as [Hd0 Hd1];
    try assumption; try lia.
  destruct (@correct_slices_ok (working_view vol slice_axis) n n_points
              (tab n n (g0_at n n)) (tab n n (g1_at n n)) Hd0 Hd1
              (has_shape_tab _ _ _) (has_shape_tab _ _ _) Hnp Hn
              (seq 0 (dim (working_view vol slice_axis) 2)) st)
    as (st' & E & Hlen & Hoth).
  rewrite E. cbn [bind]. exists st'. split; [reflexivity|].
  split; [exact Hlen|].
  intros b Hb. apply Hoth. unfold working_view.
  destruct (slice_axis <? 2); exact Hb.
Qed.

Lemma gibbs_removal_rank4_ok st vol slice_axis n_points n :
  ndim vol = 4 -> wf_nd vol -> slice_axis <= 2 ->
  plane vol slice_axis = (n, n) -> 1 <= n_points -> n_points + 1 <= n ->
  exists st' r, gibbs_removal st vol slice_axis n_points = Ok (st', r)
                /\ shape r = shape vol.
Proof.
  intros Hnd Hwf Hax Hpl Hnp Hn.
  destruct (gibbs_removal_rank4 st Hnd Hwf Hax Hpl Hnp Hn)
    as (E & Hd0 & Hd1 & Hsh & _).
  cbv zeta in E. rewrite E.
  destruct (@correct_slices_ok (snd (flatten st (working_view vol slice_axis)))
              n n_points (tab n n (g0_at n n)) (tab n n (g1_at n n)) Hd0 Hd1
              (has_shape_tab _ _ _) (has_shape_tab _ _ _) Hnp Hn
              (seq 0 (dim (snd (flatten st (working_view vol slice_axis))) 2))
              (fst (flatten st (working_view vol slice_axis))))
    as (st' & Es & _).
  rewrite Es. cbn [bind]. do 2 eexists. split; [reflexivity|exact Hsh].
Qed.

(** ** Where the result of [gibbs_removal] lives *)

Lemma base_working_view vol slice_axis :
  base (working_view vol slice_axis) = base vol.
Proof. unfold working_view. destruct (slice_axis <? 2); reflexivity. Qed.

Lemma buffer_app_old (st : store) (buf : list R) (b : nat) :
  b < length st -> buffer (st ++ [buf]) b = buffer st b.
Proof. intros Hb. unfold buffer. apply app_nth1. exact Hb. Qed.

Lemma flatten_in_place st w :
  ndim w = 4 -> wf_nd w -> flattens_in_place w = true ->
  fst (flatten st w) = st /\ base (snd (flatten st w)) = base w.
Proof.
  intros Hnd Hwf Hfl. destruct w as [b o sh str].
  unfold ndim, wf_nd in *. cbn [shape strides] in *.
  destruct sh as [|a [|b' [|c [|d [|? ?]]]]]; try discriminate Hnd.
  destruct str as [|s0 [|s1 [|s2 [|s3 [|? ?]]]]]; try discriminate Hwf.
  unfold flattens_in_place in Hfl. cbn [shape strides] in Hfl.
  unfold flatten, dim, reshape. cbn [shape strides nth base].
  rewrite !Nat.eqb_refl, Hfl. cbn [andb fst snd base]. split; reflexivity.
Qed.

Lemma flatten_copies st w :
  ndim w = 4 -> wf_nd w -> flattens_in_place w = false ->
  (exists buf, fst (flatten st w) = st ++ [buf])
  /\ base (snd (flatten st w)) = length st.
Proof.
  intros Hnd Hwf Hfl. destruct w as [b o sh str].
  unfold ndim, wf_nd in *. cbn [shape strides] in *.
  destruct sh as [|a [|b' [|c [|d [|? ?]]]]]; try discriminate Hnd.
  destruct str as [|s0 [|s1 [|s2 [|s3 [|? ?]]]]]; try discriminate Hwf.
  unfold flattens_in_place in Hfl. cbn [shape strides] in Hfl.
  unfold flatten, dim, reshape. cbn [shape strides nth base].
  rewrite !Nat.eqb_refl, Hfl. cbn [andb fst snd base].
  split; [eexists; reflexivity|reflexivity].
Qed.

Lemma ndim_working_view vol slice_axis :
  ndim (working_view vol slice_axis) = ndim vol.
Proof.
  unfold working_view, ndim. destruct (slice_axis <? 2); [|reflexivity].
  cbn [shape]. apply length_swap_nth.
Qed.

Lemma wf_working_view vol slice_axis :
  wf_nd vol -> wf_nd (working_view vol slice_axis).
Proof.
  unfold working_view, wf_nd. intros Hwf. destruct (slice_axis <? 2);
    [|exact Hwf].
  cbn [shape strides]. rewrite !length_swap_nth. exact Hwf.
Qed.

Section Aliasing.
Variable st : store.
Variable vol : ndarray.
Variables slice_axis n_points n : nat.
Hypothesis Hwf : wf_nd vol.
Hypothesis Hax : slice_axis <= 2.
Hypothesis Hpl : plane vol slice_axis = (n, n).
Hypothesis Hnp : 1 <= n_points.
Hypothesis Hn : n_points + 1 <= n.

Local Notation "'G0'" := (tab n n (g0_at n n)).
Local Notation "'G1'" := (tab n n (g1_at n n)).

(** Rank 3: the slices are corrected inside the caller's buffer, and the
    caller's view itself is returned. *)
Lemma gibbs_removal_rank3_in_place :
  ndim vol = 3 -> valid_view st (working_view vol slice_axis) ->
  exists st',
    gibbs_removal st vol slice_axis n_points = Ok (st', vol)
    /\ length st' = length st
    /\ (forall b, b <> base vol -> buffer st' b = buffer st b)
    /\ (forall v, v < dim (working_view vol slice_axis) 2 ->
          _gibbs_removal_2d (read_slice st (working_view vol slice_axis) v)
                            n_points (Some G0) (Some G1)
          = Ok (read_slice st' (working_view vol slice_axis) v)).
Proof.
  intros Hnd Hvalid.
  destruct (gibbs_removal_rank3_ok st Hnd Hwf Hax Hpl Hnp Hn)
    as (st' & E & Hlen & Hoth).
  exists st'. split; [exact E|]. split; [exact Hlen|]. split; [exact Hoth|].
  rewrite (gibbs_removal_rank3 st Hnd Hwf Hax Hpl Hnp Hn) in E.
  destruct (correct_slices _ _ _ _ _ _) as [st2|e] eqn:Ecs; cbn [bind] in E;
    [|discriminate].
  injection E as ->.
  destruct (@plane_working_view vol slice_axis n) as [Hd0 Hd1];
    try assumption; try lia.
  destruct (@correct_slices_in_place (working_view vol slice_axis) n n_points
              G0 G1 Hd0 Hd1 (has_shape_tab _ _ _) (has_shape_tab _ _ _)
              Hnp Hn (seq 0 (dim (working_view vol slice_axis) 2)) st st'
              Hvalid (seq_NoDup _ _))
    as (_ & Hdone & _); [|exact Ecs|].
  - apply Forall_forall. intros v Hv. apply in_seq in Hv. lia.
  - intros v Hv. apply Hdone. apply in_seq. lia.
Qed.

(** Rank 4, flattened in place: the result is again a view of the
    caller's buffer. *)
Lemma gibbs_removal_rank4_in_place :
  ndim vol = 4 -> flattens_in_place (working_view vol slice_axis) = true ->
  exists st' r,
    gibbs_removal st vol slice_axis n_points = Ok (st', r)
    /\ base r = base vol /\ shape r = shape vol
    /\ length st' = length st
    /\ (forall b, b <> base vol -> buffer st' b = buffer st b).
Proof.
  intros Hnd Hfl.
  destruct (gibbs_removal_rank4 st Hnd Hwf Hax Hpl Hnp Hn)
    as (E & Hd0 & Hd1 & Hsh & Hbase).
  cbv zeta in E.
  destruct (@flatten_in_place st (working_view vol slice_axis)) as [Hst Hb];
    [rewrite ndim_working_view; exact Hnd|apply wf_working_view; exact Hwf
    |exact Hfl|].
  rewrite Hst in E.
  destruct (@correct_slices_ok (snd (flatten st (working_view vol slice_axis)))
              n n_points G0 G1 Hd0 Hd1
              (has_shape_tab _ _ _) (has_shape_tab _ _ _) Hnp Hn
              (seq 0 (dim (snd (flatten st (working_view vol slice_axis))) 2)) st)
    as (st' & Es & Hlen & Hoth).
  rewrite Es in E. cbn [bind] in E.
  do 2 eexists. split; [exact E|].
  rewrite Hbase, Hb, base_working_view.
  split; [reflexivity|]. split; [exact Hsh|]. split; [exact Hlen|].
  intros b Hne. apply Hoth. rewrite Hb, base_working_view. exact Hne.
Qed.

(** Rank 4, not flattened in place: [reshape] copies, the slices are
    corrected in the copy, and no buffer of the caller is written. *)
Lemma gibbs_removal_rank4_copy :
  ndim vol = 4 -> flattens_in_place (working_view vol slice_axis) = false ->
  exists st' r,
    gibbs_removal st vol slice_axis n_points = Ok (st', r)
    /\ base r = length st /\ shape r = shape vol
    /\ (forall b, b < length st -> buffer st' b = buffer st b).
Proof.
  intros Hnd Hfl.
  destruct (gibbs_removal_rank4 st Hnd Hwf Hax Hpl Hnp Hn)
    as (E & Hd0 & Hd1 & Hsh & Hbase).
  cbv zeta in E.
  destruct (@flatten_copies st (working_view vol slice_axis))
    as [[buf Hst] Hb];
    [rewrite ndim_working_view; exact Hnd|apply wf_working_view; exact Hwf
    |exact Hfl|].
  rewrite Hst in E.
  destruct (@correct_slices_ok (snd (flatten st (working_view vol slice_axis)))
              n n_points G0 G1 Hd0 Hd1
              (has_shape_tab _ _ _) (has_shape_tab _ _ _) Hnp Hn
              (seq 0 (dim (snd (flatten st (working_view vol slice_axis))) 2))
              (st ++ [buf]))
    as (st' & Es & Hlen & Hoth).
  rewrite Es in E. cbn [bind] in E.
  do 2 eexists. split; [exact E|].
  rewrite Hbase, Hb.
  split; [reflexivity|]. split; [exact Hsh|].
  intros b Hlt. rewrite Hoth by (rewrite Hb; lia).
  apply buffer_app_old. exact Hlt.
Qed.
End Aliasing.

(** ** [_image_tv] along axis 0 *)

Lemma image_tv_axis0 (x : arr2 R) (n_points : nat) :
  _image_tv x 0 n_points
  = ('(p, n) <- _image_tv (transpose x) 1 n_points ;;
     Ok (transpose p, transpose n)).
Proof.
  unfold _image_tv. cbn [Nat.eqb]. unfold copy.
  destruct (concatenate1 _ _ _) as [xs|e]; cbn [bind]; [|reflexivity].
  destruct (rsub _ _) as [d1|e]; cbn [bind]; [|reflexivity].
  destruct (rsub _ _) as [d2|e]; cbn [bind]; [|reflexivity].
  destruct (foldM _ _ _) as [[p n]|e]; cbn [bind]; reflexivity.
Qed.

Lemma transpose_tab {A} `{Dflt A} M N (f : nat -> nat -> A) :
  transpose (tab M N f) = tab N M (fun i j => f j i).
Proof.
  unfold transpose. rewrite nrow_tab, ncol_tab.
  apply tab_ext. intros i j Hi Hj. apply get_tab; assumption.
Qed.

(** ** Shapes of the shift fields, whatever the input *)



Lemma entries_get_dflt {A} `{Dflt A} (P : A -> Prop) (m : arr2 A) i j :
  entries P m -> P dflt -> P (get m i j).
Proof.
  intros HP Hd. unfold get.
  destruct (nth_in_or_default (i * ncol m + j) (dat m) dflt) as [Hin | ->].
  - eapply Forall_forall; eassumption.
  - exact Hd.
Qed.

Lemma firstn_incl {A} (k : nat) (l : list A) (x : A) :
  In x (firstn k l) -> In x l.
Proof.
  revert l; induction k as [|k IH]; intros [|y l] Hin; simpl in *;
    try contradiction.
  destruct Hin as [-> | Hin]; [left; reflexivity|right; apply IH; exact Hin].
Qed.


(** ** C-contiguous rank-4 arrays *)

Lemma c_contiguous_flattens b d0 d1 d2 d3 :
  flattens_in_place (working_view (c_contiguous b [d0; d1; d2; d3]) 2) = true.
Proof.
  unfold working_view, c_contiguous, flattens_in_place.
  cbn [Nat.ltb Nat.leb shape strides c_strides fold_right].
  rewrite Nat.eqb_refl. apply orb_true_r.
Qed.

(** ** Masked assignment, entry by entry *)

Lemma nth_put_take {A} (l src : list A) (m : list bool) (k : nat) (d : A) :
  length l = length m -> length src = length m -> k < length m ->
  nth k (put_mask l m (take_mask src m)) d
  = if nth k m false then nth k src d else nth k l d.
Proof.
  revert src m k. induction l as [|x l IH]; intros src m k Hl Hs Hk.
  - simpl in Hl. rewrite <- Hl in Hk. inversion Hk.
  - destruct m as [|b m]; [discriminate|].
    destruct src as [|y src]; [discriminate|].
    simpl in Hl, Hs, Hk. injection Hl as Hl. injection Hs as Hs.
    destruct b; simpl; (destruct k; [reflexivity|]); apply IH;
      solve [assumption | lia].
Qed.

Lemma nth_fill_mask {A} (l : list A) (m : list bool) (s : A) (k : nat) (d : A) :
  length l = length m -> k < length m ->
  nth k (fill_mask l m s) d = if nth k m false then s else nth k l d.
Proof.
  revert m k. induction l as [|x l IH]; intros m k Hl Hk.
  - simpl in Hl. rewrite <- Hl in Hk. inversion Hk.
  - destruct m as [|b m]; [discriminate|].
    simpl in Hl, Hk. injection Hl as Hl. simpl.
    destruct k; [destruct b; reflexivity|]. apply IH; [assumption|lia].
Qed.

Lemma length_fill_mask {A} (l : list A) (m : list bool) (s : A) :
  length (fill_mask l m s) = length l.
Proof.
  revert m. induction l as [|x l IH]; intros [|b m]; simpl;
    try reflexivity. rewrite IH. reflexivity.
Qed.

Lemma nth_flat_get {A} `{Dflt A} (a : arr2 A) (N k : nat) :
  ncol a = N -> nth k (dat a) dflt = get a (k / N) (k mod N).
Proof.
  intros HN. unfold get. rewrite HN. f_equal.
  pose proof (Nat.div_mod_eq k N). lia.
Qed.

Lemma eq_tab_of_nth {A} `{Dflt A} M N (l : list A) (f : nat -> nat -> A) :
  length l = M * N ->
  (forall k, k < M * N -> nth k l dflt = f (k / N) (k mod N)) ->
  mk_arr2 M N l = tab M N f.
Proof.
  intros Hlen Hnth. unfold tab. f_equal.
  apply (nth_ext _ _ dflt dflt).
  - rewrite length_map, length_seq. exact Hlen.
  - intros k Hk. rewrite Hlen in Hk. rewrite nth_map_seq by exact Hk.
    apply Hnth. exact Hk.
Qed.

Lemma dat_tab_length {A} M N (f : nat -> nat -> A) :
  length (dat (tab M N f)) = M * N.
Proof. simpl. rewrite length_map, length_seq. reflexivity. Qed.

Lemma assign_where_gt_tab (dst a b src : arr2 R) M N :
  has_shape M N dst -> has_shape M N a -> has_shape M N b ->
  has_shape M N src -> wf dst -> wf src ->
  assign_where_gt dst a b src
  = Ok (tab M N (fun i j => if Rgtb (get a i j) (get b i j)
                            then get src i j else get dst i j)).
Proof.
  intros [Hd1 Hd2] Ha Hb [Hs1 Hs2] Wd Ws. unfold assign_where_gt.
  rewrite (gt_same Ha Hb). cbn [bind].
  unfold getmask.
  rewrite bool_index_ok_same by (rewrite ?nrow_tab, ?ncol_tab; assumption).
  cbn [bind]. unfold setmask.
  rewrite bool_index_ok_same by (rewrite ?nrow_tab, ?ncol_tab; assumption).
  unfold wf in Wd, Ws. rewrite Hd1, Hd2 in Wd. rewrite Hs1, Hs2 in Ws.
  rewrite length_take_mask by (rewrite dat_tab_length; lia).
  rewrite Nat.eqb_refl, Hd1, Hd2. f_equal.
  apply eq_tab_of_nth.
  - rewrite length_put_mask. exact Wd.
  - intros k Hk.
    rewrite nth_put_take by (rewrite ?dat_tab_length; assumption).
    simpl dat at 1. rewrite nth_map_seq by exact Hk.
    rewrite (nth_flat_get src k Hs2), (nth_flat_get dst k Hd2). reflexivity.
Qed.

Lemma fill_where_gt_tab (dst a b : arr2 R) (s : R) M N :
  has_shape M N dst -> has_shape M N a -> has_shape M N b -> wf dst ->
  fill_where_gt dst a b s
  = Ok (tab M N (fun i j => if Rgtb (get a i j) (get b i j)
                            then s else get dst i j)).
Proof.
  intros [Hd1 Hd2] Ha Hb Wd. unfold fill_where_gt.
  rewrite (gt_same Ha Hb). cbn [bind]. unfold fillmask.
  rewrite bool_index_ok_same by (rewrite ?nrow_tab, ?ncol_tab; assumption).
  unfold wf in Wd. rewrite Hd1, Hd2 in Wd. rewrite Hd1, Hd2. f_equal.
  apply eq_tab_of_nth.
  - rewrite length_fill_mask. exact Wd.
  - intros k Hk.
    rewrite nth_fill_mask by (rewrite ?dat_tab_length; assumption).
    simpl dat at 1. rewrite nth_map_seq by exact Hk.
    rewrite (nth_flat_get dst k Hd2). reflexivity.
Qed.

Lemma Rgtb_true (x y : R) : Rgtb x y = true -> (y < x)%R.
Proof. unfold Rgtb. destruct (Rlt_dec y x); [trivial|discriminate]. Qed.

Lemma Rgtb_false (x y : R) : Rgtb x y = false -> (x <= y)%R.
Proof. unfold Rgtb. destruct (Rlt_dec y x); [discriminate|lra]. Qed.

(** ** What the shift search records *)

Lemma tv_min_nonneg x n_points i j : (0 <= tv_min x n_points i j)%R.
Proof.
  unfold tv_min. apply Rmin_glb; [apply ptv_at_nonneg|apply ntv_at_nonneg].
Qed.

Section SearchRecord.
Variables M N n_points : nat.
Hypothesis HM : 1 <= M.
Hypothesis Hnp : 1 <= n_points.
Hypothesis HN : n_points + 1 <= N.

(** One pass of the loop, entry by entry: where the stored score is
    above the score of the trial image, the trial image, the trial shift
    and the trial score are taken; elsewhere nothing changes. *)
Lemma search_step_tab (c : arr2 C) (st : search) (s : R) :
  has_shape M N c -> search_shape M N st -> search_wf st ->
  exists img_p img_n,
    shifted_image c (map (fun z => cexp (cscale z s)) (phase_ramp N))
    = Ok img_p
    /\ shifted_image c (map (fun z => cexp (cscale (cneg z) s)) (phase_ramp N))
       = Ok img_n
    /\ has_shape M N img_p /\ has_shape M N img_n
    /\ search_step c (phase_ramp N) n_points st s
    = Ok (mk_search
            (tab M N (fun i j =>
               if Rgtb (get (tvp st) i j) (tv_min img_p n_points i j)
               then get img_p i j else get (isp st) i j))
            (tab M N (fun i j =>
               if Rgtb (get (tvn st) i j) (tv_min img_n n_points i j)
               then get img_n i j else get (isn st) i j))
            (tab M N (fun i j =>
               if Rgtb (get (tvp st) i j) (tv_min img_p n_points i j)
               then s else get (sp st) i j))
            (tab M N (fun i j =>
               if Rgtb (get (tvn st) i j) (tv_min img_n n_points i j)
               then s else get (sn st) i j))
            (tab M N (fun i j =>
               if Rgtb (get (tvp st) i j) (tv_min img_p n_points i j)
               then tv_min img_p n_points i j else get (tvp st) i j))
            (tab M N (fun i j =>
               if Rgtb (get (tvn st) i j) (tv_min img_n n_points i j)
               then tv_min img_n n_points i j else get (tvn st) i j))).
Proof.
  intros Hc (Hisp & Hisn & Hsp & Hsn & Htvp & Htvn)
         (Wisp & Wisn & Wsp & Wsn & Wtvp & Wtvn).
  unfold search_step.
  destruct (@shifted_image_ok c (map (fun z => cexp (cscale z s)) (phase_ramp N)) M N)
    as [gp Hgp]; try assumption; try lia.
  { rewrite length_map. apply length_phase_ramp. }
  destruct (@shifted_image_ok c (map (fun z => cexp (cscale (cneg z) s)) (phase_ramp N)) M N)
    as [gn Hgn]; try assumption; try lia.
  { rewrite length_map. apply length_phase_ramp. }
  exists (tab M N gp), (tab M N gn).
  split; [exact Hgp|]. split; [exact Hgn|].
  split; [apply has_shape_tab|]. split; [apply has_shape_tab|].
  rewrite Hgp. cbn [bind].
  rewrite image_tv_axis1 by (try discriminate; rewrite ?ncol_tab; lia).
  cbn [bind]. unfold minimum. rewrite zip2_tab. cbn [bind].
  rewrite Hgn. cbn [bind].
  rewrite image_tv_axis1 by (try discriminate; rewrite ?ncol_tab; lia).
  cbn [bind]. rewrite zip2_tab. cbn [bind].
  rewrite !nrow_tab, !ncol_tab.
  fold (tv_min (tab M N gp) n_points). fold (tv_min (tab M N gn) n_points).
  set (tvs_p := tab M N (tv_min (tab M N gp) n_points)).
  set (tvs_n := tab M N (tv_min (tab M N gn) n_points)).
  assert (Hp : has_shape M N tvs_p) by apply has_shape_tab.
  assert (Hn : has_shape M N tvs_n) by apply has_shape_tab.
  assert (Wp : wf tvs_p) by apply wf_tab.
  assert (Wn : wf tvs_n) by apply wf_tab.
  rewrite (@assign_where_gt_tab (isp st) (tvp st) tvs_p (tab M N gp) M N);
    auto using has_shape_tab, wf_tab.
  cbn [bind].
  rewrite (@fill_where_gt_tab (sp st) (tvp st) tvs_p s M N); auto.
  cbn [bind].
  rewrite (@assign_where_gt_tab (tvp st) (tvp st) tvs_p tvs_p M N); auto.
  cbn [bind].
  rewrite (@assign_where_gt_tab (isn st) (tvn st) tvs_n (tab M N gn) M N);
    auto using has_shape_tab, wf_tab.
  cbn [bind].
  rewrite (@fill_where_gt_tab (sn st) (tvn st) tvs_n s M N); auto.
  cbn [bind].
  rewrite (@assign_where_gt_tab (tvn st) (tvn st) tvs_n tvs_n M N); auto.
  cbn [bind].
  f_equal. f_equal; apply tab_ext; intros i j Hi Hj;
    unfold tvs_p, tvs_n; rewrite ?get_tab by assumption; reflexivity.
Qed.

Variable xs : arr2 R.
Hypothesis Hxs : has_shape M N xs.
Hypothesis Wxs : wf xs.
Variable P : R -> Prop.

Local Notation "'record_inv'" := (search_recorded M N n_points xs P).

Lemma recorded_step (s_f is_f tv_f img : arr2 R) (s : R) i j :
  i < M -> j < N -> P s ->
  recorded P xs n_points s_f is_f tv_f i j ->
  recorded P xs n_points
    (tab M N (fun i j => if Rgtb (get tv_f i j) (tv_min img n_points i j)
                         then s else get s_f i j))
    (tab M N (fun i j => if Rgtb (get tv_f i j) (tv_min img n_points i j)
                         then get img i j else get is_f i j))
    (tab M N (fun i j => if Rgtb (get tv_f i j) (tv_min img n_points i j)
                         then tv_min img n_points i j else get tv_f i j))
    i j.
Proof.
  intros Hi Hj Hs Hrec. unfold recorded. rewrite !get_tab by assumption.
  destruct (Rgtb (get tv_f i j) (tv_min img n_points i j)) eqn:E.
  - right. split; [exact Hs|]. apply Rgtb_true in E.
    pose proof (tv_min_nonneg img n_points i j).
    destruct Hrec as [(_ & _ & Htv) | (_ & Htv)]; lra.
  - exact Hrec.
Qed.

Lemma record_inv_step (c : arr2 C) (st st' : search) (s : R) :
  has_shape M N c -> P s -> record_inv st ->
  search_step c (phase_ramp N) n_points st s = Ok st' -> record_inv st'.
Proof.
  intros Hc Hs (Hsh & Hwf & Hrec) Hrun.
  destruct (search_step_tab s Hc Hsh Hwf)
    as (img_p & img_n & _ & _ & _ & _ & E).
  rewrite E in Hrun. injection Hrun as <-.
  split; [|split].
  - repeat split.
  - repeat split; apply wf_tab.
  - intros i j Hi Hj. destruct (Hrec i j Hi Hj) as [Rp Rn]. cbn [sp isp tvp sn isn tvn].
    split; apply recorded_step; assumption.
Qed.

Lemma record_inv_loop (shifts : list R) :
  Forall P shifts ->
  exists st, search_loop xs n_points shifts = Ok st /\ record_inv st.
Proof.
  intros Hsh.
  destruct (@search_loop_ok M N n_points HM Hnp HN xs shifts Hxs) as (st & E & _).
  exists st. split; [exact E|].
  unfold search_loop in E.
  destruct (@search_init_ok M N n_points HM Hnp HN xs Hxs) as (c & Hc & Ei).
  rewrite Ei in E. cbn [bind] in E.
  destruct Hxs as [Hrow Hcol]. rewrite Hcol in E.
  refine (@foldM_invariant R search record_inv P _ _ shifts _ st Hsh _ E).
  - intros s0 a s' Hinv Ha Hstep. exact (record_inv_step Hc Ha Hinv Hstep).
  - split; [|split].
    + repeat split; simpl; assumption.
    + repeat split; simpl; try assumption; apply wf_tab.
    + intros i j Hi Hj. cbn [sp isp tvp sn isn tvn].
      split; left; unfold zeros; cbn [fst snd]; rewrite !get_tab by assumption;
        repeat split; reflexivity.
Qed.
End SearchRecord.

(** ** The interpolation, entry by entry *)

Lemma NoDup_map_on {A B} (g : A -> B) (l : list A) :
  (forall x y, In x l -> In y l -> g x = g y -> x = y) ->
  NoDup l -> NoDup (map g l).
Proof.
  induction l as [|a l IH]; intros Hinj Hnd; simpl; [constructor|].
  apply NoDup_cons_iff in Hnd. destruct Hnd as [Hnotin Hnd].
  constructor.
  - intros Hin. apply in_map_iff in Hin. destruct Hin as (y & Hy & Hyl).
    apply Hnotin. rewrite <- (Hinj y a); [exact Hyl|right; exact Hyl|left; reflexivity|exact Hy].
  - apply IH; [|exact Hnd].
    intros x y Hx Hy. apply Hinj; right; assumption.
Qed.

Lemma nonzero_NoDup (a : arr2 R) : NoDup (nonzero a).
Proof.
  unfold nonzero. apply NoDup_filter. apply NoDup_map_on; [|apply seq_NoDup].
  intros x y _ _ Heq. injection Heq as Hd Hm.
  pose proof (Nat.div_mod_eq x (ncol a)). pose proof (Nat.div_mod_eq y (ncol a)).
  congruence.
Qed.

Lemma combine_map_r {A B} (F : A -> B) (l : list A) :
  combine l (map F l) = map (fun p => (p, F p)) l.
Proof. induction l as [|a l IH]; simpl; [reflexivity|]. rewrite IH. reflexivity. Qed.

(** [a[idx] = F(idx)] for a list of distinct index pairs: the entries of
    [idx] receive their value, the others keep theirs. *)
Lemma scatter_tab {A} `{Dflt A} (a : arr2 A) (idx : list (nat * nat))
  (F : nat * nat -> A) (sel : nat -> nat -> bool) M N :
  has_shape M N a -> wf a -> NoDup idx ->
  Forall (fun p => fst p < M /\ snd p < N) idx ->
  (forall i j, i < M -> j < N -> (sel i j = true <-> In (i, j) idx)) ->
  scatter a idx (map F idx)
  = Ok (tab M N (fun i j => if sel i j then F (i, j) else get a i j)).
Proof.
  intros [H1 H2] Wa Hnd Hidx Hsel. unfold scatter.
  replace (forallb _ idx) with true.
  2:{ symmetry. apply forallb_forall. intros p Hp.
      rewrite Forall_forall in Hidx. destruct (Hidx p Hp) as [Hi Hj].
      rewrite H1, H2.
      destruct (Nat.ltb_spec (fst p) M); [|lia].
      destruct (Nat.ltb_spec (snd p) N); [|lia]. reflexivity. }
  rewrite length_map, Nat.eqb_refl, H1, H2. f_equal.
  rewrite combine_map_r.
  unfold wf in Wa. rewrite H1, H2 in Wa.
  set (l := map (fun p : nat * nat => (p, F p)) idx).
  set (addr := fun pv : nat * nat * A => fst (fst pv) * N + snd (fst pv)).
  change (fold_left _ l (dat a))
    with (fold_left (fun d pv => upd d (addr pv) (snd pv)) l (dat a)).
  apply eq_tab_of_nth.
  - rewrite length_fold_upd. exact Wa.
  - intros k Hk.
    assert (Hi : k / N < M) by (apply flat_div_lt; exact Hk).
    assert (Hj : k mod N < N) by (apply flat_mod_lt with (M := M); exact Hk).
    assert (Ek : k = k / N * N + k mod N)
      by (pose proof (Nat.div_mod_eq k N); lia).
    destruct (sel (k / N) (k mod N)) eqn:Es.
    + apply (Hsel _ _ Hi Hj) in Es.
      assert (Hin : In ((k / N, k mod N), F (k / N, k mod N)) l).
      { unfold l. apply in_map_iff. eexists; split; [reflexivity|exact Es]. }
      replace k with (addr ((k / N, k mod N), F (k / N, k mod N))) at 1
        by (unfold addr; cbn [fst snd]; symmetry; exact Ek).
      rewrite fold_upd_hit; [reflexivity|exact Hin| | |].
      * intros [q v] Hq Haddr. unfold l in Hq. apply in_map_iff in Hq.
        destruct Hq as (q' & Eq & Hq'). injection Eq as -> <-.
        rewrite Forall_forall in Hidx. destruct (Hidx q Hq') as [Hqi Hqj].
        unfold addr in Haddr. cbn [fst snd] in Haddr.
        destruct q as [qi qj]. cbn [fst snd] in *.
        destruct (@radix2_inj N qi qj (k / N) (k mod N) Hqj Hj Haddr) as [-> ->].
        reflexivity.
      * unfold l. apply NoDup_map_on; [|exact Hnd].
        intros x y _ _ Heq. injection Heq as ->. reflexivity.
      * unfold addr. cbn [fst snd]. rewrite <- Ek, Wa. exact Hk.
    + rewrite fold_upd_miss.
      * apply nth_flat_get. exact H2.
      * intros [q v] Hq Haddr. unfold l in Hq. apply in_map_iff in Hq.
        destruct Hq as (q' & Eq & Hq'). injection Eq as -> <-.
        rewrite Forall_forall in Hidx. destruct (Hidx q Hq') as [Hqi Hqj].
        unfold addr in Haddr. cbn [fst snd] in Haddr.
        destruct q as [qi qj]. cbn [fst snd] in *.
        rewrite Ek in Haddr.
        destruct (@radix2_inj N qi qj (k / N) (k mod N) Hqj Hj Haddr) as [-> ->].
        apply (Hsel _ _ Hi Hj) in Hq'. congruence.
Qed.

Lemma Rnonzero_true (x : R) : Rnonzero x = true <-> x <> 0%R.
Proof.
  unfold Rnonzero. destruct (Req_dec_T x 0); split; intros; try discriminate;
    try contradiction; auto.
Qed.

(** Lines 131-135 on a search state whose arrays have the shape of the
    image. *)
Lemma interpolate_tab (xs : arr2 R) (st : search) M N :
  has_shape M N xs -> wf xs -> search_shape M N st ->
  interpolate xs st
  = Ok (tab M N (fun i j =>
          if Rnonzero (get (sp st) i j + get (sn st) i j)
          then interpolated st i j else get xs i j)).
Proof.
  intros Hxs Wxs (Hisp & Hisn & Hsp & Hsn & _).
  rewrite (@interpolate_eq M N st Hisp Hisn Hsp Hsn xs). cbv zeta.
  set (sum := tab M N (fun i j => (get (sp st) i j + get (sn st) i j)%R)).
  apply (@scatter_tab R _ xs (nonzero sum)
           (fun p => interpolated st (fst p) (snd p))
           (fun i j => Rnonzero (get (sp st) i j + get (sn st) i j)) M N
           Hxs Wxs (nonzero_NoDup sum) (nonzero_in_bounds sum)).
  intros i j Hi Hj. rewrite Rnonzero_true. split.
  - intros Hne. apply nonzero_complete; try assumption.
    unfold sum. rewrite get_tab by assumption. exact Hne.
  - intros Hin. apply nonzero_spec in Hin. unfold sum in Hin.
    rewrite get_tab in Hin by assumption. exact Hin.
Qed.

(** The interpolated value is a weighted mean of the two candidates. *)
Lemma interpolated_between (a b p q : R) :
  (0 <= p)%R -> (0 <= q)%R -> (p + q <> 0)%R ->
  (Rmin a b <= (a - b) / (p + q) * q + b <= Rmax a b)%R.
Proof.
  intros Hp Hq Hne.
  assert (Hs : (0 < p + q)%R) by lra.
  set (t := (q / (p + q))%R).
  assert (Ht : (0 <= t <= 1)%R).
  { unfold t. split.
    - apply Rmult_le_pos; [exact Hq|]. left. apply Rinv_0_lt_compat. exact Hs.
    - apply (Rmult_le_reg_r (p + q)); [exact Hs|]. unfold Rdiv.
      rewrite Rmult_assoc, Rinv_l by lra. lra. }
  replace ((a - b) / (p + q) * q + b)%R with (b + (a - b) * t)%R
    by (unfold t; field; lra).
  pose proof (Rmin_l a b). pose proof (Rmin_r a b).
  pose proof (Rmax_l a b). pose proof (Rmax_r a b).
  split; nra.
Qed.

(** ** [_image_tv]: sign of the scores, and a window of no points *)

Lemma zip2_entries {A B D} `{Dflt A} `{Dflt B} (f : A -> B -> D)
  (PA : A -> Prop) (PB : B -> Prop) (PD : D -> Prop)
  (a : arr2 A) (b : arr2 B) (r : arr2 D) :
  (forall x y, PA x -> PB y -> PD (f x y)) -> PA dflt -> PB dflt ->
  entries PA a -> entries PB b -> zip2 f a b = Ok r -> entries PD r.
Proof.
  intros Hf Ha0 Hb0 Ha Hb. unfold zip2.
  destruct (bdim (nrow a) (nrow b)) as [M|]; [|discriminate].
  destruct (bdim (ncol a) (ncol b)) as [N|]; [|discriminate].
  intros E. injection E as <-. apply entries_tab. intros i j _ _.
  apply Hf; apply entries_get_dflt; assumption.
Qed.

Lemma absolute_entries (d : arr2 R) : entries nonnegative (absolute d).
Proof.
  unfold absolute, map2d. apply entries_tab. intros i j _ _. apply Rabs_pos.
Qed.

Lemma transpose_entries {A} `{Dflt A} (P : A -> Prop) (a : arr2 A) :
  P dflt -> entries P a -> entries P (transpose a).
Proof.
  intros H0 Ha. unfold transpose. apply entries_tab. intros i j _ _.
  apply entries_get_dflt; assumption.
Qed.

Lemma radd_nonneg (a b r : arr2 R) :
  entries nonnegative a -> entries nonnegative b -> radd a b = Ok r -> entries nonnegative r.
Proof.
  intros Ha Hb. unfold radd.
  apply (@zip2_entries R R R _ _ Rplus nonnegative nonnegative nonnegative); try assumption.
  - unfold nonnegative. intros x y Hx Hy. lra.
  - unfold nonnegative, dflt, Dflt_R. lra.
  - unfold nonnegative, dflt, Dflt_R. lra.
Qed.

(** Both scores are sums of absolute values. *)
Lemma image_tv_nonneg (x : arr2 R) (axis n_points : nat) (ptv ntv : arr2 R) :
  _image_tv x axis n_points = Ok (ptv, ntv) ->
  entries nonnegative ptv /\ entries nonnegative ntv.
Proof.
  unfold _image_tv. intros H. bind_inv H.
  assert (Hinv : entries nonnegative a2 /\ entries nonnegative a3).
  { refine (@foldM_invariant nat (arr2 R * arr2 R)
              (fun s => entries nonnegative (fst s) /\ entries nonnegative (snd s))
              (fun _ => True) _ _ _ _ (a2, a3) _ _ E2).
    - intros [p n] k [p' n'] [Hp Hn] _ Hstep. cbn [fst snd] in *.
      bind_inv Hstep. injection Hstep as <- <-. split.
      + eapply radd_nonneg; [exact Hp|apply absolute_entries|eassumption].
      + eapply radd_nonneg; [exact Hn|apply absolute_entries|eassumption].
    - apply Forall_forall. trivial.
    - split; apply absolute_entries. }
  destruct Hinv as [Hp Hn].
  destruct (axis =? 0); injection H as <- <-.
  - split; apply transpose_entries; try assumption;
      unfold nonnegative, dflt, Dflt_R; lra.
  - split; assumption.
Qed.

Lemma bdim_misfit (a b : nat) : a <> b -> a <> 1 -> b <> 1 -> bdim a b = None.
Proof.
  intros H1 H2 H3. unfold bdim.
  destruct (Nat.eqb_spec a b); [contradiction|].
  destruct (Nat.eqb_spec a 1); [contradiction|].
  destruct (Nat.eqb_spec b 1); [contradiction|]. reflexivity.
Qed.

Lemma zip2_misfit {A B D} `{Dflt A} `{Dflt B} (f : A -> B -> D)
  (a : arr2 A) (b : arr2 B) :
  bdim (nrow a) (nrow b) = None \/ bdim (ncol a) (ncol b) = None ->
  zip2 f a b = Err BroadcastError.
Proof.
  intros [E|E]; unfold zip2; rewrite E; [reflexivity|].
  destruct (bdim (nrow a) (nrow b)); reflexivity.
Qed.

Ltac slice_lia :=
  unfold slice, slice_bound; cbn [fst snd];
  repeat match goal with
    | |- context [(?a <? ?b)%Z] => destruct (Z.ltb_spec a b); try lia
    end;
  try lia.

(** With [n_points = 0] the stop [-n_points] of the slice of line 45 is
    0, the slice is empty, and the first subtraction cannot be
    broadcast. *)
Lemma image_tv_rows_zero_points (x : arr2 R) (axis : nat) :
  axis <> 0 -> 2 <= ncol x -> _image_tv x axis 0 = Err BroadcastError.
Proof.
  intros Hax HN. unfold _image_tv.
  destruct (Nat.eqb_spec axis 0) as [|_]; [contradiction|]. unfold copy.
  cbv zeta. change (Z.of_nat 0) with 0%Z.
  unfold concatenate1.
  pose proof (has_shape_cols x (Some (- 0 - 1)%Z) None) as [R1 C1].
  pose proof (has_shape_cols x (Some 0%Z) (Some (0 + 1)%Z)) as [R2 C2].
  rewrite R1, R2, !Nat.eqb_refl. cbn [andb bind].
  set (ext := tab (nrow x) _ _).
  assert (Hw : ncol ext = ncol x + 2).
  { unfold ext. rewrite ncol_tab, C1, C2.
    slice_lia. }
  unfold rsub. rewrite zip2_misfit; [reflexivity|]. right.
  pose proof (has_shape_cols ext (Some (0 + 1)%Z) (Some (- 0 - 1)%Z)) as [_ C3].
  pose proof (has_shape_cols ext (Some (0 + 2)%Z) (Some (- 0)%Z)) as [_ C4].
  rewrite C3, C4, Hw. apply bdim_misfit; slice_lia.
Qed.

(** ** [_weights]: symmetry, three rows, and empty shapes *)

(** On a square shape each weight array is the transpose of the other. *)
Lemma weights_mirrored (n i j : nat) : g0_at n n i j = g1_at n n j i.
Proof.
  unfold g0_at, g1_at, is_corner, is_inner.
  destruct (Nat.eqb_spec i 0), (Nat.eqb_spec i (n - 1)),
    (Nat.eqb_spec j 0), (Nat.eqb_spec j (n - 1));
    cbn [andb orb]; try reflexivity; try lia;
    destruct (Nat.leb_spec 1 i), (Nat.ltb_spec i (n - 1)),
      (Nat.leb_spec 1 j), (Nat.ltb_spec j (n - 1));
    cbn [andb orb]; try reflexivity; try lia.
  unfold taper0, taper1.
  rewrite (Rplus_comm (1 + cos (kang n i)) (1 + cos (kang n j))). reflexivity.
Qed.

Lemma kang_3_1 : kang 3 1 = 0%R.
Proof.
  unfold kang, linspace. cbn [seq map nth Nat.sub Nat.ltb Nat.leb Nat.eqb andb].
  cbn [INR]. field.
Qed.

(** The entries of the two arrays for the shape (3, N). *)
Lemma weights_three_rows (N : nat) :
  1 <= N ->
  _weights (3, N)
  = Ok (tab 3 N (fun i j =>
          if is_corner 3 N i j then (1 / 2)%R
          else if is_inner N j then (if i =? 1 then (1 / 2)%R else 1%R)
          else 0%R),
        tab 3 N (fun i j =>
          if is_corner 3 N i j then (1 / 2)%R
          else if is_inner N j then (if i =? 1 then (1 / 2)%R else 0%R)
          else 1%R)).
Proof.
  intros Hn. unfold _weights. cbn [fst snd]. unfold meshgrid.
  cbv beta iota zeta.
  rewrite !length_slice1_inner, !length_linspace.
  rewrite !map2d_tab. unfold radd, rdiv.
  rewrite zip2_tab. cbn [bind]. rewrite zip2_tab. cbn [bind].
  unfold zeros. cbn [fst snd].
  assert (H3 : 1 <= 3) by lia.
  rewrite set_block_tab
    by (rewrite ?nrow_tab, ?ncol_tab; unfold fits; cbn [Nat.sub Nat.eqb];
        rewrite ?orb_true_r; reflexivity).
  cbn [bind]. rewrite zip2_tab. cbn [bind].
  rewrite set_block_tab
    by (rewrite ?nrow_tab, ?ncol_tab; unfold fits; cbn [Nat.sub Nat.eqb];
        rewrite ?orb_true_r; reflexivity).
  cbn [bind].
  rewrite (@set_col_tab 3 N _ _ _ _ (int_index_first Hn)). cbn [bind].
  rewrite (@set_col_tab 3 N _ _ _ _ (int_index_last Hn)). cbn [bind].
  rewrite (@set_at_tab 3 N _ _ _ _ _ _ (int_index_first H3) (int_index_first Hn)). cbn [bind].
  rewrite (@set_at_tab 3 N _ _ _ _ _ _ (int_index_last H3) (int_index_last Hn)). cbn [bind].
  rewrite (@set_at_tab 3 N _ _ _ _ _ _ (int_index_first H3) (int_index_last Hn)). cbn [bind].
  rewrite (@set_at_tab 3 N _ _ _ _ _ _ (int_index_last H3) (int_index_first Hn)). cbn [bind].
  rewrite (@set_row_tab 3 N _ _ _ _ (int_index_first H3)). cbn [bind].
  rewrite (@set_row_tab 3 N _ _ _ _ (int_index_last H3)). cbn [bind].
  rewrite (@set_at_tab 3 N _ _ _ _ _ _ (int_index_first H3) (int_index_first Hn)). cbn [bind].
  rewrite (@set_at_tab 3 N _ _ _ _ _ _ (int_index_last H3) (int_index_last Hn)). cbn [bind].
  rewrite (@set_at_tab 3 N _ _ _ _ _ _ (int_index_first H3) (int_index_last Hn)). cbn [bind].
  rewrite (@set_at_tab 3 N _ _ _ _ _ _ (int_index_last H3) (int_index_first Hn)). cbn [bind].
  rewrite !nrow_tab, !ncol_tab.
  assert (Hmid : forall d : R,
            nth 0 (slice1 (linspace (- PI) PI 3) (Some 1%Z) (Some (-1)%Z)) d = 0%R).
  { intros d. rewrite nth_slice1_inner by (rewrite length_linspace; lia).
    rewrite (nth_indep _ d 0%R) by (rewrite length_linspace; lia).
    exact kang_3_1. }
  f_equal. f_equal.
  - apply tab_ext. intros i j Hi Hj. unfold is_corner, is_inner.
    destruct (Nat.eqb_spec j 0), (Nat.eqb_spec j (N - 1)),
      (Nat.leb_spec 1 j), (Nat.ltb_spec j (N - 1)); try lia;
      (destruct i as [|[|[|i]]]; try lia);
      cbn [Nat.eqb Nat.sub Nat.leb Nat.ltb andb orb]; try reflexivity.
    unfold bix. cbn [Nat.eqb]. rewrite get_tab by lia.
    rewrite !Hmid, cos_0. field.
  - apply tab_ext. intros i j Hi Hj. unfold is_corner, is_inner.
    destruct (Nat.eqb_spec j 0), (Nat.eqb_spec j (N - 1)),
      (Nat.leb_spec 1 j), (Nat.ltb_spec j (N - 1)); try lia;
      (destruct i as [|[|[|i]]]; try lia);
      cbn [Nat.eqb Nat.sub Nat.leb Nat.ltb andb orb]; try reflexivity.
    unfold bix. cbn [Nat.eqb]. rewrite get_tab by lia.
    rewrite !Hmid, cos_0. field.
Qed.

Lemma set_col_empty (G : arr2 R) (r0 r1 : option Z) (c : Z) (v : R) :
  ncol G = 0 -> set_col G r0 r1 c v = Err IndexError.
Proof.
  intros H0. unfold set_col. destruct (slice (nrow G) r0 r1) as [rs rw].
  rewrite H0, int_index_empty. reflexivity.
Qed.

Lemma set_at_no_rows (G : arr2 R) (r c : Z) (v : R) :
  nrow G = 0 -> set_at G r c v = Err IndexError.
Proof.
  intros H0. unfold set_at. rewrite H0, int_index_empty. reflexivity.
Qed.

(** No weights are returned for an empty shape: where the inner block
    fits, the first integer index on the empty axis is out of bounds. *)
Lemma weights_empty (M N : nat) :
  M * N = 0 -> M - 2 = N - 2 \/ M = 3 -> _weights (M, N) = Err IndexError.
Proof.
  intros Hempty Hfit. unfold _weights. cbn [fst snd]. unfold meshgrid.
  cbv beta iota zeta.
  rewrite !length_slice1_inner, !length_linspace.
  rewrite !map2d_tab. unfold radd, rdiv.
  rewrite zip2_tab. cbn [bind]. rewrite zip2_tab. cbn [bind].
  unfold zeros. cbn [fst snd].
  assert (Hf1 : fits (M - 2) (M - 2) = true) by apply fits_same.
  assert (Hf2 : fits (M - 2) (N - 2) = true).
  { unfold fits. destruct Hfit as [-> | ->].
    - rewrite Nat.eqb_refl. reflexivity.
    - cbn [Nat.sub Nat.eqb]. apply orb_true_r. }
  rewrite set_block_tab by (rewrite ?nrow_tab, ?ncol_tab; assumption).
  cbn [bind]. rewrite zip2_tab. cbn [bind].
  rewrite set_block_tab by (rewrite ?nrow_tab, ?ncol_tab; assumption).
  cbn [bind].
  destruct N as [|N'].
  - rewrite set_col_empty by apply ncol_tab. reflexivity.
  - assert (HM : M = 0) by lia. subst M.
    assert (Hn : 1 <= S N') by lia.
    rewrite (@set_col_tab 0 (S N') _ _ _ _ (int_index_first Hn)). cbn [bind].
    rewrite (@set_col_tab 0 (S N') _ _ _ _ (int_index_last Hn)). cbn [bind].
    rewrite set_at_no_rows by apply nrow_tab. reflexivity.
Qed.

(** ** [_gibbs_removal_2d]: sign of the result, weights that do not fit *)

Lemma cabs_nonneg (z : C) : (0 <= cabs z)%R.
Proof. unfold cabs. apply sqrt_pos. Qed.

(** The result is a magnitude: [abs(np.fft.ifft2(...))]. *)
Lemma gibbs_removal_2d_nonneg (image : arr2 R) (n_points : nat)
  (G0 G1 : option (arr2 R)) (r : arr2 R) :
  _gibbs_removal_2d image n_points G0 G1 = Ok r -> entries nonnegative r.
Proof.
  unfold _gibbs_removal_2d. intros H. bind_inv H. injection H as <-.
  unfold map2d. apply entries_tab. intros i j _ _. apply cabs_nonneg.
Qed.

Lemma zip2_error {A B D} `{Dflt A} `{Dflt B} (f : A -> B -> D)
  (a : arr2 A) (b : arr2 B) (e : exn) :
  zip2 f a b = Err e -> e = BroadcastError.
Proof.
  unfold zip2. destruct (bdim (nrow a) (nrow b)), (bdim (ncol a) (ncol b));
    intros E; try discriminate; injection E as <-; reflexivity.
Qed.

(** Whether a weight array can be broadcast against an (M, N) image. *)
Lemma gibbs_removal_2d_weight_misfit (image G0 G1 : arr2 R)
  (n_points : nat) M N :
  has_shape M N image ->
  1 <= n_points -> n_points + 1 <= M -> n_points + 1 <= N ->
  (bdim M (nrow G1) = None \/ bdim N (ncol G1) = None)
  \/ (bdim M (nrow G0) = None \/ bdim N (ncol G0) = None) ->
  _gibbs_removal_2d image n_points (Some G0) (Some G1) = Err BroadcastError.
Proof.
  intros Him Hnp HM HN Hmis. unfold _gibbs_removal_2d.
  cbn [np_any is_None orb bind].
  destruct (@gibbs_removal_1d_axis1_ok image 1 n_points M N)
    as (c1 & E1 & Hc1); try assumption; try discriminate; try lia.
  destruct (@gibbs_removal_1d_axis0_ok image n_points M N)
    as (c0 & E0 & Hc0); try assumption; try lia.
  rewrite E1. cbn [bind]. rewrite E0. cbn [bind].
  destruct (@fft2_ok c1 M N Hc1) as [f1 F1]; try lia.
  destruct (@fft2_ok c0 M N Hc0) as [f0 F0]; try lia.
  rewrite F1. cbn [bind]. rewrite F0. cbn [bind].
  unfold cmul_weights.
  destruct (zip2 cscale (fftshift (tab M N f1)) G1) as [a|e] eqn:Ea;
    cbn [bind].
  - destruct Hmis as [Hmis|Hmis].
    + rewrite zip2_misfit in Ea; [discriminate|].
      unfold fftshift. rewrite !nrow_tab, !ncol_tab. exact Hmis.
    + rewrite zip2_misfit; [reflexivity|].
      unfold fftshift. rewrite !nrow_tab, !ncol_tab. exact Hmis.
  - apply zip2_error in Ea. subst e. reflexivity.
Qed.

(** A window of no points stops the line corrector at its first call of
    [_image_tv]. *)
Lemma gibbs_removal_1d_rows_zero_points (x : arr2 R) (axis : nat) :
  axis <> 0 -> 2 <= ncol x -> _gibbs_removal_1d x axis 0 = Err BroadcastError.
Proof.
  intros Hax HN. unfold _gibbs_removal_1d.
  destruct (Nat.eqb_spec axis 0) as [|_]; [contradiction|]. unfold copy.
  unfold search_loop, search_init.
  rewrite image_tv_rows_zero_points by (try discriminate; assumption).
  reflexivity.
Qed.

Lemma gibbs_removal_2d_zero_points (image : arr2 R) (G0 G1 : option (arr2 R)) :
  2 <= ncol image -> G0 <> None -> G1 <> None ->
  _gibbs_removal_2d image 0 G0 G1 = Err BroadcastError.
Proof.
  intros HN H0 H1. destruct G0 as [g0|]; [|contradiction].
  destruct G1 as [g1|]; [|contradiction].
  unfold _gibbs_removal_2d. cbn [np_any is_None orb bind].
  rewrite gibbs_removal_1d_rows_zero_points by (try discriminate; assumption).
  reflexivity.
Qed.

Lemma gibbs_removal_2d_misfit_shape (image : arr2 R) (n_points : nat) :
  nrow image - 2 <> ncol image - 2 -> nrow image <> 3 ->
  _gibbs_removal_2d image n_points None None = Err BroadcastError.
Proof.
  intros Hne H3. rewrite gibbs_removal_2d_default_weights.
  unfold shape2. rewrite weights_misfit by assumption. reflexivity.
Qed.

(** ** [gibbs_removal]: the ranks unfolded, for any plane and window *)

Lemma gibbs_removal_rank2_unfold st vol slice_axis n_points :
  ndim vol = 2 -> slice_axis <= 2 ->
  gibbs_removal st vol slice_axis n_points
  = ('(G0, G1) <- _weights (dim vol 0, dim vol 1) ;;
     r <- _gibbs_removal_2d (read2 st vol) n_points (Some G0) (Some G1) ;;
     if slice_axis <? 2 then Err AxisError else Ok (alloc st r)).
Proof.
  intros Hnd Hax. unfold gibbs_removal. rewrite Hnd.
  destruct (Nat.ltb_spec 2 slice_axis); [lia|].
  destruct (Nat.ltb_spec slice_axis 2);
    cbn [Nat.ltb Nat.leb Nat.eqb andb bind];
    change (nth 0 (shape vol) 0) with (dim vol 0);
    change (nth 1 (shape vol) 0) with (dim vol 1);
    (destruct (_weights (dim vol 0, dim vol 1)) as [[G0 G1]|e]; cbn [bind];
     [|reflexivity]);
    (destruct (_gibbs_removal_2d _ _ _ _) as [r|e]; cbn [bind];
     [|reflexivity]);
    unfold alloc; cbn [bind]; [|reflexivity].
  rewrite swapaxes_out_of_range; [reflexivity|]. unfold ndim. cbn. lia.
Qed.

Lemma gibbs_removal_rank3_unfold st vol slice_axis n_points :
  ndim vol = 3 -> wf_nd vol -> slice_axis <= 2 ->
  gibbs_removal st vol slice_axis n_points
  = ('(G0, G1) <- _weights (plane vol slice_axis) ;;
     st' <- correct_slices (working_view vol slice_axis) n_points G0 G1
              (seq 0 (dim (working_view vol slice_axis) 2)) st ;;
     Ok (st', vol)).
Proof.
  intros Hnd Hwf Hax.
  destruct vol as [b o sh str]. unfold ndim, wf_nd, plane in *.
  cbn [shape strides] in *.
  destruct sh as [|d0 [|d1 [|d2 [|? ?]]]]; try discriminate Hnd.
  destruct str as [|s0 [|s1 [|s2 [|? ?]]]]; try discriminate Hwf.
  unfold gibbs_removal, working_view, swapaxes, ndim, dim.
  cbn [shape strides base offset length].
  destruct slice_axis as [|[|[|k]]]; try lia;
    cbn [Nat.ltb Nat.leb Nat.eqb andb bind swap_nth upd nth shape strides
         base offset length] in *;
    (destruct (_weights _) as [[G0 G1]|e]; cbn [bind]; [|reflexivity]);
    (destruct (correct_slices _ _ _ _ _ _) as [st'|e]; cbn [bind];
     [reflexivity|reflexivity]).
Qed.

(** The first two lengths of the flattened view are those of the plane. *)
Lemma gibbs_removal_rank4_weights st vol slice_axis n_points e :
  ndim vol = 4 -> wf_nd vol -> slice_axis <= 2 ->
  _weights (plane vol slice_axis) = Err e ->
  gibbs_removal st vol slice_axis n_points = Err e.
Proof.
  intros Hnd Hwf Hax.
  destruct vol as [b o sh str]. unfold ndim, wf_nd, plane in *.
  cbn [shape strides] in *.
  destruct sh as [|d0 [|d1 [|d2 [|d3 [|? ?]]]]]; try discriminate Hnd.
  destruct str as [|s0 [|s1 [|s2 [|s3 [|? ?]]]]]; try discriminate Hwf.
  unfold gibbs_removal, swapaxes, ndim.
  cbn [shape strides base offset length].
  destruct slice_axis as [|[|[|k]]]; try lia;
    cbn [Nat.ltb Nat.leb Nat.eqb andb bind swap_nth upd nth shape strides
         base offset length] in *;
    intros Hw; unfold reshape; cbn [shape strides];
    rewrite !Nat.eqb_refl; cbn [andb];
    match goal with
    | |- context [if ?c then _ else _] => destruct c
    end; cbn [bind shape nth]; rewrite Hw; reflexivity.
Qed.

(** ** No slice to correct *)

Lemma gibbs_removal_rank3_no_slice st vol slice_axis n_points n :
  ndim vol = 3 -> wf_nd vol -> slice_axis <= 2 ->
  plane vol slice_axis = (n, n) -> 1 <= n ->
  dim (working_view vol slice_axis) 2 = 0 ->
  gibbs_removal st vol slice_axis n_points = Ok (st, vol).
Proof.
  intros Hnd Hwf Hax Hpl Hn Hz.
  rewrite gibbs_removal_rank3_unfold by assumption.
  rewrite Hpl, weights_square by exact Hn. cbn [bind].
  rewrite Hz. reflexivity.
Qed.

(** ** The first slice already fails *)

Lemma correct_slices_first_fails vol n_points G0 G1 (k : nat) st e :
  _gibbs_removal_2d (read_slice st vol 0) n_points (Some G0) (Some G1) = Err e ->
  correct_slices vol n_points G0 G1 (seq 0 (S k)) st = Err e.
Proof.
  intros E. unfold correct_slices. cbn [seq foldM]. rewrite E. reflexivity.
Qed.

Lemma has_shape_read_slice st w v :
  has_shape (dim w 0) (dim w 1) (read_slice st w v).
Proof. unfold read_slice. apply has_shape_tab. Qed.

Lemma gibbs_removal_rank3_first_slice st vol slice_axis n_points n e :
  ndim vol = 3 -> wf_nd vol -> slice_axis <= 2 ->
  plane vol slice_axis = (n, n) -> 1 <= n ->
  1 <= dim (working_view vol slice_axis) 2 ->
  _gibbs_removal_2d (read_slice st (working_view vol slice_axis) 0) n_points
    (Some (tab n n (g0_at n n))) (Some (tab n n (g1_at n n))) = Err e ->
  gibbs_removal st vol slice_axis n_points = Err e.
Proof.
  intros Hnd Hwf Hax Hpl Hn Hk E.
  rewrite gibbs_removal_rank3_unfold by assumption.
  rewrite Hpl, weights_square by exact Hn. cbn [bind].
  destruct (dim (working_view vol slice_axis) 2) as [|k]; [lia|].
  rewrite (correct_slices_first_fails _ _ _ _ k _ E). reflexivity.
Qed.

(** ** Slices along axis 0 or 1: swap, run along axis 2, swap back *)

Lemma ndim_swapped vol a b :
  ndim (mk_nd (base vol) (offset vol) (swap_nth (shape vol) a b)
              (swap_nth (strides vol) a b)) = ndim vol.
Proof. unfold ndim. cbn [shape]. apply length_swap_nth. Qed.

Lemma gibbs_removal_swap st vol slice_axis n_points :
  2 < ndim vol -> slice_axis < 2 ->
  gibbs_removal st vol slice_axis n_points
  = (v <- swapaxes vol slice_axis 2 ;;
     '(st', r) <- gibbs_removal st v 2 n_points ;;
     r' <- swapaxes r slice_axis 2 ;;
     Ok (st', r')).
Proof.
  intros Hnd Hax. rewrite swapaxes_ok by lia. cbn [bind].
  unfold gibbs_removal. rewrite ndim_swapped.
  destruct (Nat.ltb_spec 2 slice_axis); [lia|].
  destruct (Nat.ltb_spec slice_axis 2); [|lia].
  destruct (Nat.ltb_spec 2 (ndim vol)); [|lia].
  change (2 <? 2) with false.
  cbn [andb bind]. rewrite swapaxes_ok by lia. cbn [bind].
  set (w := mk_nd (base vol) (offset vol) (swap_nth (shape vol) slice_axis 2)
                  (swap_nth (strides vol) slice_axis 2)).
  destruct (Nat.eqb_spec (ndim vol) 4) as [E4|E4].
  - destruct (reshape st w _) as [[st1 w3]|e]; cbn [bind]; [|reflexivity].
    destruct (_weights _) as [[G0 G1]|e]; cbn [bind]; [|reflexivity].
    rewrite E4. change (4 =? 2) with false. cbv iota.
    destruct (correct_slices _ _ _ _ _ _) as [st2|e]; cbn [bind]; [|reflexivity].
    destruct (reshape st2 w3 _) as [[st3 w4]|e]; cbn [bind]; [|reflexivity].
    destruct (swapaxes w4 slice_axis 2) as [r|e]; reflexivity.
  - destruct (Nat.ltb_spec 4 (ndim vol)); [reflexivity|].
    destruct (Nat.ltb_spec (ndim vol) 2); [lia|]. cbn [bind].
    destruct (_weights _) as [[G0 G1]|e]; cbn [bind]; [|reflexivity].
    destruct (Nat.eqb_spec (ndim vol) 2); [lia|].
    destruct (correct_slices _ _ _ _ _ _) as [st2|e]; cbn [bind]; [|reflexivity].
    destruct (swapaxes w slice_axis 2) as [r'|e]; reflexivity.
Qed.

(** ** [_gibbs_removal_1d], entry by entry *)

Lemma gibbs_removal_1d_axis0 (x : arr2 R) (n_points : nat) :
  _gibbs_removal_1d x 0 n_points
  = (r <- _gibbs_removal_1d (transpose x) 1 n_points ;; Ok (transpose r)).
Proof.
  unfold _gibbs_removal_1d. cbn [Nat.eqb]. unfold copy.
  destruct (search_loop _ _ _) as [st|e]; cbn [bind]; [|reflexivity].
  destruct (interpolate _ _) as [r|e]; reflexivity.
Qed.

Lemma ssamp_in_range : Forall (fun v => (0.02 <= v <= 0.9)%R) ssamp.
Proof. apply Forall_forall. exact ssamp_range. Qed.

Lemma gibbs_removal_1d_rows_tab (x : arr2 R) (axis n_points : nat) M N :
  axis <> 0 -> has_shape M N x -> wf x ->
  1 <= M -> 1 <= n_points -> n_points + 1 <= N ->
  exists st,
    search_loop x n_points ssamp = Ok st
    /\ search_recorded M N n_points x (fun v => (0.02 <= v <= 0.9)%R) st
    /\ _gibbs_removal_1d x axis n_points
       = Ok (tab M N (fun i j =>
               if Rnonzero (get (sp st) i j + get (sn st) i j)
               then interpolated st i j else get x i j)).
Proof.
  intros Hax Hx Wx HM Hnp HN.
  destruct (@record_inv_loop M N n_points HM Hnp HN x Hx Wx
              (fun v => (0.02 <= v <= 0.9)%R) ssamp ssamp_in_range)
    as (st & E & Hinv).
  exists st. split; [exact E|]. split; [exact Hinv|].
  unfold _gibbs_removal_1d.
  destruct (Nat.eqb_spec axis 0) as [|_]; [contradiction|]. unfold copy.
  rewrite E. cbn [bind].
  destruct Hinv as (Hsh & _ & _).
  rewrite (@interpolate_tab x st M N Hx Wx Hsh). reflexivity.
Qed.

(** Where one of the two shifts is 0, line 135 gives back the sample of
    the other direction, which is then the sample of the input. *)
Lemma interpolated_one_sided (P : R -> Prop) (x : arr2 R) (n_points : nat)
  (st : search) (i j : nat) :
  recorded P x n_points (sp st) (isp st) (tvp st) i j ->
  recorded P x n_points (sn st) (isn st) (tvn st) i j ->
  (forall v, P v -> v <> 0%R) ->
  (get (sp st) i j + get (sn st) i j)%R <> 0%R ->
  get (sp st) i j = 0%R \/ get (sn st) i j = 0%R ->
  interpolated st i j = get x i j.
Proof.
  intros Rp Rn HP Hne Hz. unfold interpolated.
  destruct Hz as [Hz|Hz].
  - destruct Rp as [(_ & Hisp & _) | (Hs & _)];
      [|exfalso; exact (HP _ Hs Hz)].
    rewrite Hz in *. rewrite Hisp. field. lra.
  - destruct Rn as [(_ & Hisn & _) | (Hs & _)];
      [|exfalso; exact (HP _ Hs Hz)].
    rewrite Hz in *. rewrite Hisn. field. lra.
Qed.

(** ** The search keeps the first best trial *)

Section SearchBest.
Variables M N n_points : nat.
Hypothesis HM : 1 <= M.
Hypothesis Hnp : 1 <= n_points.
Hypothesis HN : n_points + 1 <= N.
Variable xs : arr2 R.
Hypothesis Hxs : has_shape M N xs.
Hypothesis Wxs : wf xs.

Lemma search_init_spectrum :
  exists c0, fft2 xs = Ok c0 /\ has_shape M N c0 /\
    search_init xs n_points
    = Ok (mk_search xs xs (zeros (M, N)) (zeros (M, N))
            (tab M N (tv_min xs n_points)) (tab M N (tv_min xs n_points)),
          fftshift c0).
Proof.
  destruct Hxs as [H1 H2]. unfold search_init.
  rewrite image_tv_axis1 by (try discriminate; lia).
  cbn [bind]. unfold minimum. rewrite zip2_tab. cbn [bind].
  destruct (@fft2_ok xs M N) as [g Hg]; [split; assumption|lia|lia|].
  rewrite Hg. cbn [bind]. unfold copy, shape2. rewrite H1, H2.
  exists (tab M N g). split; [reflexivity|]. split; [apply has_shape_tab|].
  reflexivity.
Qed.

Lemma kept_best_step (positive : bool) (shifts : list R)
  (s_f is_f tv_f img : arr2 R) (s : R) i j :
  i < M -> j < N ->
  trial_image xs positive s = Ok img ->
  kept_best xs n_points positive shifts s_f is_f tv_f i j ->
  kept_best xs n_points positive (shifts ++ [s])
    (tab M N (fun i j => if Rgtb (get tv_f i j) (tv_min img n_points i j)
                         then s else get s_f i j))
    (tab M N (fun i j => if Rgtb (get tv_f i j) (tv_min img n_points i j)
                         then get img i j else get is_f i j))
    (tab M N (fun i j => if Rgtb (get tv_f i j) (tv_min img n_points i j)
                         then tv_min img n_points i j else get tv_f i j))
    i j.
Proof.
  intros Hi Hj Htrial Hkept. unfold kept_best. rewrite !get_tab by assumption.
  destruct (Rgtb (get tv_f i j) (tv_min img n_points i j)) eqn:E.
  - apply Rgtb_true in E. right. exists shifts, s, [], img.
    split; [reflexivity|]. split; [exact Htrial|].
    split; [reflexivity|]. split; [reflexivity|]. split; [reflexivity|].
    destruct Hkept as [(_ & _ & Htv & Hall)
                      | (l1 & s0 & l2 & img0 & -> & Ht0 & _ & _ & Htv & Hlt & Hbefore & Hafter)].
    + split; [lra|]. split; [|intros ? ? []].
      intros s' img' Hin Ht'. pose proof (Hall s' img' Hin Ht'). lra.
    + split; [lra|]. split; [|intros ? ? []].
      intros s' img' Hin Ht'. apply in_app_or in Hin.
      destruct Hin as [Hin | [<- | Hin]].
      * pose proof (Hbefore s' img' Hin Ht'). lra.
      * rewrite Ht0 in Ht'. injection Ht' as <-. lra.
      * pose proof (Hafter s' img' Hin Ht'). lra.
  - apply Rgtb_false in E.
    destruct Hkept as [(Hs & His & Htv & Hall)
                      | (l1 & s0 & l2 & img0 & -> & Ht0 & Hs & His & Htv & Hlt & Hbefore & Hafter)].
    + left. repeat split; try assumption.
      intros s' img' Hin Ht'. apply in_app_or in Hin.
      destruct Hin as [Hin | [<- | []]].
      * exact (Hall s' img' Hin Ht').
      * rewrite Htrial in Ht'. injection Ht' as <-. lra.
    + right. exists l1, s0, (l2 ++ [s]), img0.
      split; [rewrite <- app_assoc; reflexivity|].
      repeat split; try assumption.
      intros s' img' Hin Ht'. apply in_app_or in Hin.
      destruct Hin as [Hin | [<- | []]].
      * exact (Hafter s' img' Hin Ht').
      * rewrite Htrial in Ht'. injection Ht' as <-. lra.
Qed.

Lemma trial_image_ok (c0 : arr2 C) (positive : bool) (s : R) :
  fft2 xs = Ok c0 -> has_shape M N c0 ->
  exists img, trial_image xs positive s = Ok img /\ has_shape M N img.
Proof.
  intros E0 H0. unfold trial_image. rewrite E0. cbn [bind].
  destruct Hxs as [_ Hcol]. rewrite Hcol.
  destruct (@shifted_image_ok (fftshift c0)
              (map (fun z => cexp (cscale (if positive then z else cneg z) s))
                   (phase_ramp N)) M N) as [g Hg]; try lia.
  - apply has_shape_fftshift. exact H0.
  - rewrite length_map. apply length_phase_ramp.
  - rewrite Hg. eexists. split; [reflexivity|apply has_shape_tab].
Qed.

Lemma search_kept_loop (c0 : arr2 C) (shifts : list R) :
  fft2 xs = Ok c0 -> has_shape M N c0 ->
  exists st,
    foldM (search_step (fftshift c0) (phase_ramp N) n_points) shifts
      (mk_search xs xs (zeros (M, N)) (zeros (M, N))
         (tab M N (tv_min xs n_points)) (tab M N (tv_min xs n_points)))
    = Ok st
    /\ search_kept M N n_points xs shifts st.
Proof.
  intros E0 H0. induction shifts as [|s shifts IH] using rev_ind.
  - eexists. split; [reflexivity|]. destruct Hxs as [H1 H2].
    split; [|split].
    + repeat split; simpl; assumption.
    + repeat split; simpl; try assumption; apply wf_tab.
    + intros i j Hi Hj. cbn [sp isp tvp sn isn tvn].
      split; left; unfold zeros; cbn [fst snd]; rewrite !get_tab by assumption;
        (split; [reflexivity|]); (split; [reflexivity|]);
        (split; [reflexivity|]); intros ? ? [].
  - destruct IH as (st & E & Hsh & Hwf & Hkept).
    rewrite foldM_app, E. cbn [bind foldM].
    destruct (@search_step_tab M N n_points HM Hnp HN (fftshift c0) st s
                (has_shape_fftshift H0) Hsh Hwf)
      as (img_p & img_n & Ep & En & Hp & Hn & Es).
    rewrite Es. cbn [bind]. eexists. split; [reflexivity|].
    assert (Tp : trial_image xs true s = Ok img_p).
    { unfold trial_image. rewrite E0. cbn [bind].
      destruct Hxs as [_ Hcol]. rewrite Hcol. exact Ep. }
    assert (Tn : trial_image xs false s = Ok img_n).
    { unfold trial_image. rewrite E0. cbn [bind].
      destruct Hxs as [_ Hcol]. rewrite Hcol. exact En. }
    split; [|split].
    + repeat split.
    + repeat split; apply wf_tab.
    + intros i j Hi Hj. destruct (Hkept i j Hi Hj) as [Kp Kn].
      cbn [sp isp tvp sn isn tvn].
      split; apply kept_best_step; assumption.
Qed.

Lemma search_loop_kept (shifts : list R) :
  exists st, search_loop xs n_points shifts = Ok st
             /\ search_kept M N n_points xs shifts st.
Proof.
  destruct search_init_spectrum as (c0 & E0 & H0 & Ei).
  destruct (search_kept_loop shifts E0 H0) as (st & E & Hk).
  exists st. split; [|exact Hk].
  unfold search_loop. rewrite Ei. cbn [bind].
  destruct Hxs as [_ Hcol]. rewrite Hcol. exact E.
Qed.
End SearchBest.

(** ** Only the samples of the view are written *)


Section Frame.
Variable w : ndarray.
Variables n n_points : nat.
Variables G0 G1 : arr2 R.
Hypothesis Hd0 : dim w 0 = n.
Hypothesis Hd1 : dim w 1 = n.
Hypothesis HG0 : has_shape n n G0.
Hypothesis HG1 : has_shape n n G1.
Hypothesis Hnp : 1 <= n_points.
Hypothesis Hn : n_points + 1 <= n.

End Frame.


(** ** The transform of a constant image *)

Lemma csum_rsum (f : nat -> C) (n : nat) :
  csum f n = (rsum (fun k => fst (f k)) n, rsum (fun k => snd (f k)) n).
Proof.
  induction n as [|n IH]; simpl; [reflexivity|].
  rewrite IH. reflexivity.
Qed.

Lemma rsum_ext (f g : nat -> R) (n : nat) :
  (forall k, k < n -> f k = g k) -> rsum f n = rsum g n.
Proof.
  induction n as [|n IH]; intros H; simpl; [reflexivity|].
  rewrite IH by (intros k Hk; apply H; lia). rewrite (H n) by lia.
  reflexivity.
Qed.

Lemma rsum_scal (a : R) (f : nat -> R) (n : nat) :
  rsum (fun k => a * f k)%R n = (a * rsum f n)%R.
Proof. induction n as [|n IH]; simpl; [ring|]. rewrite IH. ring. Qed.

Lemma rsum_scal_r (a : R) (f : nat -> R) (n : nat) :
  rsum (fun k => f k * a)%R n = (rsum f n * a)%R.
Proof. induction n as [|n IH]; simpl; [ring|]. rewrite IH. ring. Qed.

Lemma rsum_plus (f g : nat -> R) (n : nat) :
  rsum (fun k => f k + g k)%R n = (rsum f n + rsum g n)%R.
Proof. induction n as [|n IH]; simpl; [ring|]. rewrite IH. ring. Qed.

Lemma rsum_minus (f g : nat -> R) (n : nat) :
  rsum (fun k => f k - g k)%R n = (rsum f n - rsum g n)%R.
Proof. induction n as [|n IH]; simpl; [ring|]. rewrite IH. ring. Qed.

Lemma rsum_zero (n : nat) : rsum (fun _ => 0%R) n = 0%R.
Proof. induction n as [|n IH]; simpl; [reflexivity|]. rewrite IH. ring. Qed.

Lemma rsum_const (a : R) (n : nat) : rsum (fun _ => a) n = (INR n * a)%R.
Proof.
  induction n as [|n IH]; [simpl; ring|].
  cbn [rsum]. rewrite IH, S_INR. ring.
Qed.

Lemma rsum_single (a : R) (k0 n : nat) :
  k0 < n -> rsum (fun k => if k =? k0 then a else 0%R) n = a.
Proof.
  induction n as [|n IH]; intros H; [lia|]. cbn [rsum].
  destruct (Nat.eqb_spec n k0) as [->|Hne].
  - rewrite (@rsum_ext _ (fun _ => 0%R)).
    + rewrite rsum_zero. ring.
    + intros k Hk. destruct (Nat.eqb_spec k k0); [lia|reflexivity].
  - rewrite IH by lia. ring.
Qed.

(** Sums of cosines and sines of equally spaced angles. *)
Lemma cos_sum_telescope (t : R) (n : nat) :
  (2 * sin (t / 2) * rsum (fun m => cos (INR m * t)) n
   = sin ((INR n - 1 / 2) * t) + sin (t / 2))%R.
Proof.
  induction n as [|n IH].
  - cbn [rsum INR].
    replace ((0 - 1 / 2) * t)%R with (- (t / 2))%R by field.
    rewrite sin_neg. ring.
  - cbn [rsum]. rewrite Rmult_plus_distr_l, IH, S_INR.
    replace ((INR n + 1 - 1 / 2) * t)%R with (INR n * t + t / 2)%R by field.
    replace ((INR n - 1 / 2) * t)%R with (INR n * t - t / 2)%R by field.
    rewrite sin_plus, sin_minus. ring.
Qed.

Lemma sin_sum_telescope (t : R) (n : nat) :
  (2 * sin (t / 2) * rsum (fun m => sin (INR m * t)) n
   = cos (t / 2) - cos ((INR n - 1 / 2) * t))%R.
Proof.
  induction n as [|n IH].
  - cbn [rsum INR].
    replace ((0 - 1 / 2) * t)%R with (- (t / 2))%R by field.
    rewrite cos_neg. ring.
  - cbn [rsum]. rewrite Rmult_plus_distr_l, IH, S_INR.
    replace ((INR n + 1 - 1 / 2) * t)%R with (INR n * t + t / 2)%R by field.
    replace ((INR n - 1 / 2) * t)%R with (INR n * t - t / 2)%R by field.
    rewrite cos_plus, cos_minus. ring.
Qed.

(** The angle of the u-th root of unity of order M. *)
Lemma root_angle_half (M u : nat) :
  0 < u -> u < M -> (0 < 2 * PI * INR u / INR M / 2 < PI)%R.
Proof.
  intros H0 H1.
  assert (Hu : (0 < INR u)%R) by (apply lt_0_INR; lia).
  assert (HM : (INR u < INR M)%R) by (apply lt_INR; lia).
  assert (Hpi : (0 < PI)%R) by apply PI_RGT_0.
  replace (2 * PI * INR u / INR M / 2)%R with (PI * (INR u / INR M))%R
    by (field; lra).
  assert (Hq : (0 < INR u / INR M < 1)%R).
  { split.
    - apply Rdiv_lt_0_compat; lra.
    - apply (Rmult_lt_reg_r (INR M)); [lra|]. unfold Rdiv.
      rewrite Rmult_assoc, Rinv_l by lra. lra. }
  nra.
Qed.

Lemma roots_cos_sum (M u : nat) :
  u < M ->
  rsum (fun m => cos (INR m * (2 * PI * INR u / INR M))) M
  = if u =? 0 then INR M else 0%R.
Proof.
  intros Hu. destruct (Nat.eqb_spec u 0) as [->|Hne].
  - rewrite (@rsum_ext _ (fun _ => 1%R)).
    + rewrite rsum_const. ring.
    + intros k _. cbn [INR]. unfold Rdiv. rewrite !Rmult_0_r, Rmult_0_l, Rmult_0_r.
      apply cos_0.
  - set (t := (2 * PI * INR u / INR M)%R).
    assert (HM : (0 < INR M)%R) by (apply lt_0_INR; lia).
    assert (Hh : (0 < t / 2 < PI)%R) by (apply root_angle_half; lia).
    assert (Hs : (0 < sin (t / 2))%R) by (apply sin_gt_0; lra).
    pose proof (cos_sum_telescope t M) as Ht.
    replace ((INR M - 1 / 2) * t)%R with (- (t / 2) + 2 * INR u * PI)%R in Ht
      by (unfold t; field; lra).
    rewrite sin_period, sin_neg in Ht. nra.
Qed.

Lemma roots_sin_sum (M u : nat) :
  u < M ->
  rsum (fun m => sin (INR m * (2 * PI * INR u / INR M))) M = 0%R.
Proof.
  intros Hu. destruct (Nat.eq_dec u 0) as [->|Hne].
  - rewrite (@rsum_ext _ (fun _ => 0%R)).
    + apply rsum_zero.
    + intros k _. cbn [INR]. unfold Rdiv. rewrite !Rmult_0_r, Rmult_0_l, Rmult_0_r.
      apply sin_0.
  - set (t := (2 * PI * INR u / INR M)%R).
    assert (HM : (0 < INR M)%R) by (apply lt_0_INR; lia).
    assert (Hh : (0 < t / 2 < PI)%R) by (apply root_angle_half; lia).
    assert (Hs : (0 < sin (t / 2))%R) by (apply sin_gt_0; lra).
    pose proof (sin_sum_telescope t M) as Ht.
    replace ((INR M - 1 / 2) * t)%R with (- (t / 2) + 2 * INR u * PI)%R in Ht
      by (unfold t; field; lra).
    rewrite cos_period, cos_neg in Ht. nra.
Qed.

Lemma rsum_pick (g : nat -> R) (k0 n : nat) :
  k0 < n -> rsum (fun k => if k =? k0 then g k else 0%R) n = g k0.
Proof.
  intros H. rewrite (@rsum_ext _ (fun k => if k =? k0 then g k0 else 0%R)).
  - apply rsum_single. exact H.
  - intros k _. destruct (Nat.eqb_spec k k0) as [->|]; reflexivity.
Qed.

Lemma rsum2_sep (A B : nat -> R) (M N : nat) :
  rsum (fun m => rsum (fun n => A m * B n)%R N) M
  = (rsum A M * rsum B N)%R.
Proof.
  rewrite (@rsum_ext _ (fun m => A m * rsum B N)%R).
  - apply rsum_scal_r.
  - intros m _. apply rsum_scal.
Qed.

Lemma csum_ext (f g : nat -> C) (n : nat) :
  (forall k, k < n -> f k = g k) -> csum f n = csum g n.
Proof.
  induction n as [|n IH]; intros H; simpl; [reflexivity|].
  rewrite IH by (intros k Hk; apply H; lia). rewrite (H n) by lia.
  reflexivity.
Qed.

Lemma csum2_rsum (f : nat -> nat -> C) (M N : nat) :
  csum (fun m => csum (fun n => f m n) N) M
  = (rsum (fun m => rsum (fun n => fst (f m n)) N) M,
     rsum (fun m => rsum (fun n => snd (f m n)) N) M).
Proof.
  rewrite csum_rsum. f_equal; apply rsum_ext; intros m _;
    rewrite csum_rsum; reflexivity.
Qed.

Lemma rsum2_ext (f g : nat -> nat -> R) (M N : nat) :
  (forall m n, m < M -> n < N -> f m n = g m n) ->
  rsum (fun m => rsum (fun n => f m n) N) M
  = rsum (fun m => rsum (fun n => g m n) N) M.
Proof.
  intros H. apply rsum_ext. intros m Hm. apply rsum_ext. intros n Hn.
  apply H; assumption.
Qed.

Lemma dft_phase_split (M N u v m n : nat) :
  1 <= M -> 1 <= N ->
  dft_phase M N u v m n
  = (INR m * (2 * PI * INR u / INR M) + INR n * (2 * PI * INR v / INR N))%R.
Proof.
  intros HM HN. unfold dft_phase.
  assert (0 < INR M)%R by (apply lt_0_INR; lia).
  assert (0 < INR N)%R by (apply lt_0_INR; lia).
  field. split; lra.
Qed.

(** [np.fft.fft2] of a constant image: only the entry (0, 0) is not 0. *)
Lemma dft_constant_entry (M N : nat) (c : R) (u v : nat) :
  1 <= M -> 1 <= N -> u < M -> v < N ->
  csum (fun m => csum (fun n =>
          cmul (RtoC (get (constant M N c) m n))
               (cis (- dft_phase M N u v m n))) N) M
  = (if (u =? 0) && (v =? 0) then (c * INR (M * N))%R else 0%R, 0%R).
Proof.
  intros HM HN Hu Hv. rewrite csum2_rsum.
  set (tu := (2 * PI * INR u / INR M)%R).
  set (tv := (2 * PI * INR v / INR N)%R).
  f_equal.
  - rewrite (@rsum2_ext _
               (fun m n => c * (cos (INR m * tu) * cos (INR n * tv))
                           - c * (sin (INR m * tu) * sin (INR n * tv)))%R).
    + rewrite (@rsum_ext _
                 (fun m => c * (cos (INR m * tu) * rsum (fun n => cos (INR n * tv)) N)
                           - c * (sin (INR m * tu) * rsum (fun n => sin (INR n * tv)) N))%R).
      * rewrite rsum_minus, !rsum_scal, !rsum_scal_r.
        unfold tu, tv. rewrite !roots_cos_sum, !roots_sin_sum by assumption.
        destruct (u =? 0), (v =? 0); cbn [andb]; rewrite ?mult_INR; ring.
      * intros m _. rewrite rsum_minus, !rsum_scal. reflexivity.
    + intros m n Hm Hn. unfold constant. rewrite get_tab by assumption.
      unfold cmul, RtoC, cis. cbn [fst snd].
      rewrite cos_neg, sin_neg, (dft_phase_split u v m n HM HN).
      fold tu tv. rewrite cos_plus. ring.
  - rewrite (@rsum2_ext _
               (fun m n => - c * (sin (INR m * tu) * cos (INR n * tv))
                           - c * (cos (INR m * tu) * sin (INR n * tv)))%R).
    + rewrite (@rsum_ext _
                 (fun m => - c * (sin (INR m * tu) * rsum (fun n => cos (INR n * tv)) N)
                           - c * (cos (INR m * tu) * rsum (fun n => sin (INR n * tv)) N))%R).
      * rewrite rsum_minus, !rsum_scal, !rsum_scal_r.
        unfold tu, tv. rewrite !roots_sin_sum by assumption. ring.
      * intros m _. rewrite rsum_minus, !rsum_scal. reflexivity.
    + intros m n Hm Hn. unfold constant. rewrite get_tab by assumption.
      unfold cmul, RtoC, cis. cbn [fst snd].
      rewrite cos_neg, sin_neg, (dft_phase_split u v m n HM HN).
      fold tu tv. rewrite sin_plus. ring.
Qed.

Lemma fft2_constant (M N : nat) (c : R) :
  1 <= M -> 1 <= N ->
  fft2 (constant M N c)
  = Ok (tab M N (fun u v =>
          (if (u =? 0) && (v =? 0) then (c * INR (M * N))%R else 0%R, 0%R))).
Proof.
  intros HM HN. unfold fft2.
  change (nrow (constant M N c)) with M. change (ncol (constant M N c)) with N.
  rewrite nonzero_dim_eqb by assumption. f_equal.
  apply tab_ext. intros u v Hu Hv. apply dft_constant_entry; assumption.
Qed.

Lemma shift_to_origin (M u : nat) :
  1 <= M -> u < M -> ((u + (M - M / 2)) mod M =? 0) = (u =? M / 2).
Proof.
  intros HM Hu.
  assert (Hh : M / 2 < M) by (apply Nat.div_lt; lia).
  destruct (Nat.eqb_spec u (M / 2)) as [->|Hne].
  - replace (M / 2 + (M - M / 2)) with M by lia.
    rewrite Nat.Div0.mod_same. reflexivity.
  - destruct (Nat.eqb_spec ((u + (M - M / 2)) mod M) 0) as [E|]; [|reflexivity].
    exfalso. destruct (Nat.lt_ge_cases (u + (M - M / 2)) M) as [Hlt|Hge].
    + rewrite Nat.mod_small in E by exact Hlt. lia.
    + replace (u + (M - M / 2)) with ((u - M / 2) + 1 * M) in E by lia.
      rewrite Nat.Div0.mod_add, Nat.mod_small in E by lia. lia.
Qed.

(** The magnitude of the inverse transform of the shifted spectrum of a
    constant image. *)
Lemma idft_shifted_delta (M N : nat) (a : R) (m n : nat) :
  1 <= M -> 1 <= N ->
  cabs (cdivr
          (csum (fun u => csum (fun v =>
             cmul (get (fftshift (tab M N (fun u v =>
                          (if (u =? 0) && (v =? 0) then a else 0%R, 0%R))))
                       u v)
                  (cis (dft_phase M N u v m n))) N) M)
          (INR (M * N)))
  = Rabs (a / INR (M * N)).
Proof.
  intros HM HN. rewrite csum2_rsum.
  assert (HhM : M / 2 < M) by (apply Nat.div_lt; lia).
  assert (HhN : N / 2 < N) by (apply Nat.div_lt; lia).
  set (p := dft_phase M N (M / 2) (N / 2) m n).
  assert (Hget : forall u v, u < M -> v < N ->
            get (fftshift (tab M N (fun u v =>
                   (if (u =? 0) && (v =? 0) then a else 0%R, 0%R)))) u v
            = (if (u =? M / 2) && (v =? N / 2) then a else 0%R, 0%R)).
  { intros u v Hu Hv. unfold fftshift. rewrite nrow_tab, ncol_tab.
    rewrite get_tab by assumption.
    rewrite get_tab by (apply Nat.mod_upper_bound; lia).
    rewrite !shift_to_origin by assumption. reflexivity. }
  rewrite (@rsum2_ext _
             (fun u v => if u =? M / 2
                         then (if v =? N / 2
                               then a * cos (dft_phase M N u v m n) else 0)
                         else 0)%R).
  2:{ intros u v Hu Hv. rewrite (Hget u v Hu Hv).
      unfold cmul, cis. cbn [fst snd].
      destruct (u =? M / 2), (v =? N / 2); cbn [andb]; ring. }
  rewrite (@rsum2_ext (fun u v => snd (cmul _ _))
             (fun u v => if u =? M / 2
                         then (if v =? N / 2
                               then a * sin (dft_phase M N u v m n) else 0)
                         else 0)%R).
  2:{ intros u v Hu Hv. rewrite (Hget u v Hu Hv).
      unfold cmul, cis. cbn [fst snd].
      destruct (u =? M / 2), (v =? N / 2); cbn [andb]; ring. }
  rewrite (@rsum_ext _ (fun u => if u =? M / 2
                                 then a * cos (dft_phase M N u (N / 2) m n)
                                 else 0)%R).
  2:{ intros u _. destruct (u =? M / 2).
      - apply (@rsum_pick (fun v => a * cos (dft_phase M N u v m n))%R).
        exact HhN.
      - apply rsum_zero. }
  rewrite (@rsum_ext (fun u => rsum _ N)
             (fun u => if u =? M / 2
                       then a * sin (dft_phase M N u (N / 2) m n)
                       else 0)%R).
  2:{ intros u _. destruct (u =? M / 2).
      - apply (@rsum_pick (fun v => a * sin (dft_phase M N u v m n))%R).
        exact HhN.
      - apply rsum_zero. }
  rewrite (@rsum_pick (fun u => a * cos (dft_phase M N u (N / 2) m n))%R)
    by exact HhM.
  rewrite (@rsum_pick (fun u => a * sin (dft_phase M N u (N / 2) m n))%R)
    by exact HhM.
  fold p. unfold cabs, cdivr. cbn [fst snd].
  assert (HK : (0 < INR (M * N))%R) by (apply lt_0_INR; nia).
  replace (a * cos p / INR (M * N) * (a * cos p / INR (M * N))
           + a * sin p / INR (M * N) * (a * sin p / INR (M * N)))%R
    with (Rsqr (a / INR (M * N)) * (Rsqr (sin p) + Rsqr (cos p)))%R
    by (unfold Rsqr; field; lra).
  rewrite sin2_cos2, Rmult_1_r. apply sqrt_Rsqr_abs.
Qed.

(** ** Constant images through [_gibbs_removal_2d] and [gibbs_removal] *)

Lemma cscale_split (z : C) (g1 g0 : R) :
  (g0 + g1 = 1)%R -> cadd (cscale z g1) (cscale z g0) = z.
Proof.
  intros H. destruct z as [a b]. unfold cadd, cscale. cbn [fst snd].
  f_equal.
  - replace (a * g1 + a * g0)%R with (a * (g0 + g1))%R by ring.
    rewrite H. ring.
  - replace (b * g1 + b * g0)%R with (b * (g0 + g1))%R by ring.
    rewrite H. ring.
Qed.

Lemma gibbs_removal_2d_constant (M N n_points : nat) (c : R)
  (G0 G1 : arr2 R) :
  1 <= n_points -> n_points + 1 <= M -> n_points + 1 <= N ->
  has_shape M N G0 -> has_shape M N G1 ->
  (forall i j, i < M -> j < N -> (get G0 i j + get G1 i j = 1)%R) ->
  _gibbs_removal_2d (constant M N c) n_points (Some G0) (Some G1)
  = Ok (constant M N (Rabs c)).
Proof.
  intros Hnp HM HN [H01 H02] [H11 H12] Hsum. unfold _gibbs_removal_2d.
  cbn [np_any is_None orb bind].
  rewrite (@gibbs_removal_1d_constant_rows M N n_points c) by (lia || discriminate).
  cbn [bind].
  rewrite (@gibbs_removal_1d_constant_columns M N n_points c) by lia.
  cbn [bind].
  rewrite fft2_constant by lia. cbn [bind].
  set (F := tab M N (fun u v =>
              (if (u =? 0) && (v =? 0) then (c * INR (M * N))%R else 0%R, 0%R))).
  unfold cmul_weights.
  rewrite (@zip2_same _ _ _ _ _ cscale (fftshift F) G1)
    by (unfold fftshift, F; rewrite ?nrow_tab, ?ncol_tab; congruence).
  cbn [bind].
  rewrite (@zip2_same _ _ _ _ _ cscale (fftshift F) G0)
    by (unfold fftshift, F; rewrite ?nrow_tab, ?ncol_tab; congruence).
  cbn [bind].
  replace (nrow (fftshift F)) with M by reflexivity.
  replace (ncol (fftshift F)) with N by reflexivity.
  unfold cadd at 1. fold cadd.
  rewrite zip2_tab. cbn [bind].
  unfold ifft2. rewrite nrow_tab, ncol_tab.
  rewrite nonzero_dim_eqb by lia. cbn [bind]. rewrite map2d_tab.
  f_equal. unfold constant. apply tab_ext. intros m n Hm Hn.
  rewrite (@csum_ext _ (fun u => csum (fun v =>
             cmul (get (fftshift F) u v) (cis (dft_phase M N u v m n))) N)).
  - unfold F. rewrite idft_shifted_delta by lia.
    f_equal. field. apply not_0_INR. nia.
  - intros u Hu. apply csum_ext. intros v Hv.
    rewrite get_tab by assumption.
    rewrite cscale_split by (apply Hsum; assumption). reflexivity.
Qed.

(** With the weights of [_weights], on a square image. *)
Lemma gibbs_removal_2d_constant_square (n n_points : nat) (c : R) :
  1 <= n_points -> n_points + 1 <= n ->
  _gibbs_removal_2d (constant n n c) n_points
    (Some (tab n n (g0_at n n))) (Some (tab n n (g1_at n n)))
  = Ok (constant n n (Rabs c)).
Proof.
  intros Hnp Hn. apply gibbs_removal_2d_constant; try assumption;
    try apply has_shape_tab.
  intros i j Hi Hj. rewrite !get_tab by assumption.
  apply weights_complementary; (assumption || lia).
Qed.

Lemma Ok_inj {A} (a b : A) : Ok a = Ok b -> a = b.
Proof. intros H. injection H as H. exact H. Qed.

(** ** [_image_tv] under a change of intensity scale *)

Lemma tv_sum_scal (a : R) (t : nat -> R) (k : nat) :
  tv_sum (fun n => a * t n)%R k = (a * tv_sum t k)%R.
Proof. induction k as [|k IH]; simpl; [reflexivity|]. rewrite IH. ring. Qed.

Lemma tv_sum_ext (t t' : nat -> R) (k : nat) :
  (forall n, t n = t' n) -> tv_sum t k = tv_sum t' k.
Proof.
  intros H. induction k as [|k IH]; simpl; [apply H|]. rewrite IH, H.
  reflexivity.
Qed.

Lemma pget_map2d (f : R -> R) (x : arr2 R) (i : nat) (z : Z) :
  i < nrow x -> 0 < ncol x -> pget (map2d f x) i z = f (pget x i z).
Proof.
  intros Hi HN. unfold pget, map2d. rewrite ncol_tab.
  rewrite get_tab; [reflexivity|exact Hi|apply wrap_lt; exact HN].
Qed.

Lemma abs_affine_difference (a c u v : R) :
  Rabs (a * u + c - (a * v + c)) = (Rabs a * Rabs (u - v))%R.
Proof.
  replace (a * u + c - (a * v + c))%R with (a * (u - v))%R by ring.
  apply Rabs_mult.
Qed.

Lemma ptv_at_affine (a c : R) (x : arr2 R) (n_points i j : nat) :
  i < nrow x -> 0 < ncol x ->
  ptv_at (map2d (fun v => a * v + c)%R x) n_points i j
  = (Rabs a * ptv_at x n_points i j)%R.
Proof.
  intros Hi HN. unfold ptv_at. rewrite <- tv_sum_scal.
  apply tv_sum_ext. intros n. unfold fwd_term.
  rewrite !pget_map2d by assumption. apply abs_affine_difference.
Qed.

Lemma ntv_at_affine (a c : R) (x : arr2 R) (n_points i j : nat) :
  i < nrow x -> 0 < ncol x ->
  ntv_at (map2d (fun v => a * v + c)%R x) n_points i j
  = (Rabs a * ntv_at x n_points i j)%R.
Proof.
  intros Hi HN. unfold ntv_at. rewrite <- tv_sum_scal.
  apply tv_sum_ext. intros n. unfold bwd_term.
  rewrite !pget_map2d by assumption. apply abs_affine_difference.
Qed.

Lemma image_tv_rows_affine (a c : R) (x : arr2 R) (axis n_points : nat) :
  axis <> 0 -> 1 <= n_points -> n_points + 1 <= ncol x ->
  _image_tv (map2d (fun v => a * v + c)%R x) axis n_points
  = Ok (map2d (Rmult (Rabs a)) (tab (nrow x) (ncol x) (ptv_at x n_points)),
        map2d (Rmult (Rabs a)) (tab (nrow x) (ncol x) (ntv_at x n_points))).
Proof.
  intros Hax Hnp HN.
  rewrite image_tv_axis1 by (try assumption; unfold map2d; rewrite ncol_tab; exact HN).
  rewrite !map2d_tab. unfold map2d at 1 2 3 4. rewrite !nrow_tab, !ncol_tab.
  f_equal. f_equal; apply tab_ext; intros i j Hi Hj;
    [apply ptv_at_affine|apply ntv_at_affine]; lia.
Qed.

Lemma transpose_map2d {A B} `{Dflt A} `{Dflt B} (f : A -> B) (x : arr2 A) :
  transpose (map2d f x) = map2d f (transpose x).
Proof.
  unfold map2d at 1. rewrite transpose_tab. unfold map2d, transpose.
  rewrite nrow_tab, ncol_tab. apply tab_ext. intros i j Hi Hj.
  rewrite get_tab by assumption. reflexivity.
Qed.

(** ** An image without lines *)

Lemma gibbs_removal_1d_no_rows (x : arr2 R) (axis n_points N : nat) :
  axis <> 0 -> has_shape 0 N x -> 1 <= n_points -> n_points + 1 <= N ->
  _gibbs_removal_1d x axis n_points = Err FFTSizeError.
Proof.
  intros Hax [H1 H2] Hnp HN. unfold _gibbs_removal_1d.
  destruct (Nat.eqb_spec axis 0) as [|_]; [contradiction|]. unfold copy.
  unfold search_loop, search_init.
  rewrite image_tv_axis1 by (try discriminate; lia).
  cbn [bind]. unfold minimum. rewrite zip2_tab. cbn [bind].
  unfold fft2. rewrite H1. reflexivity.
Qed.

(** ** Rank 4, flattened in place: the planes of the caller's array *)

Lemma dim_flatten st w :
  ndim w = 4 -> wf_nd w ->
  dim (snd (flatten st w)) 2 = dim w 2 * dim w 3.
Proof.
  intros Hnd Hwf. destruct w as [b o sh str].
  unfold ndim, wf_nd in *. cbn [shape strides] in *.
  destruct sh as [|a [|b' [|c [|d [|? ?]]]]]; try discriminate Hnd.
  destruct str as [|s0 [|s1 [|s2 [|s3 [|? ?]]]]]; try discriminate Hwf.
  unfold flatten, dim, reshape. cbn [shape strides nth base].
  rewrite !Nat.eqb_refl. cbn [andb].
  destruct ((a * b' * c * d <=? 1) || (c =? 1) || (d =? 1) || (s2 =? d * s3));
    reflexivity.
Qed.

(** Slice [z * G + g] of the flattened view is plane (z, g) of the
    rank-4 view. *)
Lemma read_slice_flatten st st' w z g :
  ndim w = 4 -> wf_nd w -> flattens_in_place w = true ->
  z < dim w 2 -> g < dim w 3 ->
  read_slice st' (snd (flatten st w)) (z * dim w 3 + g) = read_plane st' w z g.
Proof.
  intros Hnd Hwf Hfl. destruct w as [b o sh str].
  unfold ndim, wf_nd in *. cbn [shape strides] in *.
  destruct sh as [|a [|b' [|c [|d [|? ?]]]]]; try discriminate Hnd.
  destruct str as [|s0 [|s1 [|s2 [|s3 [|? ?]]]]]; try discriminate Hwf.
  unfold flattens_in_place in Hfl. cbn [shape strides] in Hfl.
  unfold flatten, dim, reshape. cbn [shape strides nth base].
  rewrite !Nat.eqb_refl, Hfl. cbn [andb fst snd].
  intros Hz Hg. unfold read_slice, read_plane, dim, stride.
  cbn [shape strides nth base offset].
  apply tab_ext. intros i j Hi Hj. f_equal.
  destruct (Nat.eqb_spec d 1) as [->|Hd].
  - nia.
  - destruct (Nat.leb_spec (a * b' * c * d) 1) as [Hsmall|_].
    + exfalso. assert (H2 : 2 <= d) by (clear - Hg Hd; lia).
      assert (H1 : 1 <= a * b' * c).
      { clear - Hi Hj Hz. assert (1 <= a * b') by nia. nia. }
      clear - H1 H2 Hsmall. nia.
    + destruct (Nat.eqb_spec c 1) as [->|_]; [nia|].
      destruct (Nat.eqb_spec s2 (d * s3)) as [->|_];
        [nia|discriminate Hfl].
Qed.

Lemma gibbs_removal_rank4_planes st vol slice_axis n_points n st' r :
  wf_nd vol -> slice_axis <= 2 -> plane vol slice_axis = (n, n) ->
  1 <= n_points -> n_points + 1 <= n ->
  ndim vol = 4 -> flattens_in_place (working_view vol slice_axis) = true ->
  gibbs_removal st vol slice_axis n_points = Ok (st', r) ->
  valid_view st (snd (flatten st (working_view vol slice_axis))) ->
  forall z g,
    z < dim (working_view vol slice_axis) 2 ->
    g < dim (working_view vol slice_axis) 3 ->
    _gibbs_removal_2d (read_plane st (working_view vol slice_axis) z g)
      n_points (Some (tab n n (g0_at n n))) (Some (tab n n (g1_at n n)))
    = Ok (read_plane st' (working_view vol slice_axis) z g).
Proof.
  intros Hwf Hax Hpl Hnp Hn Hnd Hfl Erun Hvalid z g Hz Hg.
  destruct (gibbs_removal_rank4 st Hnd Hwf Hax Hpl Hnp Hn)
    as (E & Hd0 & Hd1 & _ & _).
  cbv zeta in E.
  assert (Hnd4 : ndim (working_view vol slice_axis) = 4)
    by (rewrite ndim_working_view; exact Hnd).
  pose proof (wf_working_view slice_axis Hwf) as Hwf4.
  destruct (@flatten_in_place st (working_view vol slice_axis) Hnd4 Hwf4 Hfl)
    as [Hst _].
  rewrite Hst in E. rewrite E in Erun.
  set (w3 := snd (flatten st (working_view vol slice_axis))) in *.
  destruct (correct_slices w3 n_points _ _ _ st) as [st2|e] eqn:Ecs;
    cbn [bind] in Erun; [|discriminate].
  injection Erun as -> _.
  destruct (@correct_slices_in_place w3 n n_points
              (tab n n (g0_at n n)) (tab n n (g1_at n n)) Hd0 Hd1
              (has_shape_tab _ _ _) (has_shape_tab _ _ _)
              Hnp Hn (seq 0 (dim w3 2)) st st'
              Hvalid (seq_NoDup _ _))
    as (_ & Hdone & _); [|exact Ecs|].
  - apply Forall_forall. intros v Hv. apply in_seq in Hv. lia.
  - rewrite <- (@read_slice_flatten st st (working_view vol slice_axis) z g)
      by assumption.
    rewrite <- (@read_slice_flatten st st' (working_view vol slice_axis) z g)
      by assumption.
    apply Hdone. apply in_seq. unfold w3. rewrite dim_flatten by assumption.
    nia.
Qed.

(** The flattened view of a C-contiguous rank-4 array is a proper view
    of its buffer. *)
Lemma valid_view_flat_c4 (st : store) (b d0 d1 d2 d3 : nat) :
  b < length st -> length (buffer st b) = d0 * d1 * (d2 * d3) ->
  valid_view st
    (snd (flatten st (working_view (c_contiguous b [d0; d1; d2; d3]) 2))).
Proof.
  intros Hb Hlen.
  assert (E : snd (flatten st (working_view (c_contiguous b [d0; d1; d2; d3]) 2))
              = working_view (c_contiguous b [d0; d1; d2 * d3]) 2).
  { unfold working_view, c_contiguous, flatten, reshape, dim.
    cbn [Nat.ltb Nat.leb shape strides c_strides fold_right nth base offset].
    rewrite !Nat.eqb_refl. cbn [andb]. rewrite !orb_true_r.
    cbn [snd].
    destruct (Nat.eqb_spec d3 1) as [->|_]; rewrite ?Nat.mul_1_r;
      reflexivity. }
  rewrite E. apply valid_view_c3; [exact Hb|exact Hlen|lia].
Qed.

(** * The claims *)

(** ** C1: input validation, and when the call succeeds *)

(** C1, as stated, fails: a 3 x 3 image (rank 2, [slice_axis = 2], the
    default [n_points = 3]) passes the validation and then raises inside
    the shift search, because its rows are shorter than [n_points + 1]. *)
Lemma gibbs_removal_small_image_raises :
  ndim vol_3x3 = 2 /\
  gibbs_removal (memory 9) vol_3x3 2 3 = Err BoolIndexError.
Proof.
  split; [reflexivity|].
  apply (@gibbs_removal_rank2_short (memory 9) vol_3x3 3 3);
    try reflexivity; lia.
Qed.

(** C1 (amended): [gibbs_removal] raises its validation errors when
    [slice_axis > 2], when the rank is above 4 and when it is below 2;
    and it returns an array of the shape of its input for a rank-2 input
    with [slice_axis = 2] and for rank-3 and rank-4 inputs with
    [slice_axis] in {0, 1, 2}, whenever the two in-plane dimensions are
    equal and at least [n_points + 1], with [n_points >= 1]. *)
Theorem gibbs_removal_validation (st : store) (vol : ndarray)
  (slice_axis n_points n : nat) :
  (2 < slice_axis ->
   gibbs_removal st vol slice_axis n_points = Err SliceAxisError)
  /\ (slice_axis <= 2 -> 4 < ndim vol ->
      gibbs_removal st vol slice_axis n_points = Err RankTooHigh)
  /\ (slice_axis <= 2 -> ndim vol < 2 ->
      gibbs_removal st vol slice_axis n_points = Err RankTooLow)
  /\ (wf_nd vol -> plane vol slice_axis = (n, n) ->
      1 <= n_points -> n_points + 1 <= n ->
      (ndim vol = 2 /\ slice_axis = 2)
      \/ ((ndim vol = 3 \/ ndim vol = 4) /\ slice_axis <= 2) ->
      exists st' r, gibbs_removal st vol slice_axis n_points = Ok (st', r)
                    /\ shape r = shape vol).
Proof.
  split; [apply gibbs_removal_bad_axis|].
  split; [apply gibbs_removal_rank_high|].
  split; [apply gibbs_removal_rank_low|].
  intros Hwf Hpl Hnp Hn [[Hnd ->] | [[Hnd | Hnd] Hax]].
  - unfold plane in Hpl. rewrite Hnd in Hpl. cbn [Nat.ltb Nat.leb andb] in Hpl.
    injection Hpl as Hd0 Hd1.
    destruct (@gibbs_removal_rank2 st vol n n_points Hnd Hd0 Hd1 Hnp Hn)
      as (r & Hr & E).
    rewrite E. do 2 eexists. split; [reflexivity|]. cbn [shape].
    unfold ndim in Hnd.
    destruct (shape vol) as [|d0 [|d1 [|? ?]]]; try discriminate Hnd.
    cbn [nth] in Hd0, Hd1. subst. reflexivity.
  - destruct (gibbs_removal_rank3_ok st Hnd Hwf Hax Hpl Hnp Hn)
      as (st' & E & _).
    exists st', vol. split; [exact E|reflexivity].
  - exact (gibbs_removal_rank4_ok st Hnd Hwf Hax Hpl Hnp Hn).
Qed.

Lemma gibbs_removal_validation_witness :
  exists st' r, gibbs_removal (memory 32) vol_4x4x2 2 3 = Ok (st', r)
                /\ shape r = shape vol_4x4x2.
Proof.
  apply (proj2 (proj2 (proj2
           (gibbs_removal_validation (memory 32) vol_4x4x2 2 3 4)))).
  - reflexivity.
  - reflexivity.
  - lia.
  - lia.
  - right. split; [left; reflexivity|lia].
Defined.

(** ** C2: shape preservation *)

(** C2: a rank-2 image with [slice_axis = 0] is a valid input, yet the
    call raises: line 316 applies [np.swapaxes(vol, slice_axis, 2)] to the
    corrected image without the [nd > 2] guard that line 289 has. *)
Theorem gibbs_removal_single_image_axis0_raises :
  gibbs_removal (memory 16) vol_4x4 0 3 = Err AxisError.
Proof.
  apply (@gibbs_removal_rank2_swapped (memory 16) vol_4x4 4 3);
    try reflexivity; lia.
Qed.

(** ** C3: default weights of the 2D combiner *)

(** C3, as stated, fails: called without weights on a 3 x 3 slice, with
    the default [n_points = 3], [_gibbs_removal_2d] computes the weights
    and then raises in the line corrector instead of returning a slice,
    the rows being shorter than [n_points + 1]. *)
Lemma gibbs_removal_2d_weightless_small_slice_raises :
  (exists g0 g1, _weights (shape2 image_3x3) = Ok (g0, g1))
  /\ _gibbs_removal_2d image_3x3 3 None None = Err BoolIndexError.
Proof.
  change (shape2 image_3x3) with (3, 3). split.
  - rewrite weights_square by lia. do 2 eexists. reflexivity.
  - rewrite gibbs_removal_2d_default_weights.
    change (shape2 image_3x3) with (3, 3).
    rewrite weights_square by lia. cbn [bind].
    apply (@gibbs_removal_2d_short image_3x3 3 _ _ 3 3);
      [apply has_shape_tab|lia|lia|lia|lia].
Qed.

(** C3 (amended): called without weights, [_gibbs_removal_2d] computes
    them with [_weights] from the shape of the slice and then proceeds
    exactly as if they had been passed (same outcome, errors included);
    on a square slice of side at least [n_points + 1], with
    [n_points >= 1], this returns a corrected slice of the same shape. *)
Theorem gibbs_removal_2d_builds_missing_weights (image : arr2 R)
  (n_points : nat) :
  _gibbs_removal_2d image n_points None None
  = ('(g0, g1) <- _weights (shape2 image) ;;
     _gibbs_removal_2d image n_points (Some g0) (Some g1))
  /\ (forall n, has_shape n n image -> 1 <= n_points -> n_points + 1 <= n ->
        exists g0 g1 r,
          _weights (shape2 image) = Ok (g0, g1)
          /\ _gibbs_removal_2d image n_points (Some g0) (Some g1) = Ok r
          /\ _gibbs_removal_2d image n_points None None = Ok r
          /\ has_shape n n r).
Proof.
  split; [apply gibbs_removal_2d_default_weights|].
  intros n Him Hnp Hn.
  rewrite gibbs_removal_2d_default_weights.
  unfold shape2. destruct Him as [H1 H2]. rewrite H1, H2.
  rewrite weights_square by lia. cbn [bind].
  destruct (@gibbs_removal_2d_ok image (tab n n (g0_at n n))
              (tab n n (g1_at n n)) n_points n n)
    as (r & E & Hr & _); try assumption; try apply has_shape_tab.
  { split; assumption. }
  exists (tab n n (g0_at n n)), (tab n n (g1_at n n)), r.
  repeat split; try assumption; apply Hr.
Qed.

Lemma gibbs_removal_2d_builds_missing_weights_witness :
  exists g0 g1 r,
    _weights (shape2 image_4x4) = Ok (g0, g1)
    /\ _gibbs_removal_2d image_4x4 3 (Some g0) (Some g1) = Ok r
    /\ _gibbs_removal_2d image_4x4 3 None None = Ok r
    /\ has_shape 4 4 r.
Proof.
  apply (proj2 (gibbs_removal_2d_builds_missing_weights image_4x4 3) 4).
  - split; reflexivity.
  - lia.
  - lia.
Defined.

(** ** C4: the windowed, periodic total variation *)

Lemma tv_row_read (z : Z) (k : nat) :
  Z.to_nat (z mod 5) = k -> pget tv_row 0 z = nth k [1; 0; 0; 0; 0]%R 0%R.
Proof. intros <-. reflexivity. Qed.

(** C4, as stated, fails for the positive direction.  On the row
    [1, 0, 0, 0, 0] with [n_points = 3] the function returns
    ptv[0] = |x0 - x1| + |x1 - x2| + |x2 - x3| = 1, whereas the stated
    terms [|x[i+1+n] - x[i+2+n]|] add up to 0. *)
Lemma image_tv_positive_score_not_as_claimed :
  exists ptv ntv,
    _image_tv tv_row 1 3 = Ok (ptv, ntv)
    /\ get ptv 0 0 = 1%R
    /\ ptv_claimed tv_row 3 0 0 = 0%R.
Proof.
  exists (tab 1 5 (ptv_at tv_row 3)), (tab 1 5 (ntv_at tv_row 3)).
  split; [|split].
  - apply (@image_tv_axis1 tv_row 3); [cbn; lia|discriminate|lia].
  - rewrite get_tab by lia. unfold ptv_at, fwd_term. cbn [Nat.sub tv_sum].
    rewrite (@tv_row_read (Z.of_nat 0 + Z.of_nat 0) 0) by reflexivity.
    rewrite (@tv_row_read (Z.of_nat 0 + Z.of_nat 0 + 1) 1) by reflexivity.
    rewrite (@tv_row_read (Z.of_nat 0 + Z.of_nat 1) 1) by reflexivity.
    rewrite (@tv_row_read (Z.of_nat 0 + Z.of_nat 1 + 1) 2) by reflexivity.
    rewrite (@tv_row_read (Z.of_nat 0 + Z.of_nat 2) 2) by reflexivity.
    rewrite (@tv_row_read (Z.of_nat 0 + Z.of_nat 2 + 1) 3) by reflexivity.
    cbn [nth]. rewrite Rminus_0_r, Rminus_diag, Rabs_R0, Rabs_R1. lra.
  - unfold ptv_claimed. cbn [Nat.sub tv_sum].
    rewrite (@tv_row_read (Z.of_nat 0 + 1 + Z.of_nat 0) 1) by reflexivity.
    rewrite (@tv_row_read (Z.of_nat 0 + 2 + Z.of_nat 0) 2) by reflexivity.
    rewrite (@tv_row_read (Z.of_nat 0 + 1 + Z.of_nat 1) 2) by reflexivity.
    rewrite (@tv_row_read (Z.of_nat 0 + 2 + Z.of_nat 1) 3) by reflexivity.
    rewrite (@tv_row_read (Z.of_nat 0 + 1 + Z.of_nat 2) 3) by reflexivity.
    rewrite (@tv_row_read (Z.of_nat 0 + 2 + Z.of_nat 2) 4) by reflexivity.
    cbn [nth]. rewrite Rminus_diag, Rabs_R0. lra.
Qed.

(** C4 (amended): with at least [n_points + 1] samples along the axis and
    [n_points >= 1], for each offset n from 0 to n_points-1 the positive
    score accumulates [|x[i+n] - x[i+1+n]|] and the negative score
    [|x[i-n] - x[i-1-n]|], indices taken modulo the length of the axis;
    along axis 0 the same holds down the columns. *)
Theorem image_tv_windowed_periodic (x : arr2 R) (axis n_points : nat) :
  1 <= n_points ->
  (axis <> 0 -> n_points + 1 <= ncol x ->
   _image_tv x axis n_points
   = Ok (tab (nrow x) (ncol x) (ptv_at x n_points),
         tab (nrow x) (ncol x) (ntv_at x n_points)))
  /\ (axis = 0 -> n_points + 1 <= nrow x ->
      _image_tv x axis n_points
      = Ok (tab (nrow x) (ncol x) (fun i j => ptv_at (transpose x) n_points j i),
            tab (nrow x) (ncol x) (fun i j => ntv_at (transpose x) n_points j i))).
Proof.
  intros Hnp. split.
  - intros Hax Hw. apply image_tv_axis1; assumption.
  - intros -> Hw. rewrite image_tv_axis0.
    rewrite image_tv_axis1 by (try discriminate; assumption).
    cbn [bind]. rewrite !transpose_tab. reflexivity.
Qed.

Lemma image_tv_windowed_periodic_witness :
  _image_tv tv_row 1 3
  = Ok (tab 1 5 (ptv_at tv_row 3), tab 1 5 (ntv_at tv_row 3)).
Proof.
  apply (proj1 (@image_tv_windowed_periodic tv_row 1 3 ltac:(lia))).
  - discriminate.
  - cbn. lia.
Defined.

(** ** C5: the weight arrays *)

(** C5: for the shape (4, 6) no weights are returned.  The angular grid
    and both axes of the mesh are built from [shape[0]] alone, so the
    2 x 2 inner block cannot be stored in the 2 x 4 inside of the arrays
    and the assignment of line 173 raises. *)
Theorem weights_nonsquare_raises : _weights (4, 6) = Err BroadcastError.
Proof. apply weights_misfit; lia. Qed.

(** ** C6: the interpolation never divides by zero *)



(** ** C7: constant images *)

(** C7, as stated, fails: on the constant 3 x 3 image, with the default
    [n_points = 3], the line corrector raises instead of returning the
    image, its rows being shorter than [n_points + 1]. *)
Lemma constant_small_image_raises :
  _gibbs_removal_1d image_3x3 1 3 = Err BoolIndexError
  /\ _gibbs_removal_1d image_3x3 1 3 <> Ok image_3x3.
Proof.
  assert (E : _gibbs_removal_1d image_3x3 1 3 = Err BoolIndexError).
  { apply (@gibbs_removal_1d_short_rows image_3x3 1 3 3 3);
      try discriminate; try lia. apply has_shape_tab. }
  split; [exact E|]. rewrite E. discriminate.
Qed.

(** C7 (amended): for every constant image with at least [n_points + 1]
    samples along the corrected axis (and [n_points >= 1]), the baseline
    TV is zero, the search leaves [sp] and [sn] at zero, and the line
    corrector returns the image unchanged. *)
Theorem constant_image_unchanged (M N : nat) (c : R) (axis n_points : nat) :
  1 <= n_points ->
  (if axis =? 0 then 1 <= N /\ n_points + 1 <= M
   else 1 <= M /\ n_points + 1 <= N) ->
  _gibbs_removal_1d (constant M N c) axis n_points = Ok (constant M N c)
  /\ (let xs := if axis =? 0 then transpose (constant M N c)
                else constant M N c in
      exists st, search_loop xs n_points ssamp = Ok st
                 /\ sp st = zeros (shape2 xs) /\ sn st = zeros (shape2 xs)
                 /\ tvp st = zeros (shape2 xs) /\ tvn st = zeros (shape2 xs)).
Proof.
  intros Hnp Hsize. destruct (Nat.eqb_spec axis 0) as [-> | Hax].
  - destruct Hsize as [HN HM]. split.
    + apply gibbs_removal_1d_constant_columns; assumption.
    + cbv zeta. rewrite transpose_constant.
      rewrite search_loop_constant by assumption.
      eexists. split; [reflexivity|]. repeat split.
  - destruct Hsize as [HM HN]. split.
    + apply gibbs_removal_1d_constant_rows; assumption.
    + cbv zeta. rewrite search_loop_constant by assumption.
      eexists. split; [reflexivity|]. repeat split.
Qed.

Lemma constant_image_unchanged_witness :
  _gibbs_removal_1d image_4x4 1 3 = Ok image_4x4.
Proof.
  apply (proj1 (@constant_image_unchanged 4 4 1 1 3 ltac:(lia)
                  ltac:(simpl; lia))).
Defined.

(** ** C8: the shift fields hold 0 or a trial shift *)



(** ** C9: slices along axis 0 *)

(** C9: on a rank-3 volume, [gibbs_removal(vol, slice_axis=0)] is the
    same computation as exchanging axes 0 and 2, running with
    [slice_axis = 2] and exchanging the axes back: same outcome, same
    store, same returned view; and both return a result when the two
    in-plane dimensions are equal and at least [n_points + 1]. *)
Theorem axis0_is_swap_run_swap (st : store) (vol : ndarray)
  (n_points n : nat) :
  ndim vol = 3 ->
  gibbs_removal st vol 0 n_points
  = (v <- swapaxes vol 0 2 ;;
     '(st', r) <- gibbs_removal st v 2 n_points ;;
     r' <- swapaxes r 0 2 ;;
     Ok (st', r'))
  /\ (wf_nd vol -> plane vol 0 = (n, n) ->
      1 <= n_points -> n_points + 1 <= n ->
      exists st', gibbs_removal st vol 0 n_points = Ok (st', vol)).
Proof.
  intros Hnd. split.
  - rewrite swapaxes_ok by lia. cbn [bind].
    unfold gibbs_removal. rewrite Hnd.
    assert (Hnd' : ndim (mk_nd (base vol) (offset vol)
                           (swap_nth (shape vol) 0 2)
                           (swap_nth (strides vol) 0 2)) = 3).
    { unfold ndim. cbn [shape]. rewrite length_swap_nth. exact Hnd. }
    rewrite Hnd'.
    cbn [Nat.ltb Nat.leb Nat.eqb andb bind].
    rewrite swapaxes_ok by lia. cbn [bind].
    destruct (_weights _) as [[G0 G1]|e]; cbn [bind]; [|reflexivity].
    destruct (correct_slices _ _ _ _ _ _) as [st'|e]; cbn [bind]; [|reflexivity].
    destruct (swapaxes _ 0 2) as [r'|e]; reflexivity.
  - intros Hwf Hpl Hnp Hn.
    destruct (@gibbs_removal_rank3_ok st vol 0 n_points n Hnd Hwf
                ltac:(lia) Hpl Hnp Hn) as (st' & E & _).
    exists st'. exact E.
Qed.

Lemma axis0_is_swap_run_swap_witness :
  gibbs_removal (memory 32) vol_2x4x4 0 3
  = (v <- swapaxes vol_2x4x4 0 2 ;;
     '(st', r) <- gibbs_removal (memory 32) v 2 3 ;;
     r' <- swapaxes r 0 2 ;;
     Ok (st', r'))
  /\ exists st', gibbs_removal (memory 32) vol_2x4x4 0 3 = Ok (st', vol_2x4x4).
Proof.
  destruct (@axis0_is_swap_run_swap (memory 32) vol_2x4x4 3 4 eq_refl)
    as [Heq Hok].
  split; [exact Heq|].
  apply Hok; [reflexivity|reflexivity|lia|lia].
Defined.

(** ** C10: where the corrected data is stored *)

(** C10, as stated, fails for rank 4: on a C-contiguous volume of shape
    (2, 4, 4, 2) with [slice_axis = 0] the swapped view cannot be
    flattened without copying, the slices are corrected in the copy, the
    returned array lives in the new buffer and the caller's buffer is
    left as it was. *)
Lemma rank4_axis0_result_is_a_copy :
  exists st' r,
    gibbs_removal (memory 64) vol_2x4x4x2 0 3 = Ok (st', r)
    /\ base r <> base vol_2x4x4x2
    /\ buffer st' (base vol_2x4x4x2) = buffer (memory 64) (base vol_2x4x4x2).
Proof.
  destruct (@gibbs_removal_rank4_copy (memory 64) vol_2x4x4x2 0 3 4)
    as (st' & r & E & Hb & _ & Hold);
    try reflexivity; try lia.
  exists st', r. split; [exact E|]. split.
  - rewrite Hb. cbn. discriminate.
  - apply Hold. cbn. lia.
Qed.

(** C10 (amended): with [n_points >= 1] and a square plane (the first
    two axes once the slice axis is at position 2) of side at least
    [n_points + 1].
    - Rank 3, the swapped view addressing its buffer properly: each
      corrected slice is stored through that view into the caller's
      buffer, so that afterwards every slice of the caller's array
      holds the corrected slice; no other buffer is touched and the
      caller's array itself is returned.
    - Rank 4, the swapped view flattened by [reshape] without a copy:
      the returned array is a view of the caller's buffer, of the shape
      of the input, and no other buffer is touched; when the flattened
      view addresses its buffer properly, every plane (z, g) of the
      caller's array holds the corrected plane afterwards.
    - Rank 4, the swapped view not flattened in place: [reshape]
      copies, the result lives in a new buffer, and no buffer of the
      caller is written.
    - Rank 2 (with [slice_axis = 2]): the result is a newly allocated
      array, the buffers of the caller being left as they were. *)
Theorem gibbs_removal_result_storage (st : store) (vol : ndarray)
  (slice_axis n_points n : nat) :
  wf_nd vol -> slice_axis <= 2 -> plane vol slice_axis = (n, n) ->
  1 <= n_points -> n_points + 1 <= n ->
  (ndim vol = 3 -> valid_view st (working_view vol slice_axis) ->
   exists st',
     gibbs_removal st vol slice_axis n_points = Ok (st', vol)
     /\ length st' = length st
     /\ (forall b, b <> base vol -> buffer st' b = buffer st b)
     /\ (forall v, v < dim (working_view vol slice_axis) 2 ->
           _gibbs_removal_2d (read_slice st (working_view vol slice_axis) v)
             n_points (Some (tab n n (g0_at n n))) (Some (tab n n (g1_at n n)))
           = Ok (read_slice st' (working_view vol slice_axis) v)))
  /\ (ndim vol = 4 ->
      flattens_in_place (working_view vol slice_axis) = true ->
      exists st' r,
        gibbs_removal st vol slice_axis n_points = Ok (st', r)
        /\ base r = base vol /\ shape r = shape vol
        /\ length st' = length st
        /\ (forall b, b <> base vol -> buffer st' b = buffer st b)
        /\ (valid_view st (snd (flatten st (working_view vol slice_axis))) ->
            forall z g,
              z < dim (working_view vol slice_axis) 2 ->
              g < dim (working_view vol slice_axis) 3 ->
              _gibbs_removal_2d
                (read_plane st (working_view vol slice_axis) z g)
                n_points (Some (tab n n (g0_at n n)))
                (Some (tab n n (g1_at n n)))
              = Ok (read_plane st' (working_view vol slice_axis) z g)))
  /\ (ndim vol = 4 ->
      flattens_in_place (working_view vol slice_axis) = false ->
      exists st' r,
        gibbs_removal st vol slice_axis n_points = Ok (st', r)
        /\ base r = length st /\ shape r = shape vol
        /\ (forall b, b < length st -> buffer st' b = buffer st b))
  /\ (ndim vol = 2 -> slice_axis = 2 ->
      exists r,
        has_shape n n r
        /\ gibbs_removal st vol slice_axis n_points
           = Ok (st ++ [dat r], mk_nd (length st) 0 [n; n] [n; 1])).
Proof.
  intros Hwf Hax Hpl Hnp Hn. split; [|split; [|split]].
  - intros Hnd Hvalid.
    exact (@gibbs_removal_rank3_in_place st vol slice_axis n_points n
             Hwf Hax Hpl Hnp Hn Hnd Hvalid).
  - intros Hnd Hfl.
    destruct (@gibbs_removal_rank4_in_place st vol slice_axis n_points n
                Hwf Hax Hpl Hnp Hn Hnd Hfl)
      as (st' & r & E & Hb & Hsh & Hlen & Hoth).
    exists st', r. repeat (split; [assumption|]).
    intros Hvalid.
    exact (@gibbs_removal_rank4_planes st vol slice_axis n_points n st' r
             Hwf Hax Hpl Hnp Hn Hnd Hfl E Hvalid).
  - intros Hnd Hfl.
    exact (@gibbs_removal_rank4_copy st vol slice_axis n_points n
             Hwf Hax Hpl Hnp Hn Hnd Hfl).
  - intros Hnd ->.
    unfold plane in Hpl. rewrite Hnd in Hpl. cbn [Nat.ltb Nat.leb andb] in Hpl.
    injection Hpl as Hd0 Hd1.
    exact (@gibbs_removal_rank2 st vol n n_points Hnd Hd0 Hd1 Hnp Hn).
Qed.

Lemma gibbs_removal_result_storage_witness :
  (exists st',
     gibbs_removal (memory 32) vol_2x4x4 0 3 = Ok (st', vol_2x4x4)
     /\ length st' = length (memory 32))
  /\ (exists st' r,
        gibbs_removal (memory 64) vol_4x4x2x2 2 3 = Ok (st', r)
        /\ base r = base vol_4x4x2x2
        /\ forall z g, z < 2 -> g < 2 ->
             _gibbs_removal_2d
               (read_plane (memory 64) (working_view vol_4x4x2x2 2) z g)
               3 (Some (tab 4 4 (g0_at 4 4))) (Some (tab 4 4 (g1_at 4 4)))
             = Ok (read_plane st' (working_view vol_4x4x2x2 2) z g)).
Proof.
  split.
  - destruct (@gibbs_removal_result_storage (memory 32) vol_2x4x4 0 3 4)
      as (H3 & _); try reflexivity; try lia.
    destruct H3 as (st' & E & Hlen & _).
    + reflexivity.
    + apply (@valid_view_c3 (memory 32) 0 2 4 4 0); cbn; lia.
    + exists st'. split; assumption.
  - destruct (@gibbs_removal_result_storage (memory 64) vol_4x4x2x2 2 3 4)
      as (_ & H4 & _); try reflexivity; try lia.
    destruct H4 as (st' & r & E & Hb & _ & _ & _ & Hplanes).
    + reflexivity.
    + apply c_contiguous_flattens.
    + exists st', r. split; [exact E|]. split; [exact Hb|].
      apply Hplanes.
      apply (@valid_view_flat_c4 (memory 64) 0 4 4 2 2); cbn; lia.
Defined.

(** * Further properties of the module *)

(** ** [_image_tv] *)

(** X1: whatever its arguments, when [_image_tv] returns, both score
    maps are non-negative at every pixel (they are sums of absolute
    differences). *)
Theorem image_tv_scores_nonnegative (x : arr2 R) (axis n_points : nat)
  (ptv ntv : arr2 R) :
  _image_tv x axis n_points = Ok (ptv, ntv) ->
  entries nonnegative ptv /\ entries nonnegative ntv.
Proof. apply image_tv_nonneg. Qed.

Lemma image_tv_scores_nonnegative_witness :
  entries nonnegative (tab 1 5 (ptv_at tv_row 3))
  /\ entries nonnegative (tab 1 5 (ntv_at tv_row 3)).
Proof.
  apply (@image_tv_scores_nonnegative tv_row 1 3).
  apply (@image_tv_axis1 tv_row 3); [cbn; lia|discriminate|lia].
Defined.

(** X2: when the axis has no more than [n_points] samples, [_image_tv]
    does not raise: it returns score maps that are narrower than the
    image, with 3 N - 2 n_points - 2 columns (none when that is
    negative) instead of N. *)
Theorem image_tv_short_axis_narrows (x : arr2 R) (axis n_points M N : nat) :
  axis <> 0 -> has_shape M N x -> 1 <= n_points -> N <= n_points ->
  exists ptv ntv,
    _image_tv x axis n_points = Ok (ptv, ntv)
    /\ has_shape M (3 * N - 2 * n_points - 2) ptv
    /\ has_shape M (3 * N - 2 * n_points - 2) ntv.
Proof.
  intros Hax Hx Hnp HN. exact (@image_tv_short M N n_points HN x axis Hax Hx Hnp).
Qed.

Lemma image_tv_short_axis_narrows_witness :
  exists ptv ntv,
    _image_tv image_3x3 1 3 = Ok (ptv, ntv)
    /\ has_shape 3 1 ptv /\ has_shape 3 1 ntv.
Proof.
  apply (@image_tv_short_axis_narrows image_3x3 1 3 3 3).
  - discriminate.
  - apply has_shape_tab.
  - lia.
  - lia.
Defined.

(** X3: with [n_points = 0] and at least two samples along the axis,
    [_image_tv] raises: the slice [(n_points+2):(-n_points)] of line 45
    ends at 0 and is empty, so the first difference cannot be broadcast. *)
Theorem image_tv_no_points_raises (x : arr2 R) (axis : nat) :
  (if axis =? 0 then 2 <= nrow x else 2 <= ncol x) ->
  _image_tv x axis 0 = Err BroadcastError.
Proof.
  destruct (Nat.eqb_spec axis 0) as [-> | Hax]; intros Hsize.
  - rewrite image_tv_axis0.
    rewrite image_tv_rows_zero_points; [reflexivity|discriminate|].
    unfold transpose. rewrite ncol_tab. exact Hsize.
  - apply image_tv_rows_zero_points; assumption.
Qed.

Lemma image_tv_no_points_raises_witness :
  _image_tv tv_row 1 0 = Err BroadcastError.
Proof. apply (@image_tv_no_points_raises tv_row 1). cbn. lia. Defined.

(** ** [_gibbs_removal_1d] *)

(** X4: on an image with at least one line and at least [n_points + 1]
    samples along the corrected axis ([n_points >= 1]),
    [_gibbs_removal_1d] returns an array of the shape of its input. *)
Theorem gibbs_removal_1d_keeps_shape (x : arr2 R) (axis n_points M N : nat) :
  has_shape M N x -> 1 <= n_points ->
  (if axis =? 0 then 1 <= N /\ n_points + 1 <= M
   else 1 <= M /\ n_points + 1 <= N) ->
  exists r, _gibbs_removal_1d x axis n_points = Ok r /\ has_shape M N r.
Proof.
  intros Hx Hnp. destruct (Nat.eqb_spec axis 0) as [-> | Hax]; intros [H1 H2].
  - apply gibbs_removal_1d_axis0_ok; assumption.
  - apply gibbs_removal_1d_axis1_ok; assumption.
Qed.

Lemma gibbs_removal_1d_keeps_shape_witness :
  exists r, _gibbs_removal_1d ramp_4x4 0 3 = Ok r /\ has_shape 4 4 r.
Proof.
  apply (@gibbs_removal_1d_keeps_shape ramp_4x4 0 3 4 4).
  - apply has_shape_tab.
  - lia.
  - cbn. lia.
Defined.

(** X5: when the corrected axis has N samples with
    (2 n_points + 3) / 3 <= N <= n_points, [_gibbs_removal_1d] raises
    [IndexError] in the first pass of the search: the score maps are
    narrower than the image, and the boolean mask built from them does
    not match the arrays it indexes. *)
Theorem gibbs_removal_1d_short_axis_raises (x : arr2 R)
  (axis n_points M N : nat) :
  has_shape M N x ->
  (if axis =? 0
   then 1 <= N /\ 1 <= M /\ M <= n_points /\ 2 * n_points + 3 <= 3 * M
   else 1 <= M /\ 1 <= N /\ N <= n_points /\ 2 * n_points + 3 <= 3 * N) ->
  _gibbs_removal_1d x axis n_points = Err BoolIndexError.
Proof.
  intros Hx. destruct (Nat.eqb_spec axis 0) as [-> | Hax];
    intros (H1 & H2 & H3 & H4).
  - rewrite gibbs_removal_1d_axis0.
    rewrite (@gibbs_removal_1d_short_rows (transpose x) 1 n_points N M);
      try assumption; try discriminate; [reflexivity|].
    apply has_shape_transpose. exact Hx.
  - apply (@gibbs_removal_1d_short_rows x axis n_points M N); assumption.
Qed.

Lemma gibbs_removal_1d_short_axis_raises_witness :
  _gibbs_removal_1d image_3x3 0 3 = Err BoolIndexError.
Proof.
  apply (@gibbs_removal_1d_short_axis_raises image_3x3 0 3 3 3).
  - apply has_shape_tab.
  - cbn. lia.
Defined.

(** X6: throughout the shift search (after any number of trial shifts),
    at every pixel and for each direction, either nothing is recorded -
    the shift is 0, the stored sample is the sample of the input and the
    stored score is the score of the input - or the recorded shift lies
    in [0.02, 0.9] and the stored score is non-negative and strictly
    below the score of the input. *)
Theorem search_records_only_improvements (xs : arr2 R)
  (M N n_points k : nat) :
  has_shape M N xs -> wf xs ->
  1 <= M -> 1 <= n_points -> n_points + 1 <= N ->
  exists st,
    search_loop xs n_points (firstn k ssamp) = Ok st
    /\ forall i j, i < M -> j < N ->
         recorded (fun v => (0.02 <= v <= 0.9)%R) xs n_points
                  (sp st) (isp st) (tvp st) i j
         /\ recorded (fun v => (0.02 <= v <= 0.9)%R) xs n_points
                     (sn st) (isn st) (tvn st) i j.
Proof.
  intros Hx Wx HM Hnp HN.
  destruct (@record_inv_loop M N n_points HM Hnp HN xs Hx Wx
              (fun v => (0.02 <= v <= 0.9)%R) (firstn k ssamp))
    as (st & E & _ & _ & Hrec).
  - apply Forall_forall. intros s Hs. apply ssamp_range.
    apply (firstn_incl k). exact Hs.
  - exists st. split; [exact E|exact Hrec].
Qed.

Lemma search_records_only_improvements_witness :
  exists st,
    search_loop ramp_4x4 3 (firstn 45 ssamp) = Ok st
    /\ recorded (fun v => (0.02 <= v <= 0.9)%R) ramp_4x4 3
                (sp st) (isp st) (tvp st) 0 0.
Proof.
  destruct (@search_records_only_improvements ramp_4x4 4 4 3 45
              (has_shape_tab _ _ _) (wf_tab _ _ _)
              ltac:(lia) ltac:(lia) ltac:(lia))
    as (st & E & Hrec).
  exists st. split; [exact E|].
  apply (proj1 (Hrec 0 0 ltac:(lia) ltac:(lia))).
Defined.

(** X7: the array [_gibbs_removal_1d] returns (along axis 1), pixel by
    pixel: where [sp + sn] is 0 the sample of the input, elsewhere the
    value of line 135, which lies between the two candidate samples
    [isp] and [isn]. *)
Theorem gibbs_removal_1d_pixelwise (x : arr2 R) (axis n_points M N : nat) :
  axis <> 0 -> has_shape M N x -> wf x ->
  1 <= M -> 1 <= n_points -> n_points + 1 <= N ->
  exists st,
    search_loop x n_points ssamp = Ok st
    /\ _gibbs_removal_1d x axis n_points
       = Ok (tab M N (fun i j =>
               if Rnonzero (get (sp st) i j + get (sn st) i j)
               then interpolated st i j else get x i j))
    /\ forall i j, i < M -> j < N ->
         (get (sp st) i j + get (sn st) i j)%R <> 0%R ->
         (Rmin (get (isp st) i j) (get (isn st) i j)
          <= interpolated st i j
          <= Rmax (get (isp st) i j) (get (isn st) i j))%R.
Proof.
  intros Hax Hx Wx HM Hnp HN.
  destruct (@gibbs_removal_1d_rows_tab x axis n_points M N)
    as (st & E & Hinv & Er); try assumption.
  exists st. split; [exact E|]. split; [exact Er|].
  intros i j Hi Hj Hne. destruct Hinv as (_ & _ & Hrec).
  destruct (Hrec i j Hi Hj) as [Rp Rn].
  unfold interpolated. apply interpolated_between; try exact Hne.
  - destruct Rp as [(-> & _) | ([H1 _] & _)]; lra.
  - destruct Rn as [(-> & _) | ([H1 _] & _)]; lra.
Qed.

Lemma gibbs_removal_1d_pixelwise_witness :
  exists st,
    search_loop ramp_4x4 3 ssamp = Ok st
    /\ _gibbs_removal_1d ramp_4x4 1 3
       = Ok (tab 4 4 (fun i j =>
               if Rnonzero (get (sp st) i j + get (sn st) i j)
               then interpolated st i j else get ramp_4x4 i j)).
Proof.
  destruct (@gibbs_removal_1d_pixelwise ramp_4x4 1 3 4 4
              ltac:(discriminate) (has_shape_tab _ _ _) (wf_tab _ _ _)
              ltac:(lia) ltac:(lia) ltac:(lia))
    as (st & E & Er & _).
  exists st. split; assumption.
Defined.

(** X8: [_gibbs_removal_1d] (along axis 1) changes a pixel only where
    the search has recorded a shift in both directions: where [sp] or
    [sn] is 0 the returned sample is the sample of the input.  So a
    pixel is changed only if trial shifts strictly lowered its score
    both ways. *)
Theorem gibbs_removal_1d_changes_need_both_shifts (x : arr2 R)
  (axis n_points M N : nat) :
  axis <> 0 -> has_shape M N x -> wf x ->
  1 <= M -> 1 <= n_points -> n_points + 1 <= N ->
  exists st r,
    search_loop x n_points ssamp = Ok st
    /\ _gibbs_removal_1d x axis n_points = Ok r
    /\ forall i j, i < M -> j < N ->
         (get (sp st) i j = 0%R \/ get (sn st) i j = 0%R ->
          get r i j = get x i j)
         /\ (get r i j <> get x i j ->
             (get (tvp st) i j < tv_min x n_points i j)%R
             /\ (get (tvn st) i j < tv_min x n_points i j)%R).
Proof.
  intros Hax Hx Wx HM Hnp HN.
  destruct (@gibbs_removal_1d_rows_tab x axis n_points M N)
    as (st & E & Hinv & Er); try assumption.
  exists st. eexists. split; [exact E|]. split; [exact Er|].
  intros i j Hi Hj. destruct Hinv as (_ & _ & Hrec).
  destruct (Hrec i j Hi Hj) as [Rp Rn].
  assert (Hone : get (sp st) i j = 0%R \/ get (sn st) i j = 0%R ->
                 get (tab M N (fun i j =>
                        if Rnonzero (get (sp st) i j + get (sn st) i j)
                        then interpolated st i j else get x i j)) i j
                 = get x i j).
  { intros Hz. rewrite get_tab by assumption.
    destruct (Rnonzero (get (sp st) i j + get (sn st) i j)) eqn:Enz;
      [|reflexivity].
    apply Rnonzero_true in Enz.
    apply (@interpolated_one_sided (fun v => (0.02 <= v <= 0.9)%R)
             x n_points st i j Rp Rn); try assumption.
    intros v Hv. lra. }
  split; [exact Hone|].
  intros Hchg.
  destruct Rp as [(Hz & _) | (_ & Hp)];
    [exfalso; apply Hchg, Hone; left; exact Hz|].
  destruct Rn as [(Hz & _) | (_ & Hn)];
    [exfalso; apply Hchg, Hone; right; exact Hz|].
  split; lra.
Qed.

Lemma gibbs_removal_1d_changes_need_both_shifts_witness :
  exists st r,
    search_loop ramp_4x4 3 ssamp = Ok st
    /\ _gibbs_removal_1d ramp_4x4 1 3 = Ok r.
Proof.
  destruct (@gibbs_removal_1d_changes_need_both_shifts ramp_4x4 1 3 4 4
              ltac:(discriminate) (has_shape_tab _ _ _) (wf_tab _ _ _)
              ltac:(lia) ltac:(lia) ltac:(lia))
    as (st & r & E & Er & _).
  exists st, r. split; assumption.
Defined.

(** ** [_weights] *)

(** X9: for every square shape (n, n), n >= 1, [_weights] returns two
    arrays of that shape whose entries lie in [0, 1] and add up to 1 at
    every pixel. *)
Theorem weights_square_complementary (n : nat) :
  1 <= n ->
  exists G0 G1,
    _weights (n, n) = Ok (G0, G1)
    /\ has_shape n n G0 /\ has_shape n n G1
    /\ forall i j, i < n -> j < n ->
         (get G0 i j + get G1 i j = 1
          /\ 0 <= get G0 i j <= 1 /\ 0 <= get G1 i j <= 1)%R.
Proof.
  intros Hn. exists (tab n n (g0_at n n)), (tab n n (g1_at n n)).
  split; [apply weights_square; exact Hn|].
  split; [apply has_shape_tab|]. split; [apply has_shape_tab|].
  intros i j Hi Hj. rewrite !get_tab by assumption.
  apply weights_complementary; assumption.
Qed.

Lemma weights_square_complementary_witness :
  exists G0 G1,
    _weights (4, 4) = Ok (G0, G1)
    /\ has_shape 4 4 G0 /\ has_shape 4 4 G1
    /\ forall i j, i < 4 -> j < 4 ->
         (get G0 i j + get G1 i j = 1
          /\ 0 <= get G0 i j <= 1 /\ 0 <= get G1 i j <= 1)%R.
Proof. apply (@weights_square_complementary 4). lia. Defined.

(** X10: for a square shape the two weight arrays are transposes of
    each other: [G0[i, j] = G1[j, i]]. *)
Theorem weights_mirror_each_other (n : nat) :
  1 <= n ->
  exists G0 G1,
    _weights (n, n) = Ok (G0, G1)
    /\ G0 = transpose G1 /\ G1 = transpose G0.
Proof.
  intros Hn. exists (tab n n (g0_at n n)), (tab n n (g1_at n n)).
  split; [apply weights_square; exact Hn|].
  rewrite !transpose_tab.
  split; apply tab_ext; intros i j _ _;
    [apply weights_mirrored | symmetry; apply weights_mirrored].
Qed.

Lemma weights_mirror_each_other_witness :
  exists G0 G1,
    _weights (4, 4) = Ok (G0, G1)
    /\ G0 = transpose G1 /\ G1 = transpose G0.
Proof. apply (@weights_mirror_each_other 4). lia. Defined.

(** X11: [_weights] raises (the inner block cannot be broadcast) for
    every shape (M, N) whose inner extents max(M-2, 0) and max(N-2, 0)
    differ, unless M = 3: the grid of both axes is built from M alone. *)
Theorem weights_inner_misfit_raises (M N : nat) :
  M - 2 <> N - 2 -> M <> 3 -> _weights (M, N) = Err BroadcastError.
Proof. apply weights_misfit. Qed.

Lemma weights_inner_misfit_raises_witness :
  _weights (5, 7) = Err BroadcastError.
Proof. apply (@weights_inner_misfit_raises 5 7); lia. Defined.

(** X12: a shape (3, N) is accepted whatever N >= 1 is: the single
    inner sample is broadcast along the row.  The two arrays still lie
    in [0, 1] and add up to 1, and both are 1/2 all along the inside of
    the middle row. *)
Theorem weights_three_rows_accepted (N : nat) :
  1 <= N ->
  exists G0 G1,
    _weights (3, N) = Ok (G0, G1)
    /\ has_shape 3 N G0 /\ has_shape 3 N G1
    /\ (forall i j, i < 3 -> j < N ->
          (get G0 i j + get G1 i j = 1
           /\ 0 <= get G0 i j <= 1 /\ 0 <= get G1 i j <= 1)%R)
    /\ (forall j, 1 <= j -> j < N - 1 ->
          get G0 1 j = (1 / 2)%R /\ get G1 1 j = (1 / 2)%R).
Proof.
  intros Hn. rewrite weights_three_rows by exact Hn.
  do 2 eexists. split; [reflexivity|].
  split; [apply has_shape_tab|]. split; [apply has_shape_tab|]. split.
  - intros i j Hi Hj. rewrite !get_tab by assumption.
    destruct (is_corner 3 N i j); [lra|].
    destruct (is_inner N j); [destruct (i =? 1); lra|lra].
  - intros j H1 H2. rewrite !get_tab by lia.
    unfold is_corner, is_inner. cbn [Nat.eqb orb andb].
    destruct (Nat.leb_spec 1 j); [|lia].
    destruct (Nat.ltb_spec j (N - 1)); [|lia].
    split; reflexivity.
Qed.

Lemma weights_three_rows_accepted_witness :
  exists G0 G1,
    _weights (3, 6) = Ok (G0, G1)
    /\ has_shape 3 6 G0 /\ has_shape 3 6 G1
    /\ (forall i j, i < 3 -> j < 6 ->
          (get G0 i j + get G1 i j = 1
           /\ 0 <= get G0 i j <= 1 /\ 0 <= get G1 i j <= 1)%R)
    /\ (forall j, 1 <= j -> j < 6 - 1 ->
          get G0 1 j = (1 / 2)%R /\ get G1 1 j = (1 / 2)%R).
Proof. apply (@weights_three_rows_accepted 6). lia. Defined.

(** X13: [_weights] never returns for an empty shape: with M N = 0 it
    raises [IndexError] at the first integer index on the empty axis
    when the inner block fits, and the broadcast error of the inner
    block otherwise. *)
Theorem weights_empty_shape_raises (M N : nat) :
  M * N = 0 ->
  _weights (M, N)
  = Err (if (M - 2 =? N - 2) || (M =? 3) then IndexError
         else BroadcastError).
Proof.
  intros Hempty.
  destruct (Nat.eqb_spec (M - 2) (N - 2)) as [E|E]; cbn [orb].
  - apply weights_empty; [exact Hempty|left; exact E].
  - destruct (Nat.eqb_spec M 3) as [E3|E3].
    + apply weights_empty; [exact Hempty|right; exact E3].
    + apply weights_misfit; assumption.
Qed.

Lemma weights_empty_shape_raises_witness :
  _weights (0, 0) = Err IndexError.
Proof. apply (@weights_empty_shape_raises 0 0). reflexivity. Defined.

(** ** [_gibbs_removal_2d] *)

(** X14: whenever [_gibbs_removal_2d] returns, every sample of the
    result is non-negative: the result is the magnitude of an inverse
    transform, whatever the sign of the input samples. *)
Theorem gibbs_removal_2d_result_nonnegative (image : arr2 R)
  (n_points : nat) (G0 G1 : option (arr2 R)) (r : arr2 R) :
  _gibbs_removal_2d image n_points G0 G1 = Ok r -> entries nonnegative r.
Proof. apply gibbs_removal_2d_nonneg. Qed.

Lemma gibbs_removal_2d_result_nonnegative_witness :
  exists r, _gibbs_removal_2d ramp_4x4 3 None None = Ok r
            /\ entries nonnegative r.
Proof.
  destruct (@gibbs_removal_2d_ok ramp_4x4 (tab 4 4 (g0_at 4 4))
              (tab 4 4 (g1_at 4 4)) 3 4 4) as (r & E & _);
    try apply has_shape_tab; try lia.
  assert (E' : _gibbs_removal_2d ramp_4x4 3 None None = Ok r).
  { rewrite gibbs_removal_2d_default_weights.
    change (shape2 ramp_4x4) with (4, 4).
    rewrite weights_square by lia. exact E. }
  exists r. split; [exact E'|].
  exact (@gibbs_removal_2d_result_nonnegative ramp_4x4 3 None None r E').
Defined.

(** X15: given weights of the shape of the image, [_gibbs_removal_2d]
    corrects any M x N image with both sides at least [n_points + 1],
    square or not, into an M x N array; called without weights on a
    shape whose inner extents differ (and M <> 3) it raises, because
    [_weights] does. *)
Theorem gibbs_removal_2d_given_weights_any_shape (image G0 G1 : arr2 R)
  (n_points M N : nat) :
  has_shape M N image -> has_shape M N G0 -> has_shape M N G1 ->
  1 <= n_points -> n_points + 1 <= M -> n_points + 1 <= N ->
  (exists r, _gibbs_removal_2d image n_points (Some G0) (Some G1) = Ok r
             /\ has_shape M N r)
  /\ (M - 2 <> N - 2 -> M <> 3 ->
      _gibbs_removal_2d image n_points None None = Err BroadcastError).
Proof.
  intros Him HG0 HG1 Hnp HM HN. split.
  - destruct (@gibbs_removal_2d_ok image G0 G1 n_points M N)
      as (r & E & Hr & _); try assumption.
    exists r. split; assumption.
  - intros Hne H3. destruct Him as [<- <-].
    apply gibbs_removal_2d_misfit_shape; assumption.
Qed.

Lemma gibbs_removal_2d_given_weights_any_shape_witness :
  (exists r, _gibbs_removal_2d (constant 4 6 1) 3
               (Some (constant 4 6 (1 / 2))) (Some (constant 4 6 (1 / 2)))
             = Ok r /\ has_shape 4 6 r)
  /\ _gibbs_removal_2d (constant 4 6 1) 3 None None = Err BroadcastError.
Proof.
  destruct (@gibbs_removal_2d_given_weights_any_shape (constant 4 6 1)
              (constant 4 6 (1 / 2)) (constant 4 6 (1 / 2)) 3 4 6)
    as [Hok Herr]; try apply has_shape_tab; try lia.
  split; [exact Hok|]. apply Herr; lia.
Defined.

(** X16: when only one of the two weight arrays is passed,
    [_gibbs_removal_2d] discards it and computes both from the shape of
    the image, exactly as when none is passed. *)
Theorem gibbs_removal_2d_lone_weight_discarded (image G : arr2 R)
  (n_points : nat) :
  _gibbs_removal_2d image n_points (Some G) None
  = _gibbs_removal_2d image n_points None None
  /\ _gibbs_removal_2d image n_points None (Some G)
     = _gibbs_removal_2d image n_points None None.
Proof.
  split; apply gibbs_removal_2d_one_missing; [right|left]; reflexivity.
Qed.

(** X17: on an image that the line corrector accepts,
    [_gibbs_removal_2d] raises the broadcast error when one of the two
    weight arrays passed cannot be broadcast against the image. *)
Theorem gibbs_removal_2d_weight_misfit_raises (image G0 G1 : arr2 R)
  (n_points M N : nat) :
  has_shape M N image ->
  1 <= n_points -> n_points + 1 <= M -> n_points + 1 <= N ->
  (bdim M (nrow G1) = None \/ bdim N (ncol G1) = None)
  \/ (bdim M (nrow G0) = None \/ bdim N (ncol G0) = None) ->
  _gibbs_removal_2d image n_points (Some G0) (Some G1) = Err BroadcastError.
Proof. apply gibbs_removal_2d_weight_misfit. Qed.

Lemma gibbs_removal_2d_weight_misfit_raises_witness :
  _gibbs_removal_2d ramp_4x4 3 (Some (constant 4 4 (1 / 2)))
    (Some (constant 4 6 (1 / 2))) = Err BroadcastError.
Proof.
  apply (@gibbs_removal_2d_weight_misfit_raises ramp_4x4
           (constant 4 4 (1 / 2)) (constant 4 6 (1 / 2)) 3 4 4);
    try apply has_shape_tab; try lia.
  left. right. reflexivity.
Defined.

(** ** [gibbs_removal] *)

(** X18: [gibbs_removal] raises the broadcast error of [_weights] for
    every input of rank 2, 3 or 4 whose plane (the first two axes once
    the slice axis is at position 2) has inner extents that differ,
    unless the plane has 3 rows: only square planes (and planes of 3
    rows) are processed. *)
Theorem gibbs_removal_plane_misfit_raises (st : store) (vol : ndarray)
  (slice_axis n_points M N : nat) :
  wf_nd vol -> slice_axis <= 2 ->
  ndim vol = 2 \/ ndim vol = 3 \/ ndim vol = 4 ->
  plane vol slice_axis = (M, N) -> M - 2 <> N - 2 -> M <> 3 ->
  gibbs_removal st vol slice_axis n_points = Err BroadcastError.
Proof.
  intros Hwf Hax Hnd Hpl Hne H3.
  pose proof (@weights_misfit M N Hne H3) as Hw.
  destruct Hnd as [Hnd | [Hnd | Hnd]].
  - rewrite gibbs_removal_rank2_unfold by assumption.
    unfold plane in Hpl. rewrite Hnd in Hpl.
    change (2 <? 2) with false in Hpl. rewrite andb_false_r in Hpl.
    unfold dim. rewrite Hpl, Hw. reflexivity.
  - rewrite gibbs_removal_rank3_unfold by assumption.
    rewrite Hpl, Hw. reflexivity.
  - apply gibbs_removal_rank4_weights; try assumption.
    rewrite Hpl. exact Hw.
Qed.

Lemma gibbs_removal_plane_misfit_raises_witness :
  gibbs_removal (memory 24) vol_4x6 2 3 = Err BroadcastError.
Proof.
  apply (@gibbs_removal_plane_misfit_raises (memory 24) vol_4x6 2 3 4 6);
    [reflexivity|lia|left; reflexivity|reflexivity|lia|lia].
Defined.

(** X19: for every single image (rank 2) with a square plane of side at
    least [n_points + 1], [gibbs_removal] with [slice_axis] 0 or 1
    corrects the image and then raises at line 317, where
    [np.swapaxes(vol, slice_axis, 2)] is applied to the rank-2 result;
    with [slice_axis = 2] the same image is returned corrected. *)
Theorem gibbs_removal_single_image_needs_axis_2 (st : store) (vol : ndarray)
  (slice_axis n_points n : nat) :
  ndim vol = 2 -> dim vol 0 = n -> dim vol 1 = n ->
  1 <= n_points -> n_points + 1 <= n ->
  (slice_axis < 2 ->
   gibbs_removal st vol slice_axis n_points = Err AxisError)
  /\ exists r, has_shape n n r
       /\ gibbs_removal st vol 2 n_points
          = Ok (st ++ [dat r], mk_nd (length st) 0 [n; n] [n; 1]).
Proof.
  intros Hnd Hd0 Hd1 Hnp Hn. split.
  - intros Hax.
    exact (@gibbs_removal_rank2_swapped st vol n n_points Hnd Hd0 Hd1 Hnp Hn
             slice_axis Hax).
  - exact (@gibbs_removal_rank2 st vol n n_points Hnd Hd0 Hd1 Hnp Hn).
Qed.

Lemma gibbs_removal_single_image_needs_axis_2_witness :
  gibbs_removal (memory 16) vol_4x4 1 3 = Err AxisError.
Proof.
  apply (proj1 (@gibbs_removal_single_image_needs_axis_2 (memory 16) vol_4x4
                  1 3 4 eq_refl eq_refl eq_refl ltac:(lia) ltac:(lia))).
  lia.
Defined.

(** X20: [gibbs_removal] raises [IndexError] for every square plane of
    side n with (2 n_points + 3) / 3 <= n <= n_points: for a single
    image with [slice_axis = 2], and for a stack (rank 3) with at least
    one slice, where the first slice already fails. *)
Theorem gibbs_removal_small_plane_raises (st : store) (vol : ndarray)
  (slice_axis n_points n : nat) :
  wf_nd vol -> slice_axis <= 2 -> plane vol slice_axis = (n, n) ->
  1 <= n -> n <= n_points -> 2 * n_points + 3 <= 3 * n ->
  (ndim vol = 2 /\ slice_axis = 2)
  \/ (ndim vol = 3 /\ 1 <= dim (working_view vol slice_axis) 2) ->
  gibbs_removal st vol slice_axis n_points = Err BoolIndexError.
Proof.
  intros Hwf Hax Hpl Hn Hshort Hwide [[Hnd ->] | [Hnd Hk]].
  - unfold plane in Hpl. rewrite Hnd in Hpl.
    cbn [Nat.ltb Nat.leb andb] in Hpl. injection Hpl as Hd0 Hd1.
    apply (@gibbs_removal_rank2_short st vol n n_points); assumption.
  - destruct (@plane_working_view vol slice_axis n) as [Hd0 Hd1];
      try assumption; try lia.
    apply (@gibbs_removal_rank3_first_slice st vol slice_axis n_points n);
      try assumption.
    apply (@gibbs_removal_2d_short _ n_points _ _ n n); try assumption.
    rewrite <- Hd0 at 1. rewrite <- Hd1 at 1. apply has_shape_read_slice.
Qed.

Lemma gibbs_removal_small_plane_raises_witness :
  gibbs_removal (memory 18) vol_3x3x2 2 3 = Err BoolIndexError.
Proof.
  apply (@gibbs_removal_small_plane_raises (memory 18) vol_3x3x2 2 3 3);
    [reflexivity|lia|reflexivity|lia|lia|lia|].
  right. split; [reflexivity|cbn; lia].
Defined.

(** X21: a stack (rank 3) with no slice along the slice axis and a
    square plane is returned as it is, the store untouched, whatever
    [n_points] is: the loop over the slices has nothing to do. *)
Theorem gibbs_removal_empty_stack_unchanged (st : store) (vol : ndarray)
  (slice_axis n_points n : nat) :
  ndim vol = 3 -> wf_nd vol -> slice_axis <= 2 ->
  plane vol slice_axis = (n, n) -> 1 <= n ->
  dim (working_view vol slice_axis) 2 = 0 ->
  gibbs_removal st vol slice_axis n_points = Ok (st, vol).
Proof. apply gibbs_removal_rank3_no_slice. Qed.

Lemma gibbs_removal_empty_stack_unchanged_witness :
  gibbs_removal (memory 0) vol_4x4x0 2 7 = Ok (memory 0, vol_4x4x0).
Proof.
  apply (@gibbs_removal_empty_stack_unchanged (memory 0) vol_4x4x0 2 7 4);
    [reflexivity|reflexivity|lia|reflexivity|lia|reflexivity].
Defined.

(** X22: with [n_points = 0], [gibbs_removal] raises the broadcast
    error of [_image_tv] on every square plane of side at least 2: for a
    single image, and for a stack with at least one slice. *)
Theorem gibbs_removal_no_points_raises (st : store) (vol : ndarray)
  (slice_axis n : nat) :
  wf_nd vol -> slice_axis <= 2 -> plane vol slice_axis = (n, n) -> 2 <= n ->
  ndim vol = 2
  \/ (ndim vol = 3 /\ 1 <= dim (working_view vol slice_axis) 2) ->
  gibbs_removal st vol slice_axis 0 = Err BroadcastError.
Proof.
  intros Hwf Hax Hpl Hn [Hnd | [Hnd Hk]].
  - rewrite gibbs_removal_rank2_unfold by assumption.
    unfold plane in Hpl. rewrite Hnd in Hpl.
    change (2 <? 2) with false in Hpl. rewrite andb_false_r in Hpl.
    injection Hpl as Hd0 Hd1. unfold dim. rewrite Hd0, Hd1.
    rewrite weights_square by lia. cbn [bind].
    rewrite gibbs_removal_2d_zero_points; try discriminate; [reflexivity|].
    unfold read2. rewrite ncol_tab. unfold dim. lia.
  - destruct (@plane_working_view vol slice_axis n) as [Hd0 Hd1];
      try assumption; try lia.
    apply (@gibbs_removal_rank3_first_slice st vol slice_axis 0 n);
      try assumption; try lia.
    apply gibbs_removal_2d_zero_points; try discriminate.
    unfold read_slice. rewrite ncol_tab. lia.
Qed.

Lemma gibbs_removal_no_points_raises_witness :
  gibbs_removal (memory 16) vol_4x4 2 0 = Err BroadcastError.
Proof.
  apply (@gibbs_removal_no_points_raises (memory 16) vol_4x4 2 4);
    [reflexivity|lia|reflexivity|lia|left; reflexivity].
Defined.

(** X23: for every input of rank 3 or more and [slice_axis] 0 or 1,
    [gibbs_removal] is the same computation as exchanging that axis with
    axis 2, running with [slice_axis = 2] and exchanging the axes back:
    same outcome (error or result), same store, same returned view. *)
Theorem gibbs_removal_is_swap_run_swap (st : store) (vol : ndarray)
  (slice_axis n_points : nat) :
  2 < ndim vol -> slice_axis < 2 ->
  gibbs_removal st vol slice_axis n_points
  = (v <- swapaxes vol slice_axis 2 ;;
     '(st', r) <- gibbs_removal st v 2 n_points ;;
     r' <- swapaxes r slice_axis 2 ;;
     Ok (st', r')).
Proof. apply gibbs_removal_swap. Qed.

Lemma gibbs_removal_is_swap_run_swap_witness :
  gibbs_removal (memory 64) vol_2x4x4x2 1 3
  = (v <- swapaxes vol_2x4x4x2 1 2 ;;
     '(st', r) <- gibbs_removal (memory 64) v 2 3 ;;
     r' <- swapaxes r 1 2 ;;
     Ok (st', r')).
Proof.
  apply (@gibbs_removal_is_swap_run_swap (memory 64) vol_2x4x4x2 1 3);
    [cbn; lia|lia].
Defined.

(** X24: after [gibbs_removal] on a stack (rank 3) with a square plane
    of side at least [n_points + 1], every sample of every slice of the
    caller's array is non-negative. *)
Theorem gibbs_removal_stack_result_nonnegative (st : store) (vol : ndarray)
  (slice_axis n_points n : nat) :
  ndim vol = 3 -> wf_nd vol -> slice_axis <= 2 ->
  plane vol slice_axis = (n, n) -> 1 <= n_points -> n_points + 1 <= n ->
  valid_view st (working_view vol slice_axis) ->
  exists st',
    gibbs_removal st vol slice_axis n_points = Ok (st', vol)
    /\ forall v, v < dim (working_view vol slice_axis) 2 ->
         entries nonnegative (read_slice st' (working_view vol slice_axis) v).
Proof.
  intros Hnd Hwf Hax Hpl Hnp Hn Hvalid.
  destruct (@gibbs_removal_rank3_in_place st vol slice_axis n_points n
              Hwf Hax Hpl Hnp Hn Hnd Hvalid) as (st' & E & _ & _ & Hsl).
  exists st'. split; [exact E|].
  intros v Hv. exact (gibbs_removal_2d_nonneg _ _ _ _ (Hsl v Hv)).
Qed.

Lemma gibbs_removal_stack_result_nonnegative_witness :
  exists st',
    gibbs_removal (memory 32) vol_4x4x2 2 3 = Ok (st', vol_4x4x2)
    /\ forall v, v < dim (working_view vol_4x4x2 2) 2 ->
         entries nonnegative (read_slice st' (working_view vol_4x4x2 2) v).
Proof.
  apply (@gibbs_removal_stack_result_nonnegative (memory 32) vol_4x4x2 2 3 4);
    [reflexivity|reflexivity|lia|reflexivity|lia|lia|].
  apply (@valid_view_c3 (memory 32) 0 4 4 2 2); cbn; lia.
Defined.

(** ** The shift search and the store, further *)

(** X25: for each direction and each pixel the search keeps the first
    best trial.  Every trial image exists; after any number of trial
    shifts, either no trial so far scores below the input and nothing is
    recorded, or the recorded shift is the first of the shifts tried
    whose trial image has the lowest score, that score is below the
    score of the input, and the stored sample and score are those of
    that trial image at the pixel. *)
Theorem search_keeps_first_best (xs : arr2 R) (M N n_points k : nat) :
  has_shape M N xs -> wf xs ->
  1 <= M -> 1 <= n_points -> n_points + 1 <= N ->
  (forall positive s,
     exists img, trial_image xs positive s = Ok img /\ has_shape M N img)
  /\ exists st,
       search_loop xs n_points (firstn k ssamp) = Ok st
       /\ forall i j, i < M -> j < N ->
            kept_best xs n_points true (firstn k ssamp)
                      (sp st) (isp st) (tvp st) i j
            /\ kept_best xs n_points false (firstn k ssamp)
                         (sn st) (isn st) (tvn st) i j.
Proof.
  intros Hx Wx HM Hnp HN. split.
  - intros positive s.
    destruct (@search_init_spectrum M N n_points HM Hnp HN xs Hx)
      as (c0 & E0 & H0 & _).
    exact (@trial_image_ok M N n_points HM Hnp HN xs Hx c0 positive s E0 H0).
  - destruct (@search_loop_kept M N n_points HM Hnp HN xs Hx Wx
                (firstn k ssamp)) as (st & E & _ & _ & Hk).
    exists st. split; [exact E|exact Hk].
Qed.

Lemma search_keeps_first_best_witness :
  exists st,
    search_loop ramp_4x4 3 (firstn 45 ssamp) = Ok st
    /\ kept_best ramp_4x4 3 true (firstn 45 ssamp)
                 (sp st) (isp st) (tvp st) 0 0.
Proof.
  destruct (@search_keeps_first_best ramp_4x4 4 4 3 45
              (has_shape_tab _ _ _) (wf_tab _ _ _)
              ltac:(lia) ltac:(lia) ltac:(lia))
    as (_ & st & E & Hk).
  exists st. split; [exact E|].
  apply (proj1 (Hk 0 0 ltac:(lia) ltac:(lia))).
Defined.



(** ** Constant images, end to end *)

(** X27: [_gibbs_removal_2d] maps a constant image of value c, with
    both sides at least [n_points + 1], to the constant image of value
    |c|, for any weights of the shape of the image that add up to 1 at
    every pixel - in particular for the weights it computes itself on a
    square image.  A non-negative constant image is returned unchanged;
    a negative one comes back with its sign changed. *)
Theorem gibbs_removal_2d_constant_image (M N n_points : nat) (c : R)
  (G0 G1 : arr2 R) :
  1 <= n_points -> n_points + 1 <= M -> n_points + 1 <= N ->
  (has_shape M N G0 -> has_shape M N G1 ->
   (forall i j, i < M -> j < N -> (get G0 i j + get G1 i j = 1)%R) ->
   _gibbs_removal_2d (constant M N c) n_points (Some G0) (Some G1)
   = Ok (constant M N (Rabs c)))
  /\ (M = N ->
      _gibbs_removal_2d (constant M N c) n_points None None
      = Ok (constant M N (Rabs c))).
Proof.
  intros Hnp HM HN. split.
  - intros H0 H1 Hsum. apply gibbs_removal_2d_constant; assumption.
  - intros <-. rewrite gibbs_removal_2d_default_weights.
    change (shape2 (constant M M c)) with (M, M).
    rewrite weights_square by lia. cbn [bind].
    apply gibbs_removal_2d_constant_square; assumption.
Qed.

Lemma gibbs_removal_2d_constant_image_witness :
  _gibbs_removal_2d (constant 4 4 (-1)) 3 None None
  = Ok (constant 4 4 (Rabs (-1))).
Proof.
  apply (proj2 (@gibbs_removal_2d_constant_image 4 4 3 (-1)
                  (zeros (4, 4)) (zeros (4, 4))
                  ltac:(lia) ltac:(lia) ltac:(lia))).
  reflexivity.
Defined.

(** X28: [gibbs_removal] on constant data with a square plane of side
    at least [n_points + 1]: a single image of value c (with
    [slice_axis = 2]) gives a new array holding |c| everywhere; in a
    stack (rank 3) whose slices all hold c, every slice of the caller's
    array holds |c| afterwards. *)
Theorem gibbs_removal_constant_volume (st : store) (vol : ndarray)
  (slice_axis n_points n : nat) (c : R) :
  wf_nd vol -> slice_axis <= 2 -> plane vol slice_axis = (n, n) ->
  1 <= n_points -> n_points + 1 <= n ->
  (ndim vol = 2 -> slice_axis = 2 -> read2 st vol = constant n n c ->
   gibbs_removal st vol slice_axis n_points
   = Ok (st ++ [dat (constant n n (Rabs c))],
         mk_nd (length st) 0 [n; n] [n; 1]))
  /\ (ndim vol = 3 -> valid_view st (working_view vol slice_axis) ->
      (forall v, v < dim (working_view vol slice_axis) 2 ->
         read_slice st (working_view vol slice_axis) v = constant n n c) ->
      exists st',
        gibbs_removal st vol slice_axis n_points = Ok (st', vol)
        /\ forall v, v < dim (working_view vol slice_axis) 2 ->
             read_slice st' (working_view vol slice_axis) v
             = constant n n (Rabs c)).
Proof.
  intros Hwf Hax Hpl Hnp Hn. split.
  - intros Hnd -> Himg.
    rewrite gibbs_removal_rank2_unfold by (assumption || lia).
    unfold plane in Hpl. rewrite Hnd in Hpl.
    cbn [Nat.ltb Nat.leb andb] in Hpl. injection Hpl as Hd0 Hd1.
    unfold dim. rewrite Hd0, Hd1, weights_square by lia. cbn [bind].
    rewrite Himg, gibbs_removal_2d_constant_square by assumption.
    cbn [bind]. change (2 <? 2) with false. cbv iota. unfold alloc.
    reflexivity.
  - intros Hnd Hvalid Hconst.
    destruct (@gibbs_removal_rank3_in_place st vol slice_axis n_points n
                Hwf Hax Hpl Hnp Hn Hnd Hvalid) as (st' & E & _ & _ & Hsl).
    exists st'. split; [exact E|].
    intros v Hv. pose proof (Hsl v Hv) as H2d.
    rewrite (Hconst v Hv), gibbs_removal_2d_constant_square in H2d
      by assumption.
    symmetry. apply Ok_inj. exact H2d.
Qed.

Lemma gibbs_removal_constant_volume_witness :
  gibbs_removal (memory 16) vol_4x4 2 3
  = Ok (memory 16 ++ [dat (constant 4 4 (Rabs 0))],
        mk_nd (length (memory 16)) 0 [4; 4] [4; 1]).
Proof.
  apply (proj1 (@gibbs_removal_constant_volume (memory 16) vol_4x4 2 3 4 0
                  eq_refl ltac:(lia) eq_refl ltac:(lia) ltac:(lia)));
    reflexivity.
Defined.

(** ** Intensity scale, and images without lines *)

(** X29: the scores of [_image_tv] do not depend on an intensity
    offset and scale with the magnitude of an intensity factor: for the
    image a x + c both score maps are those of x multiplied by |a|
    (over the reals; the axis has at least [n_points + 1] samples). *)
Theorem image_tv_affine_intensity (x : arr2 R) (axis n_points : nat)
  (a c : R) :
  1 <= n_points ->
  (if axis =? 0 then n_points + 1 <= nrow x else n_points + 1 <= ncol x) ->
  exists ptv ntv,
    _image_tv x axis n_points = Ok (ptv, ntv)
    /\ _image_tv (map2d (fun v => a * v + c)%R x) axis n_points
       = Ok (map2d (Rmult (Rabs a)) ptv, map2d (Rmult (Rabs a)) ntv).
Proof.
  intros Hnp. destruct (Nat.eqb_spec axis 0) as [->|Hax]; intros Hsize.
  - assert (Hcol : n_points + 1 <= ncol (transpose x))
      by (unfold transpose; rewrite ncol_tab; exact Hsize).
    do 2 eexists. split.
    + rewrite image_tv_axis0.
      rewrite image_tv_axis1 by (try discriminate; assumption).
      cbn [bind]. reflexivity.
    + rewrite image_tv_axis0, transpose_map2d.
      rewrite image_tv_rows_affine by (try discriminate; assumption).
      cbn [bind]. rewrite !transpose_map2d. reflexivity.
  - do 2 eexists. split.
    + apply image_tv_axis1; assumption.
    + apply image_tv_rows_affine; assumption.
Qed.

Lemma image_tv_affine_intensity_witness :
  exists ptv ntv,
    _image_tv tv_row 1 3 = Ok (ptv, ntv)
    /\ _image_tv (map2d (fun v => 2 * v + 5)%R tv_row) 1 3
       = Ok (map2d (Rmult (Rabs 2)) ptv, map2d (Rmult (Rabs 2)) ntv).
Proof.
  apply (@image_tv_affine_intensity tv_row 1 3 2 5); [lia|cbn; lia].
Defined.

(** X30: on an image without lines along the corrected axis (no rows
    for axis 1, no columns for axis 0) but with at least [n_points + 1]
    samples along the axis, [_gibbs_removal_1d] raises the error of
    [np.fft.fft2] on an empty array. *)
Theorem gibbs_removal_1d_no_lines_raises (x : arr2 R)
  (axis n_points M N : nat) :
  has_shape M N x -> 1 <= n_points ->
  (if axis =? 0 then N = 0 /\ n_points + 1 <= M
   else M = 0 /\ n_points + 1 <= N) ->
  _gibbs_removal_1d x axis n_points = Err FFTSizeError.
Proof.
  intros Hx Hnp. destruct (Nat.eqb_spec axis 0) as [->|Hax]; intros [Hz Hsize].
  - subst N. rewrite gibbs_removal_1d_axis0.
    rewrite (@gibbs_removal_1d_no_rows (transpose x) 1 n_points M);
      try assumption; try discriminate; [reflexivity|].
    apply has_shape_transpose. exact Hx.
  - subst M. apply (@gibbs_removal_1d_no_rows x axis n_points N); assumption.
Qed.

Lemma gibbs_removal_1d_no_lines_raises_witness :
  _gibbs_removal_1d (zeros (0, 5)) 1 3 = Err FFTSizeError.
Proof.
  apply (@gibbs_removal_1d_no_lines_raises (zeros (0, 5)) 1 3 0 5);
    [apply has_shape_tab|lia|cbn; lia].
Defined.
